(** * EVE ore/ice harvesting rate calculator (src/app.js)

    A shallow embedding of the calculation layer of [app.js] and the
    properties checked about it.

    JavaScript numbers are IEEE 754 binary64 values.  The program is written
    once over an interface of the number operations it uses ([JSNumber]) and
    read at two instances:
    - [Binary64.number]: Rocq's primitive floats, the arithmetic the browser
      runs, with [Math.floor], [Math.max] and [Math.min] defined on the
      specification floats;
    - [Exact.number]: the rationals, i.e. the same formulas without rounding,
      overflow or NaN, the arithmetic the specification reasons in. *)

From Stdlib Require Import ZArith QArith Qround Floats Lia Lqa String Ascii.
From Stdlib Require Import Sorted Permutation.
From stdpp Require Import base list pretty strings gmap.

Set Warnings "-inexact-float".
Set Default Proof Using "Type*".

(* ====================================================================== *)
(** * JavaScript numbers *)
(* ====================================================================== *)

(** The operations of [Number] that [app.js] uses.  [lit q] is the numeric
    literal written [q] in the source; [lt] and [le] are [<] and [<=] (so
    [a > b] is [lt b a]); [truthy] is [ToBoolean]. *)
Class JSNumber (num : Type) : Type := {
  lit : Q -> num;
  add : num -> num -> num;
  sub : num -> num -> num;
  mul : num -> num -> num;
  div : num -> num -> num;
  lt : num -> num -> bool;
  le : num -> num -> bool;
  Math_floor : num -> num;
  Math_max : num -> num -> num;
  Math_min : num -> num -> num;
  isFinite : num -> bool;
  truthy : num -> bool
}.
Arguments lit {num _} q%_Q.

Declare Scope js_scope.
Delimit Scope js_scope with js.
Notation "x + y" := (add x y) : js_scope.
Notation "x - y" := (sub x y) : js_scope.
Notation "x * y" := (mul x y) : js_scope.
Notation "x / y" := (div x y) : js_scope.
Notation "x <? y" := (lt x y) : js_scope.
Notation "x <=? y" := (le x y) : js_scope.
Notation "x >? y" := (lt y x) : js_scope.
Notation "x >=? y" := (le y x) : js_scope.
(** [a || b] on numbers: [a] when it is truthy, else [b]. *)
Notation "x '|||' y" := (if truthy x then x else y)
  (at level 50, left associativity) : js_scope.

(** ** IEEE 754 binary64 *)
Module Binary64.

(** The integer [z] as a double (round to nearest even). *)
Definition of_Z (z : Z) : float :=
  SF2Prim (binary_normalize prec emax z 0 false).

(** A decimal literal [n/d]: the double nearest to it.  Division is
    correctly rounded, so this is exact rounding whenever [n] and [d] are
    themselves doubles (below 2^53), which holds for every literal of
    [app.js]. *)
Definition of_Q (q : Q) : float :=
  (of_Z (Qnum q) / of_Z (Z.pos (Qden q)))%float.

(** [Math.floor] on the specification floats: zeros, infinities and NaN
    are returned as they are, a finite [±m·2^e] with [e >= 0] is already an
    integer, and otherwise the mantissa is shifted right (an arithmetic
    shift rounds towards minus infinity); a zero result keeps the sign of
    the argument. *)
Definition SFfloor (x : spec_float) : spec_float :=
  match x with
  | S754_finite s m e =>
      if (0 <=? e)%Z then x
      else binary_normalize prec emax
             (Z.shiftr (if s then Z.neg m else Z.pos m) (- e)) 0 s
  | _ => x
  end.

Definition floor (x : float) : float := SF2Prim (SFfloor (Prim2SF x)).

(** [Math.max] and [Math.min]: NaN when an argument is NaN, and [+0] is
    larger than [-0]. *)
Definition max (x y : float) : float :=
  if is_nan x || is_nan y then nan
  else if (x <? y)%float then y
  else if (y <? x)%float then x
  else if get_sign x then y else x.

Definition min (x y : float) : float :=
  if is_nan x || is_nan y then nan
  else if (x <? y)%float then x
  else if (y <? x)%float then y
  else if get_sign x then x else y.

(** [ToBoolean]: false for [+0], [-0] and NaN. *)
Definition to_boolean (x : float) : bool :=
  negb (is_nan x || is_zero x).

(** The value of a double in units of [2^emin], the spacing of the
    subnormals: every finite double [±m·2^e] has [e >= emin], so this is
    the integer [±m·2^(e - emin)]; the infinities are [±2^(emax - emin)],
    beyond every finite double.  The order of the doubles is the order of
    these integers. *)
Definition SFrank (x : spec_float) : Z :=
  match x with
  | S754_zero _ | S754_nan => 0
  | S754_infinity s => cond_Zopp s (2 ^ (emax - emin))
  | S754_finite s m e => cond_Zopp s (Z.pos m * 2 ^ (e - emin))
  end%Z.

Definition rank (x : float) : Z := SFrank (Prim2SF x).

#[global] Instance number : JSNumber float := {|
  lit := of_Q;
  add := PrimFloat.add;
  sub := PrimFloat.sub;
  mul := PrimFloat.mul;
  div := PrimFloat.div;
  lt := PrimFloat.ltb;
  le := PrimFloat.leb;
  Math_floor := floor;
  Math_max := max;
  Math_min := min;
  isFinite := is_finite;
  truthy := to_boolean
|}.

End Binary64.

(** ** Exact rational arithmetic *)
Module Exact.

Definition ltb (x y : Q) : bool := negb (Qle_bool y x).

Definition floor (x : Q) : Q := inject_Z (Qfloor x).

Definition max (x y : Q) : Q := if Qle_bool x y then y else x.

Definition min (x y : Q) : Q := if Qle_bool x y then x else y.

#[global] Instance number : JSNumber Q := {|
  lit := fun q => q;
  add := Qplus;
  sub := Qminus;
  mul := Qmult;
  div := Qdiv;
  lt := ltb;
  le := Qle_bool;
  Math_floor := floor;
  Math_max := max;
  Math_min := min;
  isFinite := fun _ => true;
  truthy := fun x => negb (Qeq_bool x 0)
|}.

End Exact.

(* ====================================================================== *)
(** * The calculation layer of app.js *)
(* ====================================================================== *)

Section App.

Context {num : Type} {N : JSNumber num}.
Local Open Scope js_scope.

(** [function clamp(n, lo, hi)] *)
Definition clamp (n lo hi : num) : num := Math_min hi (Math_max lo n).

(** ** Calculation *)

Record CycleResult : Type := {
  totalSeconds : num;
  cycles : num;
  usedSeconds : num;
  leftoverSeconds : num
}.

(** [function calcCycles(durationMinutes, cycleTimeSeconds)] *)
Definition calcCycles (durationMinutes cycleTimeSeconds : num) : CycleResult :=
  let totalSeconds := Math_max (lit 0) (durationMinutes * lit 60) in
  let cycles :=
    if cycleTimeSeconds >? lit 0
    then Math_floor (totalSeconds / cycleTimeSeconds) else lit 0 in
  let usedSeconds := cycles * cycleTimeSeconds in
  let leftoverSeconds := totalSeconds - usedSeconds in
  {| totalSeconds := totalSeconds; cycles := cycles;
     usedSeconds := usedSeconds; leftoverSeconds := leftoverSeconds |}.

(** [function calcUnitsMined(volumeM3, unitVolumeM3)] *)
Definition calcUnitsMined (volumeM3 unitVolumeM3 : num) : num :=
  if negb (unitVolumeM3 >? lit 0) then lit 0
  else Math_floor (volumeM3 / unitVolumeM3 + lit 1e-9).

(** ** Arrays *)

(** [Array.prototype.sort(compareFn)].  ECMAScript requires the sort to be
    stable and reads only the sign of [compareFn(a, b)] (NaN counts as 0);
    for a consistent comparator that fixes the result.  It is modelled as
    the stable insertion sort: an element moves behind a later one only
    when the comparator is positive on the pair.  Where the comparator is
    not consistent (a NaN among the values compared) the order is left to
    the engine. *)
Fixpoint sort_insert {A : Type} (compareFn : A -> A -> num) (x : A) (l : list A) : list A :=
  match l with
  | [] => [x]
  | y :: l' =>
      if compareFn x y >? lit 0 then y :: sort_insert compareFn x l'
      else x :: y :: l'
  end.

Definition Array_sort {A : Type} (compareFn : A -> A -> num) (l : list A) : list A :=
  foldr (sort_insert compareFn) [] l.

(** ** Reference data and prices *)

(** One entry of [type_materials]: [{ material_type_id, quantity }], a
    field that is absent is [None]. *)
Record TypeMaterial : Type := {
  material_type_id : option num;
  quantity : option num
}.

(** What [getTypeData] returns.  [typeMaterials] lists the object's entries
    in the order of [Object.keys], each with its key read as a number. *)
Record TypeData : Type := {
  td_typeId : num;
  td_name : string;
  volume : option num;
  portionSize : num;
  typeMaterials : list (num * TypeMaterial)
}.

(** A record of the price map: [{ sellMin, buyMax }], [null] as [None]. *)
Record PriceQuote : Type := {
  sellMin : option num;
  buyMax : option num
}.

(** The price map, through its [get]. *)
Definition PriceMap : Type := num -> option PriceQuote.

(** [function getPriceSellMin(priceMap, typeId)] *)
Definition getPriceSellMin (priceMap : PriceMap) (typeId : num) : option num :=
  match priceMap typeId with
  | Some rec => sellMin rec
  | None => None
  end.

(** ** computeReprocessOutputs *)

Record ReprocessOutput : Type := {
  o_typeId : num;
  o_qty : num;
  o_qtyPerPortion : num
}.

(** The loop body of [computeReprocessOutputs] for one key: the output
    pushed, or [None] where the source says [continue]. *)
Definition reprocessOutput (batches eff : num) (entry : num * TypeMaterial)
  : option ReprocessOutput :=
  let '(key, rec) := entry in
  let matId := default key (material_type_id rec) in
  let qtyPerPortion := default (lit 0) (quantity rec) in
  if negb (isFinite matId) || (matId <=? lit 0) then None
  else if negb (isFinite qtyPerPortion) || (qtyPerPortion <=? lit 0) then None
  else
    let qty := Math_floor (batches * qtyPerPortion * eff + lit 1e-9) in
    Some {| o_typeId := matId; o_qty := qty; o_qtyPerPortion := qtyPerPortion |}.

(** [(a, b) => (b.qty - a.qty) || (a.typeId - b.typeId)] *)
Definition byQtyThenTypeId (a b : ReprocessOutput) : num :=
  (o_qty b - o_qty a) ||| (o_typeId a - o_typeId b).

(** [function computeReprocessOutputs({ units, portionSize, typeMaterials, yieldPct })] *)
Definition computeReprocessOutputs (units portionSize : num)
    (typeMaterials : list (num * TypeMaterial)) (yieldPct : num)
  : list ReprocessOutput :=
  let eff := clamp yieldPct (lit 0) (lit 100) / lit 100 in
  let ps := Math_max (lit 1) (portionSize ||| lit 1) in
  let batches := units / ps in
  let outputs := omap (reprocessOutput batches eff) typeMaterials in
  Array_sort byQtyThenTypeId outputs.

(** ** onCalculate: one candidate *)

(** An element of [mined]: a target with its type data and units. *)
Record Mined : Type := {
  m_name : string;
  m_typeId : num;
  m_typeData : TypeData;
  m_unitsMined : num
}.

(** [units = Math.floor(totalM3 / (td.volume || 1))] *)
Definition unitsOf (totalM3 : num) (td : TypeData) : num :=
  let v := match volume td with
           | Some v => v ||| lit 1
           | None => lit 1
           end in
  Math_floor (totalM3 / v).

Record ReprocessRow : Type := {
  r_typeId : option num;
  r_name : string;
  r_qty : num;
  r_sellMin : option num;
  r_totalValue : option num
}.

Record CandidateRow : Type := {
  typeId : num;
  typeData : TypeData;
  unitsMined : num;
  oreSell : option num;
  rawTotal : option num;
  rawPerHour : option num;
  reprocessRows : list ReprocessRow;
  reprocessTotal : num;
  taxFee : num;
  reprocessNet : num;
  reprocessPerHour : option num
}.

Section Candidate.

(** [namesMap.get(outId) || `Type ${outId}`], as a function of [outId]
    ([None] is the NaN that [Number(undefined)] gives). *)
Variable nameOf : option num -> string.
Variable priceMap : PriceMap.
Variables yieldFrac taxPct usedSeconds : num.

(** The body of the loop over [Object.values(td.typeMaterials)]. *)
Definition reprocessRow (portions : num) (mat : TypeMaterial) : ReprocessRow :=
  let outId := material_type_id mat in
  let baseQty := match quantity mat with
                 | Some q => q ||| lit 0
                 | None => lit 0
                 end in
  let qty := Math_floor (portions * baseQty * yieldFrac) in
  let sellMin := outId ≫= getPriceSellMin priceMap in
  let totalValue := match sellMin with
                    | Some p => Some (p * qty)
                    | None => None
                    end in
  {| r_typeId := outId; r_name := nameOf outId; r_qty := qty;
     r_sellMin := sellMin; r_totalValue := totalValue |}.

(** [if (totalValue !== null) reprocessTotal += totalValue] *)
Definition addValue (reprocessTotal : num) (r : ReprocessRow) : num :=
  match r_totalValue r with
  | Some v => reprocessTotal + v
  | None => reprocessTotal
  end.

(** [(a, b) => (b.totalValue ?? 0) - (a.totalValue ?? 0)] *)
Definition byTotalValue (a b : ReprocessRow) : num :=
  default (lit 0) (r_totalValue b) - default (lit 0) (r_totalValue a).

(** [portions = Math.floor(m.unitsMined / portion)] *)
Definition portionsOf (m : Mined) : num :=
  let portion := Math_max (lit 1) (portionSize (m_typeData m) ||| lit 1) in
  Math_floor (m_unitsMined m / portion).

(** The rows of the reprocessing table as the loop pushes them, before
    [reprocessRows.sort]. *)
Definition producedRows (m : Mined) : list ReprocessRow :=
  map (fun entry => reprocessRow (portionsOf m) (snd entry))
      (typeMaterials (m_typeData m)).

(** The callback of [mined.map] that builds [rows]. *)
Definition candidateRow (m : Mined) : CandidateRow :=
  let td := m_typeData m in
  let oreSell := getPriceSellMin priceMap (m_typeId m) in
  let rawTotal := match oreSell with
                  | Some p => Some (p * m_unitsMined m)
                  | None => None
                  end in
  let reprocessTotal := fold_left addValue (producedRows m) (lit 0) in
  let reprocessRows := Array_sort byTotalValue (producedRows m) in
  let taxFee := if taxPct >? lit 0 then reprocessTotal * (taxPct / lit 100) else lit 0 in
  let reprocessNet := reprocessTotal - taxFee in
  let rawPerHour :=
    match rawTotal with
    | Some t => if usedSeconds >? lit 0 then Some (t * (lit 3600 / usedSeconds)) else None
    | None => None
    end in
  let reprocessPerHour :=
    if usedSeconds >? lit 0 then Some (reprocessNet * (lit 3600 / usedSeconds)) else None in
  {| typeId := m_typeId m; typeData := td; unitsMined := m_unitsMined m;
     oreSell := oreSell; rawTotal := rawTotal; rawPerHour := rawPerHour;
     reprocessRows := reprocessRows; reprocessTotal := reprocessTotal;
     taxFee := taxFee; reprocessNet := reprocessNet;
     reprocessPerHour := reprocessPerHour |}.

End Candidate.

(** [yieldFrac = Math.max(0, Math.min(1, reprocessYieldPct / 100))] *)
Definition yieldFracOf (reprocessYieldPct : num) : num :=
  Math_max (lit 0) (Math_min (lit 1) (reprocessYieldPct / lit 100)).

(** [(a, b) => (b.reprocessPerHour ?? 0) - (a.reprocessPerHour ?? 0)] *)
Definition byReprocessPerHour (a b : CandidateRow) : num :=
  default (lit 0) (reprocessPerHour b) - default (lit 0) (reprocessPerHour a).

(** [best = rows.slice().sort(...)[0] || rows[0]] *)
Definition bestOf (rows : list CandidateRow) : option CandidateRow :=
  match head (Array_sort byReprocessPerHour rows) with
  | Some r => Some r
  | None => head rows
  end.

(** ** renderComparison *)

(** The [data-key] of the six sortable headers. *)
Inductive SortKey : Type :=
| key_name | key_unitsMined | key_rawPerHour
| key_reprocessPerHour | key_rawTotal | key_reprocessNet.

Inductive SortDir : Type := asc | desc.

(** [window.__compareState] *)
Record CompareState : Type := {
  key : SortKey;
  dir : SortDir;
  selectedTypeId : option num
}.

(** [a[state.key]] on an element of [rows]: [None] is [null] or
    [undefined].  A row has no [name] property (the name is under
    [typeData]), so that key reads [undefined]. *)
Definition rowField (k : SortKey) (a : CandidateRow) : option num :=
  match k with
  | key_name => None
  | key_unitsMined => Some (unitsMined a)
  | key_rawPerHour => rawPerHour a
  | key_reprocessPerHour => reprocessPerHour a
  | key_rawTotal => rawTotal a
  | key_reprocessNet => Some (reprocessNet a)
  end.

(** [av = a[state.key] ?? 0] *)
Definition sortValue (k : SortKey) (a : CandidateRow) : num :=
  default (lit 0) (rowField k a).

(** The comparator of [renderComparison]. *)
Definition byState (state : CompareState) (a b : CandidateRow) : num :=
  let av := sortValue (key state) a in
  let bv := sortValue (key state) b in
  match dir state with
  | asc => av - bv
  | desc => bv - av
  end.

(** [sorted = rows.slice().sort(...)]: the body rows of the comparison
    table, in display order. *)
Definition renderComparison (rows : list CandidateRow) (state : CompareState)
  : list CandidateRow :=
  Array_sort (byState state) rows.

Definition SortKey_eqb (a b : SortKey) : bool :=
  match a, b with
  | key_name, key_name | key_unitsMined, key_unitsMined
  | key_rawPerHour, key_rawPerHour | key_reprocessPerHour, key_reprocessPerHour
  | key_rawTotal, key_rawTotal | key_reprocessNet, key_reprocessNet => true
  | _, _ => false
  end.

(** The click handler of a sortable header: the state it leaves, with
    which [renderComparison(rows, ...)] is run again on the same [rows]. *)
Definition clickHeader (k : SortKey) (state : CompareState) : CompareState :=
  if SortKey_eqb (key state) k
  then {| key := key state;
          dir := match dir state with asc => desc | desc => asc end;
          selectedTypeId := selectedTypeId state |}
  else {| key := k; dir := desc; selectedTypeId := selectedTypeId state |}.

(** ** The advanced yield form *)

(** The fields of the form after [Number(...)]. *)
Record AdvancedForm : Type := {
  facilityBasePct : num;
  rigBonusPts : num;
  securityModPct : num;
  skillR : num;
  skillRE : num;
  skillOP : num;
  implantPct : num;
  formTaxPct : num
}.

(** [Math.max(0, Math.min(5, Math.floor(Number(el.value))))] *)
Definition skillLevel (v : num) : num :=
  Math_max (lit 0) (Math_min (lit 5) (Math_floor v)).

(** [by]: facility base plus rig bonus, times the security modifier only
    if a rig is installed. *)
Definition baseYield (basePct rigPts secPct : num) : num :=
  let by_ := (basePct + rigPts) / lit 100 in
  if (rigPts >? lit 0) && (secPct >? lit 0)
  then by_ * (lit 1 + (secPct / lit 100)) else by_.

(** The click handler of [applyAdvancedBtn]: the fraction [eff] whose
    percentage it writes into [reprocessYieldPct]. *)
Definition applyAdvanced (f : AdvancedForm) : num :=
  let basePct := facilityBasePct f in
  let rigPts := rigBonusPts f in
  let secPct := securityModPct f in
  let R := skillLevel (skillR f) in
  let RE := skillLevel (skillRE f) in
  let OP := skillLevel (skillOP f) in
  let implantPct := Math_max (lit 0) (implantPct f) in
  let by_ := baseYield basePct rigPts secPct in
  let eff := by_
    * (lit 1 + (lit 0.03 * R))
    * (lit 1 + (lit 0.02 * RE))
    * (lit 1 + (lit 0.02 * OP))
    * (lit 1 + (implantPct / lit 100)) in
  Math_max (lit 0) (Math_min (lit 1) eff).

(** [window.__reprocessTaxPct] as the handler sets it. *)
Definition applyAdvancedTax (f : AdvancedForm) : num :=
  Math_max (lit 0) (formTaxPct f).

(** The form with [sec] typed into the security-modifier field. *)
Definition withSecurity (f : AdvancedForm) (sec : num) : AdvancedForm :=
  {| facilityBasePct := facilityBasePct f; rigBonusPts := rigBonusPts f;
     securityModPct := sec; skillR := skillR f; skillRE := skillRE f;
     skillOP := skillOP f; implantPct := implantPct f;
     formTaxPct := formTaxPct f |}.

(** The evaluator as the specification words it: every input but the
    skill levels is taken raw, the implant bonus included, and the result
    is [clamp]ed to [0, 1]. *)
Definition claimedYield (f : AdvancedForm) : num :=
  clamp (baseYield (facilityBasePct f) (rigBonusPts f) (securityModPct f)
         * (lit 1 + (lit 0.03 * skillLevel (skillR f)))
         * (lit 1 + (lit 0.02 * skillLevel (skillRE f)))
         * (lit 1 + (lit 0.02 * skillLevel (skillOP f)))
         * (lit 1 + (implantPct f / lit 100)))
        (lit 0) (lit 1).

(** The same with the implant bonus floored at 0, as the handler has it. *)
Definition amendedYield (f : AdvancedForm) : num :=
  clamp (baseYield (facilityBasePct f) (rigBonusPts f) (securityModPct f)
         * (lit 1 + (lit 0.03 * skillLevel (skillR f)))
         * (lit 1 + (lit 0.02 * skillLevel (skillRE f)))
         * (lit 1 + (lit 0.02 * skillLevel (skillOP f)))
         * (lit 1 + (Math_max (lit 0) (implantPct f) / lit 100)))
        (lit 0) (lit 1).

(** ** onCalculate *)

(** How a step ends: with a value, or by [throw new Error(message)]. *)
Inductive Completion (A : Type) : Type :=
| Normal (a : A)
| Throw (message : string).
Arguments Normal {A} a.
Arguments Throw {A} message.

(** What the handler does to the page: the calls of [setStatus] (message
    and kind, oldest first) and the names sent to [resolveTypeIdFromName]
    (oldest first). *)
Record Page : Type := {
  statusLog : list (string * string);
  lookups : list string
}.

(** A step of the handler: it ends normally or throws, and changes the
    page. *)
Definition Eff (A : Type) : Type := Page -> Completion A * Page.

Definition ret {A : Type} (a : A) : Eff A := fun p => (Normal a, p).

Definition throw {A : Type} (message : string) : Eff A :=
  fun p => (Throw message, p).

Definition bind {A B : Type} (m : Eff A) (k : A -> Eff B) : Eff B :=
  fun p =>
    match m p with
    | (Normal a, p') => k a p'
    | (Throw message, p') => (Throw message, p')
    end.

Notation "x <- m ;; k" := (bind m (fun x => k))
  (at level 100, m at next level, right associativity).
Notation "m ;;; k" := (bind m (fun _ => k))
  (at level 100, right associativity).

(** [setStatus(msg, kind)] *)
Definition setStatus (msg kind : string) : Eff unit :=
  fun p => (Normal tt, {| statusLog := statusLog p ++ [(msg, kind)];
                          lookups := lookups p |}).

(** [try { ... } catch (err) { setStatus(err.message, "error") }] *)
Definition try_catch {A : Type} (m : Eff A) : Eff (option A) :=
  fun p =>
    match m p with
    | (Normal a, p') => (Normal (Some a), p')
    | (Throw message, p') =>
        match setStatus message "error" p' with
        | (_, p'') => (Normal None, p'')
        end
    end.

(** *** Strings *)

Definition quote : string := String "034" EmptyString.

(** [s.split(",")] *)
Fixpoint split_comma (s : string) : list string :=
  match s with
  | EmptyString => [EmptyString]
  | String c s' =>
      if Ascii.eqb c ","
      then EmptyString :: split_comma s'
      else match split_comma s' with
           | [] => [String c EmptyString]
           | w :: ws => String c w :: ws
           end
  end.

(** Text is held as its UTF-8 bytes.  The white space that
    [String.prototype.trim] strips is the WhiteSpace and LineTerminator of
    ECMAScript: U+0009 to U+000D and U+0020, of one byte each; U+00A0, of
    two bytes; and U+1680, U+2000 to U+200A, U+2028, U+2029, U+202F,
    U+205F, U+3000 and U+FEFF, of three bytes each. *)
Definition is_space (c : ascii) : bool :=
  let n := nat_of_ascii c in
  ((9 <=? n)%nat && (n <=? 13)%nat) || (n =? 32)%nat.

(** U+00A0 is [C2 A0]. *)
Definition is_space2 (a b : ascii) : bool :=
  (nat_of_ascii a =? 194)%nat && (nat_of_ascii b =? 160)%nat.

(** U+1680 is [E1 9A 80]; U+2000 to U+200A are [E2 80 80] to [E2 80 8A];
    U+2028, U+2029 and U+202F are [E2 80 A8], [E2 80 A9] and [E2 80 AF];
    U+205F is [E2 81 9F]; U+3000 is [E3 80 80]; U+FEFF is [EF BB BF]. *)
Definition is_space3 (a b c : ascii) : bool :=
  let a := nat_of_ascii a in
  let b := nat_of_ascii b in
  let c := nat_of_ascii c in
  ((a =? 225) && (b =? 154) && (c =? 128)
   || (a =? 226) && (b =? 128)
      && ((128 <=? c) && (c <=? 138) || (c =? 168) || (c =? 169) || (c =? 175))
   || (a =? 226) && (b =? 129) && (c =? 159)
   || (a =? 227) && (b =? 128) && (c =? 128)
   || (a =? 239) && (b =? 187) && (c =? 191))%nat.

Section Strip.

(** Which runs of one, two and three bytes are white space. *)
Variable w1 : ascii -> bool.
Variable w2 : ascii -> ascii -> bool.
Variable w3 : ascii -> ascii -> ascii -> bool.

(** What follows the white space that the text begins with, when it
    begins with one. *)
Definition leading (l : list ascii) : option (list ascii) :=
  match l with
  | a :: l1 =>
      if w1 a then Some l1
      else match l1 with
           | b :: l2 =>
               if w2 a b then Some l2
               else match l2 with
                    | c :: l3 => if w3 a b c then Some l3 else None
                    | [] => None
                    end
           | [] => None
           end
  | [] => None
  end.

(** The text without the white space it begins with. *)
Fixpoint strip (l : list ascii) : list ascii :=
  match l with
  | a :: l1 =>
      if w1 a then strip l1
      else match l1 with
           | b :: l2 =>
               if w2 a b then strip l2
               else match l2 with
                    | c :: l3 => if w3 a b c then strip l3 else l
                    | [] => l
                    end
           | [] => l
           end
  | [] => []
  end.

End Strip.

Definition trimStart (s : string) : string :=
  string_of_list_ascii
    (strip is_space is_space2 is_space3 (list_ascii_of_string s)).

(** From the end of the text the bytes of a white space are met last
    first. *)
Definition trimEnd (s : string) : string :=
  string_of_list_ascii
    (rev (strip is_space (fun b a => is_space2 a b) (fun c b a => is_space3 a b c)
            (rev (list_ascii_of_string s)))).

(** [s.trim()] *)
Definition trim (s : string) : string := trimEnd (trimStart s).

(** [Boolean(s)] on a string *)
Definition nonEmpty (s : string) : bool :=
  match s with
  | EmptyString => false
  | String _ _ => true
  end.

(** [materialNameInput.split(",").map((s) => s.trim()).filter(Boolean)] *)
Definition namesOf (materialNameInput : string) : list string :=
  List.filter nonEmpty (map trim (split_comma materialNameInput)).

(** *** Targets *)

Record Target : Type := {
  t_name : string;
  t_typeId : num
}.

Section Targets.

(** The outcome of the ESI lookup [resolveTypeIdFromName(name)]: an id,
    [null], or an error thrown on a failed request. *)
Variable resolveTypeIdFromName : string -> Completion (option num).
(** [String(n)] for a number, as the template literals use it. *)
Variable numberToString : num -> string.

(** [await resolveTypeIdFromName(nm)] *)
Definition resolve (nm : string) : Eff (option num) :=
  fun p => (resolveTypeIdFromName nm,
            {| statusLog := statusLog p; lookups := lookups p ++ [nm] |}).

Definition couldNotResolve (nm : string) : string :=
  ("Could not resolve " ++ quote ++ nm ++ quote
   ++ ". Make sure it matches the in-game name.")%string.

(** [for (const nm of ...) { ...; targets.push({ name: nm, typeId: id }) }] *)
Fixpoint resolveEach (names : list string) (targets : list Target)
  : Eff (list Target) :=
  match names with
  | [] => ret targets
  | nm :: rest =>
      id <- resolve nm ;;
      match id with
      | Some i =>
          if truthy i
          then resolveEach rest (targets ++ [{| t_name := nm; t_typeId := i |}])
          else throw (couldNotResolve nm)
      | None => throw (couldNotResolve nm)
      end
  end.

Definition resolvingMessage (n : nat) : string :=
  ("Resolving type IDs (" ++ pretty (Nat.min n 12) ++ ")…")%string.

Definition resolvedFirst12 (n : nat) : string :=
  ("Resolved first 12 materials (you entered " ++ pretty n ++ ").")%string.

(** The block of [onCalculate] under the comment [// Targets], given the
    two fields of the form: the material name as typed and
    [Number(materialTypeId.value)]. *)
Definition onCalculate_targets (materialName : string) (materialTypeIdInput : num)
  : Eff (list Target) :=
  let materialNameInput := trim materialName in
  if isFinite materialTypeIdInput && (materialTypeIdInput >? lit 0)
  then
    let id := Math_floor materialTypeIdInput in
    ret [{| t_name := if nonEmpty materialNameInput then materialNameInput
                      else ("Type " ++ numberToString id)%string;
            t_typeId := id |}]
  else
    if negb (nonEmpty materialNameInput)
    then throw "Enter a material name or a Type ID."
    else
      let names := namesOf materialNameInput in
      if (length names =? 0)%nat then throw "Enter a material name."
      else
        setStatus (resolvingMessage (length names)) "" ;;;
        targets <- resolveEach (take 12 names) [] ;;
        (if (12 <? length names)%nat
         then setStatus (resolvedFirst12 (length names)) "warn"
         else ret tt) ;;;
        ret targets.

End Targets.

(** *** Rows *)

(** The computation of [onCalculate] between the input checks and the
    rendering, for targets whose type data and prices were fetched:
    [Normal None] is the early return "No full cycles to compute.". *)
Definition onCalculate_rows
    (yieldPerCycle cycleTimeSeconds durationMinutes reprocessYieldPct taxPct : num)
    (targets : list (Target * TypeData))
    (nameOf : option num -> string) (priceMap : PriceMap)
  : Completion (option (list CandidateRow)) :=
  if negb (yieldPerCycle >? lit 0) then Throw "Yield per cycle must be > 0."
  else if negb (cycleTimeSeconds >? lit 0) then Throw "Cycle time must be > 0."
  else if negb (durationMinutes >=? lit 0) then Throw "Duration must be >= 0."
  else
    let c := calcCycles durationMinutes cycleTimeSeconds in
    let totalM3 := cycles c * yieldPerCycle in
    if cycles c <=? lit 0 then Normal None
    else
      let mined :=
        map (fun t => {| m_name := t_name (fst t); m_typeId := t_typeId (fst t);
                         m_typeData := snd t;
                         m_unitsMined := unitsOf totalM3 (snd t) |}) targets in
      let yieldFrac := yieldFracOf reprocessYieldPct in
      Normal (Some (map (candidateRow nameOf priceMap yieldFrac taxPct (usedSeconds c))
                        mined)).

End App.

Arguments CycleResult num : clear implicits.
Arguments TypeMaterial num : clear implicits.
Arguments TypeData num : clear implicits.
Arguments PriceQuote num : clear implicits.
Arguments PriceMap num : clear implicits.
Arguments ReprocessOutput num : clear implicits.
Arguments Mined num : clear implicits.
Arguments ReprocessRow num : clear implicits.
Arguments CandidateRow num : clear implicits.
Arguments CompareState num : clear implicits.
Arguments AdvancedForm num : clear implicits.
Arguments Target num : clear implicits.
Arguments Normal {A} a.
Arguments Throw {A} message.


(* ====================================================================== *)
(** * The specification's arithmetic *)
(* ====================================================================== *)

(** The yield formula in the words of the specification (section 4.4), over
    the rationals, with the implant bonus floored at 0 as the handler has
    it. *)
Module Spec.

Local Open Scope Q_scope.

(** A skill level clamped to an integer of [0, 5]. *)
Definition skill (v : Q) : Z := Z.max 0 (Z.min 5 (Qfloor v)).

(** Steps 1 and 2: the security modifier applies only with a rig bonus. *)
Definition baseYield (basePct rigBonusPoints securityModPct : Q) : Q :=
  let b := (basePct + rigBonusPoints) / 100 in
  if Qlt_le_dec 0 rigBonusPoints then
    if Qlt_le_dec 0 securityModPct then b * (1 + securityModPct / 100) else b
  else b.

Definition nonNegative (x : Q) : Q := if Qlt_le_dec x 0 then 0 else x.

(** Step 4: clamp to [0, 1]. *)
Definition clamp01 (x : Q) : Q :=
  if Qlt_le_dec x 0 then 0 else if Qlt_le_dec 1 x then 1 else x.

Definition effectiveYield (f : AdvancedForm Q) : Q :=
  clamp01 (baseYield (facilityBasePct f) (rigBonusPts f) (securityModPct f)
           * (1 + 0.03 * inject_Z (skill (skillR f)))
           * (1 + 0.02 * inject_Z (skill (skillRE f)))
           * (1 + 0.02 * inject_Z (skill (skillOP f)))
           * (1 + nonNegative (implantPct f) / 100)).

End Spec.

(* ====================================================================== *)
(** * Vocabulary of the statements *)
(* ====================================================================== *)

(** The comparator is positive on the pair: [sort] moves [a] behind [b]. *)
Definition after {num : Type} {N : JSNumber num} {A : Type}
    (compareFn : A -> A -> num) (a b : A) : bool :=
  lt (lit 0) (compareFn a b).

Definition notAfter {num : Type} {N : JSNumber num} {A : Type}
    (compareFn : A -> A -> num) (a b : A) : Prop :=
  after compareFn a b = false.

(** [x] may stand before [y] in direction [d]. *)
Definition inOrder (d : SortDir) (x y : Q) : Prop :=
  match d with
  | asc => (x <= y)%Q
  | desc => (y <= x)%Q
  end.

(** [r] has the value [v] in the sorted field. *)
Definition tied {A : Type} (value : A -> Q) (v : Q) (r : A) : bool :=
  Qeq_bool (value r) v.

(** The same two notions on doubles, with the comparisons of IEEE 754. *)
Definition inOrder_binary64 (d : SortDir) (x y : float) : Prop :=
  match d with
  | asc => (x <=? y)%float = true
  | desc => (y <=? x)%float = true
  end.

Definition tied_binary64 {A : Type} (value : A -> float) (v : float) (r : A) : bool :=
  (value r =? v)%float.

(** [outputQty * sellPrice] of a row whose price is known. *)
Definition knownValue {num : Type} {N : JSNumber num} (r : ReprocessRow num)
  : option num :=
  match r_sellMin r with
  | Some p => Some (mul p (r_qty r))
  | None => None
  end.

(** The lookup of [nm] gives an id that [if (!id)] accepts. *)
Definition resolvable {num : Type} {N : JSNumber num}
    (resolveTypeIdFromName : string -> Completion (option num)) (nm : string) : Prop :=
  exists i, resolveTypeIdFromName nm = Normal (Some i) /\ truthy i = true.

(** Quantity first (larger first), then identity (smaller first). *)
Definition qtyDescIdAsc (a b : ReprocessOutput Q) : Prop :=
  (o_qty b < o_qty a)%Q \/ ((o_qty a == o_qty b)%Q /\ (o_typeId a <= o_typeId b)%Q).

(* ====================================================================== *)
(** * Concrete inputs *)
(* ====================================================================== *)

Module Scenario.

Local Open Scope string_scope.
Local Open Scope Q_scope.

Section Inputs.
Context {num : Type} {N : JSNumber num}.

(** The advanced form with these entries and no tax. *)
Definition form (basePct rigPts secPct R RE OP implant : Q) : AdvancedForm num :=
  {| facilityBasePct := lit basePct; rigBonusPts := lit rigPts;
     securityModPct := lit secPct; skillR := lit R; skillRE := lit RE;
     skillOP := lit OP; implantPct := lit implant; formTaxPct := lit 0 |}.

(** End-to-end scenario 4 of the specification. *)
Definition scenario4 : AdvancedForm num := form 52 0 10 0 0 0 0.
(** End-to-end scenario 5 of the specification. *)
Definition scenario5 : AdvancedForm num := form 50 2 10 5 5 5 5.
(** A negative implant bonus typed into the form. *)
Definition negativeImplant : AdvancedForm num := form 50 0 0 0 0 0 (-50).

(** The entry [{ id: { material_type_id: id, quantity: qty } }]. *)
Definition material (id qty : Q) : num * TypeMaterial num :=
  (lit id, {| material_type_id := Some (lit id); quantity := Some (lit qty) |}).

(** Type 1230 with the given unit volume, portion size 100 and three
    materials. *)
Definition ore (unitVolume : Q) (qty34 qty35 qty36 : Q) : TypeData num :=
  {| td_typeId := lit 1230; td_name := "Veldspar"; volume := Some (lit unitVolume);
     portionSize := lit 100;
     typeMaterials := [material 34 qty34; material 35 qty35; material 36 qty36] |}.

(** The target [{ name: "Veldspar", typeId: 1230 }]. *)
Definition target : Target num := {| t_name := "Veldspar"; t_typeId := lit 1230 |}.

(** A price record with the sell price [p]. *)
Definition priced (p : Q) : option (PriceQuote num) :=
  Some {| sellMin := Some (lit p); buyMax := None |}.

(** Sell prices: 10 for the ore, 1 for type 34, 100 for type 35, none
    for type 36. *)
Definition prices (isId : num -> Q -> bool) : PriceMap num :=
  fun id =>
    if isId id 1230 then priced 10
    else if isId id 34 then priced 1
    else if isId id 35 then priced 100
    else None.

(** Every output is shown under the same name. *)
Definition nameOf (id : option num) : string := "Type".

End Inputs.

(** A facility base of 0 with an implant bonus of [Infinity]. *)
Definition infiniteImplant : AdvancedForm float :=
  {| facilityBasePct := 0%float; rigBonusPts := 0%float; securityModPct := 0%float;
     skillR := 0%float; skillRE := 0%float; skillOP := 0%float;
     implantPct := infinity; formTaxPct := 0%float |}.

(** [id] is the type ID written [q]. *)
Definition isId (id : float) (q : Q) : bool := (id =? Binary64.of_Q q)%float.

(** Thirteen names, the first twelve known to the resolver. *)
Definition thirteen : string := "a,b,c,d,e,f,g,h,i,j,k,l,Unknown".

(** A resolver that knows every name but "Unknown", as type 34. *)
Definition resolver (nm : string) : Completion (option float) :=
  if String.eqb nm "Unknown" then Normal None else Normal (Some 34%float).

(** The page before the handler runs. *)
Definition blank : Page := {| statusLog := []; lookups := [] |}.

(** [onCalculate] for the single target [target] with type data [td], the
    prices above and no tax. *)
Definition rowsOf
    (yieldPerCycle cycleTimeSeconds durationMinutes reprocessYieldPct : float)
    (td : TypeData float) : Completion (option (list (CandidateRow float))) :=
  onCalculate_rows yieldPerCycle cycleTimeSeconds durationMinutes reprocessYieldPct
    0%float [(target, td)] nameOf (prices isId).

(** What [onCalculate] builds for two targets when the yield field does
    not parse ([NaN]). *)
Definition nanYield : Completion (option (list (CandidateRow float))) :=
  onCalculate_rows 1000%float 60%float 1%float nan 0%float
    [(target, ore 10 100 5 7); (target, ore 10 200 5 7)] nameOf (prices isId).

Definition nanYieldRows : list (CandidateRow float) :=
  match nanYield with
  | Normal (Some rows) => rows
  | _ => []
  end.

(** The identity and quantity of each rendered reprocessing row, in
    display order. *)
Definition quantities (row : CandidateRow float) : list (option float * float) :=
  map (fun r => (r_typeId r, r_qty r)) (reprocessRows row).

End Scenario.

(* ====================================================================== *)
(** * The rest of app.js: text, display values, prices and caches *)
(* ====================================================================== *)

(** ** escapeHtml *)

(** [s.replaceAll(c, r)] for a pattern [c] of one character. *)
Fixpoint replaceAll (c : ascii) (r : string) (s : string) : string :=
  match s with
  | EmptyString => EmptyString
  | String a s' =>
      if Ascii.eqb a c then (r ++ replaceAll c r s')%string
      else String a (replaceAll c r s')
  end.

(** [function escapeHtml(s)], on a string: the five replacements in the
    order of the source, the ampersand first. *)
Definition escapeHtml (s : string) : string :=
  replaceAll "'" "&#039;"
    (replaceAll "034" "&quot;"
       (replaceAll ">" "&gt;"
          (replaceAll "<" "&lt;"
             (replaceAll "&" "&amp;" s)))).

(** The text that stands for one character in escaped text. *)
Definition entity (a : ascii) : string :=
  if Ascii.eqb a "&" then "&amp;"
  else if Ascii.eqb a "<" then "&lt;"
  else if Ascii.eqb a ">" then "&gt;"
  else if Ascii.eqb a "034" then "&quot;"
  else if Ascii.eqb a "'" then "&#039;"
  else String a EmptyString.

(** A text escaped one character at a time. *)
Fixpoint entities (s : string) : string :=
  match s with
  | EmptyString => EmptyString
  | String a s' => (entity a ++ entities s')%string
  end.

(** The characters that HTML reads as markup. *)
Definition special (a : ascii) : bool :=
  Ascii.eqb a "&" || Ascii.eqb a "<" || Ascii.eqb a ">"
  || Ascii.eqb a "034" || Ascii.eqb a "'".

(** Reading escaped text back, as a browser does: an entity stands for its
    character and any other character for itself; a bare special character
    is refused. *)
Fixpoint unescape (s : string) : option string :=
  match s with
  | EmptyString => Some EmptyString
  | String "&" (String "a" (String "m" (String "p" (String ";" t)))) =>
      option_map (String "&") (unescape t)
  | String "&" (String "l" (String "t" (String ";" t))) =>
      option_map (String "<") (unescape t)
  | String "&" (String "g" (String "t" (String ";" t))) =>
      option_map (String ">") (unescape t)
  | String "&" (String "q" (String "u" (String "o" (String "t" (String ";" t))))) =>
      option_map (String "034") (unescape t)
  | String "&" (String "#" (String "0" (String "3" (String "9" (String ";" t))))) =>
      option_map (String "'") (unescape t)
  | String a t =>
      if special a then None else option_map (String a) (unescape t)
  end.

(** ** Keys of Map and Set *)

(** [SameValueZero], the equality of [Map] and [Set] keys: numbers that
    compare equal (so [+0] and [-0]), and NaN with NaN. *)
Class JSMapKey (num : Type) : Type := sameValueZero : num -> num -> bool.

#[global] Instance Binary64_key : JSMapKey float :=
  fun x y => (x =? y)%float || (is_nan x && is_nan y).

#[global] Instance Exact_key : JSMapKey Q := Qeq_bool.

Section Maps.

Context {num : Type} {K : JSMapKey num} {V : Type}.

(** A [Map] with number keys, its entries in insertion order. *)
Fixpoint Map_get (m : list (num * V)) (k : num) : option V :=
  match m with
  | [] => None
  | (k', v) :: m' => if sameValueZero k' k then Some v else Map_get m' k
  end.

(** [m.set(k, v)]: an entry with the key keeps its place. *)
Fixpoint Map_set (m : list (num * V)) (k : num) (v : V) : list (num * V) :=
  match m with
  | [] => [(k, v)]
  | (k', v') :: m' =>
      if sameValueZero k' k then (k', v) :: m'
      else (k', v') :: Map_set m' k v
  end.

End Maps.

Section Sets.

Context {num : Type} {K : JSMapKey num}.

(** [s.add(x)] *)
Definition Set_add (s : list num) (x : num) : list num :=
  if existsb (fun y => sameValueZero y x) s then s else s ++ [x].

(** [Array.from(new Set(l))]: the first occurrence of each value, in order. *)
Definition Set_from (l : list num) : list num := fold_left Set_add l [].

End Sets.

(** ** Display values *)

Section Display.

Context {num : Type} {N : JSNumber num}.
Local Open Scope string_scope.
Local Open Scope js_scope.

(** [fmtNum(n, digits)] and [String(n)], which go through [Intl] and the
    number-to-string conversion. *)
Variable fmtNum : num -> num -> string.
Variable numberToString : num -> string.

(** The whole minutes [m] and the rest [rem] that [fmtSeconds] displays. *)
Definition secondsParts (seconds : num) : num * num :=
  let s := Math_max (lit 0) seconds in
  let m := Math_floor (s / lit 60) in
  let rem := s - m * lit 60 in
  (m, rem).

(** [function fmtSeconds(seconds)] *)
Definition fmtSeconds (seconds : num) : string :=
  if negb (isFinite seconds) then "—"
  else
    let '(m, rem) := secondsParts seconds in
    if m <=? lit 0 then fmtNum rem (lit 1) ++ "s"
    else numberToString m ++ "m " ++ fmtNum rem (lit 1) ++ "s".

(** The numbers that [renderSummary] formats. *)
Record Summary : Type := {
  s_perHourFactor : num;
  s_minedM3 : num;
  s_hrM3 : num;
  s_hrRaw : num;
  s_hrRe : num;
  s_unitsPerHour : num
}.

(** [function renderSummary({ input, cyclesInfo, typeData, units, rawValue,
    reprocessValue })], up to the formatting. *)
Definition renderSummary (cyclesInfo : CycleResult num) (td : TypeData num)
    (units rawValue reprocessValue : num) : Summary :=
  let used := usedSeconds cyclesInfo in
  let perHourFactor := if used >? lit 0 then lit 3600 / used else lit 0 in
  let minedM3 := units * default (lit 0) (volume td) in
  let hrM3 := if used >? lit 0 then (minedM3 / used) * lit 3600 else lit 0 in
  let hrRaw := if used >? lit 0 then rawValue * perHourFactor else lit 0 in
  let hrRe := if used >? lit 0 then reprocessValue * perHourFactor else lit 0 in
  {| s_perHourFactor := perHourFactor; s_minedM3 := minedM3; s_hrM3 := hrM3;
     s_hrRaw := hrRaw; s_hrRe := hrRe;
     s_unitsPerHour := units * perHourFactor |}.

(** The call of [renderSummary] in [onCalculate], for the row [best]. *)
Definition onCalculate_summary (cyclesInfo : CycleResult num) (best : CandidateRow num)
  : Summary :=
  renderSummary cyclesInfo (typeData best) (unitsMined best)
    (default (lit 0) (rawTotal best)) (reprocessNet best).

(** [function renderRawRow({ typeData, units, price })]: the price and the
    total of the row, [None] where it shows a dash. *)
Definition renderRawRow (units : num) (price : option num) : option num * option num :=
  match price with
  | Some p => if truthy p then (Some p, Some (units * p)) else (None, None)
  | None => (None, None)
  end.

(** [function renderRawSelected(row)] *)
Definition renderRawSelected (row : CandidateRow num) : option num * option num :=
  renderRawRow (unitsMined row) (oreSell row).

(** [Number.isFinite(x)] where [x] may be [null]. *)
Definition isFiniteOrNull (x : option num) : bool :=
  match x with
  | Some v => isFinite v
  | None => false
  end.

(** What [renderCompare] writes: the difference, whether it is marked
    positive, the difference per hour, and whether the tax line is shown. *)
Record CompareBox : Type := {
  c_diff : num;
  c_positive : bool;
  c_perHour : num;
  c_taxLine : bool
}.

(** [function renderCompare({ rawTotal, reprocessTotal, usedSeconds,
    taxPct })]: [None] where the box is left empty. *)
Definition renderCompare (rawTotal reprocessTotal : option num)
    (usedSeconds taxPct : num) : option CompareBox :=
  if negb (isFiniteOrNull rawTotal) && negb (isFiniteOrNull reprocessTotal) then None
  else
    let diff := default (lit 0) reprocessTotal - default (lit 0) rawTotal in
    Some {| c_diff := diff;
            c_positive := diff >=? lit 0;
            c_perHour := if usedSeconds >? lit 0
                         then diff * (lit 3600 / usedSeconds) else lit 0;
            c_taxLine := taxPct >? lit 0 |}.

End Display.

Arguments Summary num : clear implicits.
Arguments CompareBox num : clear implicits.

(** ** Type data and prices *)

Section DataSources.

Context {num : Type} {N : JSNumber num} {K : JSMapKey num}.
Local Open Scope string_scope.
Local Open Scope js_scope.

(** The fields that [getTypeData] reads in the answer of EVE Ref: a field
    that is absent is [None]. *)
Record TypeJson : Type := {
  j_type_id : num;
  j_name_en : option string;
  j_volume : option num;
  j_portion_size : option num;
  j_type_materials : option (list (num * TypeMaterial num))
}.

(** [async function getTypeData(typeId)], for a number [typeId];
    [fetchJson] is the cached request for the type. *)
Definition getTypeData (fetchJson : num -> Completion TypeJson)
    (numberToString : num -> string) (typeId : num) : Completion (TypeData num) :=
  let id := typeId in
  if negb (isFinite id) || (id <=? lit 0) then Throw "Invalid type ID."
  else
    match fetchJson id with
    | Throw message => Throw message
    | Normal data =>
        Normal {| td_typeId := j_type_id data;
                  td_name := default ("Type " ++ numberToString id) (j_name_en data);
                  volume := j_volume data;
                  portionSize := default (lit 1) (j_portion_size data);
                  typeMaterials := default [] (j_type_materials data) |}
    end.

(** [Array.from(new Set(typeIds.map((x) => Number(x)).filter((x) =>
    Number.isFinite(x) && x > 0)))]; an id that is [undefined] becomes NaN
    and is filtered out. *)
Definition validTypeIds (typeIds : list (option num)) : list num :=
  Set_from (List.filter (fun x => isFinite x && (x >? lit 0)) (omap id typeIds)).

(** A record of the Fuzzwork aggregates: [rec.sell.min] and [rec.buy.max]. *)
Record Aggregate : Type := {
  sell_min : option num;
  buy_max : option num
}.

(** [v ?? 0] kept when it is positive: [x > 0 ? x : null]. *)
Definition positiveOrNull (v : option num) : option num :=
  let x := default (lit 0) v in
  if x >? lit 0 then Some x else None.

(** [async function getPricesFuzzwork(typeIds)]; [fetchJson] is the cached
    request for the aggregates of the ids, read through [data?.[String(id)]]. *)
Definition getPricesFuzzwork
    (fetchJson : list num -> Completion (num -> option Aggregate))
    (typeIds : list (option num)) : Completion (list (num * PriceQuote num)) :=
  let ids := validTypeIds typeIds in
  if (length ids =? 0)%nat then Normal []
  else
    match fetchJson ids with
    | Throw message => Throw message
    | Normal data =>
        Normal (fold_left
                  (fun out id =>
                     let rec := data id in
                     Map_set out id
                       {| sellMin := positiveOrNull (rec ≫= sell_min);
                          buyMax := positiveOrNull (rec ≫= buy_max) |})
                  ids [])
    end.

End DataSources.

Arguments TypeJson num : clear implicits.
Arguments Aggregate num : clear implicits.

(** ** The request cache *)

Section FetchJson.

Context {num : Type} {N : JSNumber num}.
Local Open Scope string_scope.
Local Open Scope js_scope.

(** The parsed JSON values. *)
Variable Json : Type.

(** A cache record [{ time, data }]. *)
Record CacheRecord : Type := {
  rec_time : num;
  rec_data : Json
}.

(** What [fetch] resolves to: [res.ok], [res.status] and the outcome of
    [res.json()]. *)
Record Response : Type := {
  res_ok : bool;
  res_status : num;
  res_json : Completion Json
}.

(** The state that [fetchJson] reads and writes: [memCache], [localStorage]
    and, oldest first, the URLs requested from the network. *)
Record Browser : Type := {
  memCache : gmap string CacheRecord;
  localStorage : gmap string string;
  requests : list string
}.

(** The network, [JSON.parse] on a stored text ([Some] when the text parses
    to an object with a number under [time]), [JSON.stringify], and whether
    [localStorage] lets a key be read or a value be stored (it throws
    otherwise). *)
Variable fetch : string -> Completion Response.
Variable JSON_parse : string -> option CacheRecord.
Variable JSON_stringify : CacheRecord -> string.
Variable getItem_ok : string -> bool.
Variable setItem_ok : string -> string -> bool.
Variable numberToString : num -> string.

(** [function cacheKey(url)] *)
Definition cacheKey (url : string) : string := "eveharvestcache:" ++ url.

(** [now - rec.time < ttlMs] *)
Definition fresh (ttlMs now : num) (rec : CacheRecord) : bool :=
  now - rec_time rec <? ttlMs.

(** [mem && (ttlMs <= 0 || now - mem.time < ttlMs)] *)
Definition memHit (url : string) (ttlMs now : num) (b : Browser) : option CacheRecord :=
  match memCache b !! url with
  | Some mem => if (ttlMs <=? lit 0) || fresh ttlMs now mem then Some mem else None
  | None => None
  end.

(** The first [try] block: the record it returns from, if it does. *)
Definition storageHit (url : string) (ttlMs now : num) (b : Browser) : option CacheRecord :=
  if getItem_ok (cacheKey url) then
    match localStorage b !! cacheKey url with
    | Some raw =>
        if nonEmpty raw then
          match JSON_parse raw with
          | Some parsed => if fresh ttlMs now parsed then Some parsed else None
          | None => None
          end
        else None
    | None => None
    end
  else None.

(** The request, and the writes that follow a good answer. *)
Definition fetchFresh (url : string) (ttlMs now : num) (b : Browser)
  : Completion Json * Browser :=
  let b1 := {| memCache := memCache b; localStorage := localStorage b;
               requests := requests b ++ [url] |} in
  match fetch url with
  | Throw message => (Throw message, b1)
  | Normal res =>
      if negb (res_ok res)
      then (Throw ("HTTP " ++ numberToString (res_status res) ++ " for " ++ url), b1)
      else
        match res_json res with
        | Throw message => (Throw message, b1)
        | Normal data =>
            let record := {| rec_time := now; rec_data := data |} in
            let stored :=
              if (ttlMs >? lit 0) && setItem_ok (cacheKey url) (JSON_stringify record)
              then <[cacheKey url := JSON_stringify record]> (localStorage b)
              else localStorage b in
            (Normal data,
             {| memCache := <[url := record]> (memCache b);
                localStorage := stored;
                requests := requests b ++ [url] |})
        end
  end.

(** [async function fetchJson(url, { ttlMs })], called at the time [now];
    one call runs to its end before the next one starts. *)
Definition fetchJson (url : string) (ttlMs now : num) (b : Browser)
  : Completion Json * Browser :=
  match memHit url ttlMs now b with
  | Some mem => (Normal (rec_data mem), b)
  | None =>
      match (if ttlMs >? lit 0 then storageHit url ttlMs now b else None) with
      | Some parsed =>
          (Normal (rec_data parsed),
           {| memCache := <[url := parsed]> (memCache b);
              localStorage := localStorage b;
              requests := requests b |})
      | None => fetchFresh url ttlMs now b
      end
  end.

End FetchJson.

Arguments CacheRecord num Json : clear implicits.
Arguments Response num Json : clear implicits.
Arguments Browser num Json : clear implicits.
Arguments rec_time {num Json} c.
Arguments rec_data {num Json} c.
Arguments res_ok {num Json} r.
Arguments res_status {num Json} r.
Arguments res_json {num Json} r.
Arguments memCache {num Json} b.
Arguments localStorage {num Json} b.
Arguments requests {num Json} b.
Arguments fresh {num N Json} ttlMs now rec.
Arguments memHit {num N Json} url ttlMs now b.
Arguments storageHit {num N Json} JSON_parse getItem_ok url ttlMs now b.
Arguments fetchFresh {num N Json} fetch JSON_stringify setItem_ok numberToString
  url ttlMs now b.
Arguments fetchJson {num N Json} fetch JSON_parse JSON_stringify getItem_ok setItem_ok
  numberToString url ttlMs now b.

(** ** Prices from the order book *)

Module ESI.

(** [JITA_STATION_ID] *)
Definition JITA_STATION_ID : float := 60003760%float.

(** A sell order: [o.location_id], [o.volume_remain] and [Number(o.price)]. *)
Record Order : Type := {
  location_id : option float;
  volume_remain : option float;
  price : float
}.

(** A page of orders: [res.ok], [res.status], the header [x-pages] as a
    number when it is there, and the outcome of [res.json()], with the
    orders when the body is an array. *)
Record OrdersPage : Type := {
  page_ok : bool;
  page_status : float;
  x_pages : option float;
  page_json : Completion (option (list Order))
}.

(** The body of [for (const o of orders)]: the best price after [o]. *)
Definition scanOrder (best : float) (o : Order) : float :=
  match location_id o with
  | Some loc =>
      if (loc =? JITA_STATION_ID)%float
         && (0 <? default 0%float (volume_remain o))%float
      then
        if is_finite (price o) && (price o <? best)%float then price o else best
      else best
  | None => best
  end.

(** [pages] after the header of a page was read. *)
Definition pagesAfter (pages : float) (r : OrdersPage) : float :=
  match x_pages r with
  | Some p => if is_finite p && (1 <=? p)%float then p else pages
  | None => pages
  end.

(** The orders of a page whose body was read. *)
Definition ordersOf (r : OrdersPage) : list Order :=
  match page_json r with
  | Normal (Some orders) => orders
  | _ => []
  end.

Section Loop.

(** The request for page [n] of the orders of the type. *)
Variable fetchPage : nat -> Completion OrdersPage.
(** The message of the error thrown for a status that is not ok. *)
Variable failed : float -> string.

(** [for (let page = 1; page <= pages && page <= maxPages; page++)], with
    [left] the pages that [maxPages] still allows; the result is [best] and
    the pages that were read, oldest first. *)
Fixpoint readPages (left : nat) (page : nat) (pages best : float) (read : list OrdersPage)
  : Completion (float * list OrdersPage) :=
  match left with
  | O => Normal (best, read)
  | S left' =>
      if (Binary64.of_Z (Z.of_nat page) <=? pages)%float then
        match fetchPage page with
        | Throw message => Throw message
        | Normal r =>
            if negb (page_ok r) then Throw (failed (page_status r))
            else
              match page_json r with
              | Throw message => Throw message
              | Normal orders =>
                  readPages left' (S page) (pagesAfter pages r)
                    (fold_left scanOrder (default [] orders) best) (read ++ [r])
              end
        end
      else Normal (best, read)
  end.

(** [async function getBestJitaSell_ESI(typeId, { maxPages })] for a whole
    number [maxPages]: the price ([None] for [null]) and the pages read. *)
Definition getBestJitaSell_ESI (typeId : float) (maxPages : nat)
  : Completion (option float * list OrdersPage) :=
  if negb (is_finite typeId) || (typeId <=? 0)%float then Normal (None, [])
  else
    match readPages maxPages 1 1%float infinity [] with
    | Throw message => Throw message
    | Normal (best, read) =>
        Normal (if negb (is_finite best) then None else Some best, read)
    end.

End Loop.

(** [async function getPricesESI(typeIds)]: one entry per id, in order;
    [fetchPage id] is the request for a page of the orders of [id]. *)
Definition getPricesESI
    (fetchPage : float -> nat -> Completion OrdersPage)
    (failed : float -> float -> string)
    (typeIds : list (option float)) : Completion (list (float * PriceQuote float)) :=
  fold_left
    (fun (out : Completion (list (float * PriceQuote float))) (id : float) =>
       match out with
       | Throw message => Throw message
       | Normal out =>
           match getBestJitaSell_ESI (fetchPage id) (failed id) id 25 with
           | Throw message => Throw message
           | Normal (price, _) =>
               Normal (Map_set out id {| sellMin := price; buyMax := None |})
           end
       end)
    (validTypeIds typeIds) (Normal []).

(** The orders that count: at Jita, with volume left and a finite price. *)
Definition counts (o : Order) : bool :=
  match location_id o with
  | Some loc =>
      (loc =? JITA_STATION_ID)%float
      && (0 <? default 0%float (volume_remain o))%float
      && is_finite (price o)
  | None => false
  end.

(** The prices of the orders that count on the pages [read]. *)
Definition countingPrices (read : list OrdersPage) : list float :=
  map price (List.filter counts (read ≫= ordersOf)).

(** [p] is the lowest of the prices [seen]: [None] when there is none. *)
Definition lowest (p : option float) (seen : list float) : Prop :=
  match p with
  | None => seen = []
  | Some p => is_finite p = true /\ In p seen
              /\ Forall (fun q => (p <=? q)%float = true) seen
  end.

End ESI.

(** ** Vocabulary of the further statements *)

(** A price that is [null] or positive. *)
Definition nullOrPositive {num : Type} {N : JSNumber num} (x : option num) : Prop :=
  forall p, x = Some p -> lt (lit 0) p = true.

(** An id that [getPricesFuzzwork] keeps: a finite number above 0. *)
Definition validTypeId {num : Type} {N : JSNumber num} (x : num) : Prop :=
  isFinite x = true /\ lt (lit 0) x = true.

(** [portion = Math.max(1, Number(td.portionSize || 1))] *)
Definition portionOf {num : Type} {N : JSNumber num} (td : TypeData num) : num :=
  Math_max (lit 1) (if truthy (portionSize td) then portionSize td else lit 1).

(** 100 units of the scenario ore, in exact arithmetic. *)
Definition hundredUnits : Mined Q :=
  {| m_name := "Veldspar"; m_typeId := 1230%Q;
     m_typeData := Scenario.ore 10 100 5 7; m_unitsMined := 100%Q |}.

(** An answer of Fuzzwork: sell prices 10 for type 1230, 1 for type 34,
    100 for type 35 and 0 for type 36; nothing else. *)
Definition fuzzworkAnswer (ids : list Q) : Completion (Q -> option (Aggregate Q)) :=
  Normal (fun id =>
            if Qeq_bool id 1230 then Some {| sell_min := Some 10%Q; buy_max := None |}
            else if Qeq_bool id 34 then Some {| sell_min := Some 1%Q; buy_max := None |}
            else if Qeq_bool id 35 then Some {| sell_min := Some 100%Q; buy_max := None |}
            else if Qeq_bool id 36 then Some {| sell_min := Some 0%Q; buy_max := None |}
            else None).

(** The ids of the scenario ore and its materials, with an id that is
    missing, one that is repeated and one that is negative. *)
Definition scenarioIds : list (option Q) :=
  [Some 1230%Q; Some 34%Q; None; Some 35%Q; Some 36%Q; Some 34%Q; Some (-1)%Q].

(** The advanced form of scenario 4 with [tax] typed as the tax. *)
Definition taxedForm (tax : Q) : AdvancedForm Q :=
  {| facilityBasePct := 52%Q; rigBonusPts := 0%Q; securityModPct := 10%Q;
     skillR := 0%Q; skillRE := 0%Q; skillOP := 0%Q; implantPct := 0%Q;
     formTaxPct := tax |}.

(** The state in which [renderComparison] starts: best reprocessed ISK per
    hour first. *)
Definition defaultCompareState {num : Type} (selected : option num) : CompareState num :=
  {| key := key_reprocessPerHour; dir := desc; selectedTypeId := selected |}.

(** The state after the direction was toggled. *)
Definition toggled {num : Type} (state : CompareState num) : CompareState num :=
  clickHeader (key state) state.

(** Two rows of the example, for 60 and for 120 seconds used. *)
Definition twoRows : list (CandidateRow Q) :=
  [candidateRow Scenario.nameOf (Scenario.prices (fun id q => Qeq_bool id q)) 1%Q 0%Q 120%Q
     hundredUnits;
   candidateRow Scenario.nameOf (Scenario.prices (fun id q => Qeq_bool id q)) 1%Q 0%Q 60%Q
     hundredUnits].

(** An answer of EVE Ref for the scenario ore. *)
Definition oreJson : TypeJson Q :=
  {| j_type_id := 1230%Q; j_name_en := Some "Veldspar"%string; j_volume := Some 10%Q;
     j_portion_size := None; j_type_materials := None |}.

(** A browser with empty caches, and a network that answers every request
    with the JSON value 7. *)
Definition emptyBrowser : Browser float nat :=
  {| memCache := ∅; localStorage := ∅; requests := [] |}.

Definition sevenAnswer (url : string) : Completion (Response float nat) :=
  Normal {| res_ok := true; res_status := 200%float; res_json := Normal 7%nat |}.

(** A network that answers every request with HTTP 404. *)
Definition notFound (url : string) : Completion (Response float nat) :=
  Normal {| res_ok := false; res_status := 404%float; res_json := Normal 0%nat |}.

(** Two pages of orders for one type: 5.5 and 4.25 at Jita, 1 elsewhere, an
    order with no volume left, and on the second page 4.5 at Jita. *)
Definition twoPages (n : nat) : Completion ESI.OrdersPage :=
  let at_jita (v p : float) : ESI.Order :=
    {| ESI.location_id := Some ESI.JITA_STATION_ID; ESI.volume_remain := Some v;
       ESI.price := p |} in
  match n with
  | 1%nat =>
      Normal {| ESI.page_ok := true; ESI.page_status := 200%float;
                ESI.x_pages := Some 2%float;
                ESI.page_json :=
                  Normal (Some [at_jita 10 5.5; at_jita 3 4.25; at_jita 0 0.5;
                                {| ESI.location_id := Some 60000004%float;
                                   ESI.volume_remain := Some 9%float;
                                   ESI.price := 1%float |}]%float) |}
  | _ =>
      Normal {| ESI.page_ok := true; ESI.page_status := 200%float;
                ESI.x_pages := Some 2%float;
                ESI.page_json := Normal (Some [at_jita 7 4.5]%float) |}
  end.

(* ====================================================================== *)
(** * Tactics *)
(* ====================================================================== *)

(** Read the number operations of a goal at the exact instance. *)
Ltac exact_ops :=
  cbn [lit add sub mul div lt le Math_floor Math_max Math_min isFinite truthy
       Exact.number] in *.

(** Read them at the binary64 instance. *)
Ltac float_ops :=
  cbn [lit add sub mul div lt le Math_floor Math_max Math_min isFinite truthy
       Binary64.number] in *.

(** Case analysis on the comparisons of a goal over the rationals. *)
Ltac exact_cases :=
  repeat match goal with
    | |- context [Qle_bool ?x ?y] =>
        let E := fresh "E" in
        destruct (Qle_bool x y) eqn:E;
        [apply Qle_bool_iff in E
        |apply not_true_iff_false in E; rewrite Qle_bool_iff in E;
         apply Qnot_le_lt in E]
    | |- context [Qlt_le_dec ?x ?y] => destruct (Qlt_le_dec x y)
    end;
  cbn [negb andb].

(** Close a goal [(a ?= b) = c] on integers by linear arithmetic. *)
Ltac compare_lia :=
  match goal with
  | |- Z.compare _ _ = Eq => apply Z.compare_eq_iff
  | |- Z.compare _ _ = Lt => apply Z.compare_lt_iff
  | |- Z.compare _ _ = Gt => apply Z.compare_gt_iff
  end; lia.

(* ====================================================================== *)
(** * Properties *)
(* ====================================================================== *)

(** ** The two arithmetics *)

Lemma Qle_bool_false (x y : Q) : Qle_bool x y = false <-> (y < x)%Q.
Proof.
  split; intros Hxy.
  - apply Qnot_le_lt. intros Hle. apply Qle_bool_iff in Hle. congruence.
  - destruct (Qle_bool x y) eqn:E; [|reflexivity].
    apply Qle_bool_iff in E. lra.
Qed.

Lemma Exact_ltb_true (x y : Q) : Exact.ltb x y = true <-> (x < y)%Q.
Proof. unfold Exact.ltb. rewrite negb_true_iff. apply Qle_bool_false. Qed.

Lemma Exact_ltb_false (x y : Q) : Exact.ltb x y = false <-> (y <= x)%Q.
Proof. unfold Exact.ltb. rewrite negb_false_iff. apply Qle_bool_iff. Qed.

Lemma Exact_max_r (x y : Q) : (x <= y)%Q -> Exact.max x y = y.
Proof. intros Hxy. unfold Exact.max. apply Qle_bool_iff in Hxy. now rewrite Hxy. Qed.

Lemma Exact_floor_le (x : Q) : (Exact.floor x <= x)%Q.
Proof. apply Qfloor_le. Qed.

Lemma Exact_floor_lt (x : Q) : (x < Exact.floor x + 1)%Q.
Proof.
  unfold Exact.floor. pose proof (Qlt_floor x) as Hlt.
  rewrite inject_Z_plus in Hlt. exact Hlt.
Qed.

Lemma Prim2SF_zero : Prim2SF 0%float = S754_zero false.
Proof. vm_compute. reflexivity. Qed.

(** [x <= 0] excludes [x > 0], for every double (NaN included). *)
Lemma Binary64_leb0_ltb0 (x : float) :
  (x <=? 0)%float = true -> (0 <? x)%float = false.
Proof.
  rewrite FloatAxioms.leb_spec, FloatAxioms.ltb_spec, Prim2SF_zero.
  destruct (Prim2SF x) as [s| s | |s m e]; cbn; try discriminate; try reflexivity.
  - destruct s; [reflexivity | discriminate].
  - destruct s; [reflexivity | discriminate].
Qed.

(** [x == 0] (either zero) excludes [x > 0]. *)
Lemma Binary64_eqb0_ltb0 (x : float) :
  (x =? 0)%float = true -> (0 <? x)%float = false.
Proof.
  rewrite FloatAxioms.eqb_spec, FloatAxioms.ltb_spec, Prim2SF_zero.
  destruct (Prim2SF x) as [s| s | |s m e]; cbn; try discriminate; try reflexivity.
  - destruct s; discriminate.
  - destruct s; discriminate.
Qed.

(** ** The order of the doubles *)

(** The comparisons of two doubles are the comparisons of their ranks, and
    the sign of a difference [x - y] is the sign of the difference of the
    ranks: rounding can turn a nonzero difference into an infinity, never
    into a zero or into a number of the other sign. *)
Section Binary64Order.

Local Open Scope Z_scope.

Lemma binary64_params : prec = 53 /\ emax = 1024 /\ emin = -1074.
Proof. repeat split. Qed.

Lemma digits2_pos_bounds (m : positive) :
  2 ^ (Z.pos (digits2_pos m) - 1) <= Z.pos m < 2 ^ Z.pos (digits2_pos m).
Proof.
  induction m as [m IH|m IH|]; cbn [digits2_pos]; [| |cbn; lia].
  all: rewrite Pos2Z.inj_succ; set (d := Z.pos (digits2_pos m)) in *;
    assert (Hd : 0 < d) by (subst d; lia);
    replace (Z.succ d - 1) with d by lia;
    rewrite Z.pow_succ_r by lia;
    assert (E : 2 ^ d = 2 * 2 ^ (d - 1))
      by (rewrite <- Z.pow_succ_r by lia; f_equal; lia);
    lia.
Qed.

Lemma bounded_inv (m : positive) (e : Z) :
  bounded prec emax m e = true ->
  emin <= e <= emax - prec /\
  Z.pos (digits2_pos m) <= prec /\
  (emin < e -> Z.pos (digits2_pos m) = prec).
Proof.
  unfold bounded, canonical_mantissa, fexp.
  destruct binary64_params as (Hprec & Hemax & Hemin).
  intros H. apply andb_true_iff in H as [H1 H2].
  apply Z.eqb_eq in H1. apply Z.leb_le in H2. lia.
Qed.

Lemma finite_rank_bounds (m : positive) (e : Z) :
  bounded prec emax m e = true ->
  0 < Z.pos m * 2 ^ (e - emin) < 2 ^ (emax - emin).
Proof.
  intros H. apply bounded_inv in H as (He & Hd & _).
  destruct binary64_params as (Hprec & Hemax & Hemin).
  pose proof (digits2_pos_bounds m) as [_ Hm].
  assert (Hp : 0 < 2 ^ (e - emin)) by (apply Z.pow_pos_nonneg; lia).
  split; [lia|].
  apply Z.lt_le_trans with (2 ^ prec * 2 ^ (e - emin)).
  - apply Z.mul_lt_mono_pos_r; [exact Hp|].
    eapply Z.lt_le_trans; [exact Hm|]. apply Z.pow_le_mono_r; lia.
  - rewrite <- Z.pow_add_r by lia.
    apply Z.pow_le_mono_r; lia.
Qed.

Lemma finite_rank_lt (m1 m2 : positive) (e1 e2 : Z) :
  bounded prec emax m1 e1 = true -> bounded prec emax m2 e2 = true ->
  e1 < e2 ->
  Z.pos m1 * 2 ^ (e1 - emin) < Z.pos m2 * 2 ^ (e2 - emin).
Proof.
  intros H1 H2 Hlt.
  destruct binary64_params as (Hprec & Hemax & Hemin).
  apply bounded_inv in H1 as (He1 & Hd1 & _).
  apply bounded_inv in H2 as (He2 & _ & Hd2).
  specialize (Hd2 ltac:(lia)).
  pose proof (digits2_pos_bounds m1) as [_ Hm1].
  pose proof (digits2_pos_bounds m2) as [Hm2 _].
  rewrite Hd2 in Hm2.
  assert (Hp : 0 < 2 ^ (e1 - emin)) by (apply Z.pow_pos_nonneg; lia).
  replace (e2 - emin) with ((e2 - e1 - 1) + 1 + (e1 - emin)) by lia.
  rewrite !Z.pow_add_r by lia.
  assert (Hk : 0 < 2 ^ (e2 - e1 - 1)) by (apply Z.pow_pos_nonneg; lia).
  assert (Hm1' : Z.pos m1 < 2 ^ prec).
  { eapply Z.lt_le_trans; [exact Hm1|]. apply Z.pow_le_mono_r; lia. }
  assert (E : 2 ^ prec = 2 * 2 ^ (prec - 1))
    by (rewrite <- Z.pow_succ_r by lia; f_equal; lia).
  change (2 ^ 1) with 2.
  set (A := 2 ^ (prec - 1)) in *. set (K := 2 ^ (e2 - e1 - 1)) in *.
  set (P := 2 ^ (e1 - emin)) in *.
  assert (S1 : Z.pos m1 * P < 2 * A * P) by nia.
  assert (S2 : 2 * A * P <= 2 * Z.pos m2 * P) by nia.
  assert (S3 : 2 * (Z.pos m2 * P) * 1 <= 2 * (Z.pos m2 * P) * K)
    by (apply Z.mul_le_mono_nonneg_l; lia).
  lia.
Qed.

Lemma SFcompare_rank_finite (sx sy : bool) (mx my : positive) (ex ey : Z) :
  bounded prec emax mx ex = true -> bounded prec emax my ey = true ->
  SFcompare (S754_finite sx mx ex) (S754_finite sy my ey)
  = Some (Binary64.SFrank (S754_finite sx mx ex) ?= Binary64.SFrank (S754_finite sy my ey)).
Proof.
  intros Vx Vy.
  pose proof (finite_rank_bounds _ _ Vx) as Bx.
  pose proof (finite_rank_bounds _ _ Vy) as By.
  cbn [SFcompare Binary64.SFrank]. f_equal. symmetry.
  destruct sx, sy; cbn [cond_Zopp]; try compare_lia.
  - rewrite Z.compare_opp.
    destruct (Z.compare_spec ex ey) as [-> | Hlt | Hgt].
    + rewrite <- Zmult_compare_compat_r by lia.
      cbn [Z.compare]. now rewrite (Pos.compare_antisym mx my).
    + apply Z.compare_gt_iff. now apply finite_rank_lt.
    + apply Z.compare_lt_iff. now apply finite_rank_lt.
  - destruct (Z.compare_spec ex ey) as [-> | Hlt | Hgt].
    + rewrite <- Zmult_compare_compat_r by lia. reflexivity.
    + apply Z.compare_lt_iff. now apply finite_rank_lt.
    + apply Z.compare_gt_iff. now apply finite_rank_lt.
Qed.

Lemma SFcompare_rank (x y : spec_float) :
  valid_binary x = true -> valid_binary y = true ->
  x <> S754_nan -> y <> S754_nan ->
  SFcompare x y = Some (Binary64.SFrank x ?= Binary64.SFrank y).
Proof.
  intros Vx Vy Nx Ny.
  assert (Hinf : 0 < 2 ^ (emax - emin)) by reflexivity.
  destruct x as [sx|sx| |sx mx ex], y as [sy|sy| |sy my ey];
    try contradiction; try (now apply SFcompare_rank_finite);
    unfold valid_binary in Vx, Vy; cbn [SpecFloat.valid_binary] in Vx, Vy;
    try (pose proof (finite_rank_bounds _ _ Vx) as Bx);
    try (pose proof (finite_rank_bounds _ _ Vy) as By);
    cbn [SFcompare Binary64.SFrank]; f_equal; symmetry;
    try destruct sx; try destruct sy; cbn [cond_Zopp]; compare_lia.
Qed.

(** ** Rounding keeps the sign *)

Lemma shr_1_digits (mrs : shr_record) :
  0 <= shr_m mrs ->
  0 <= shr_m (shr_1 mrs) /\
  Zdigits2 (shr_m (shr_1 mrs)) = Z.max 0 (Zdigits2 (shr_m mrs) - 1).
Proof.
  destruct mrs as [[|[p|p|]|p] r s]; cbn; intros H; lia.
Qed.

Lemma iter_shr_1_digits (n : positive) : forall mrs : shr_record,
  0 <= shr_m mrs ->
  0 <= shr_m (SpecFloat.iter_pos shr_1 n mrs) /\
  Zdigits2 (shr_m (SpecFloat.iter_pos shr_1 n mrs)) = Z.max 0 (Zdigits2 (shr_m mrs) - Z.pos n).
Proof.
  induction n as [n IH|n IH|]; intros mrs H; cbn [SpecFloat.iter_pos].
  - destruct (shr_1_digits mrs H) as [H1 E1].
    destruct (IH _ H1) as [H2 E2]. destruct (IH _ H2) as [H3 E3].
    split; [exact H3|]. rewrite E3, E2, E1. lia.
  - destruct (IH _ H) as [H2 E2]. destruct (IH _ H2) as [H3 E3].
    split; [exact H3|]. rewrite E3, E2. lia.
  - now apply shr_1_digits.
Qed.

Lemma Zdigits2_pos (m : Z) : 0 <= m -> 0 < Zdigits2 m -> 0 < m.
Proof. destruct m; cbn; lia. Qed.

Lemma shr_fexp_pos (m e : Z) (l : location) :
  0 < m -> emin <= e ->
  0 < shr_m (fst (shr_fexp prec emax m e l)) /\
  emin <= snd (shr_fexp prec emax m e l).
Proof.
  intros Hm He. unfold shr_fexp, shr.
  destruct binary64_params as (Hprec & Hemax & Hemin).
  assert (Hl : shr_m (shr_record_of_loc m l) = m) by (now destruct l as [|[]]).
  assert (Hd : 0 < Zdigits2 m) by (destruct m; cbn; lia).
  destruct (fexp prec emax (Zdigits2 m + e) - e) as [|n|n] eqn:En;
    cbn [fst snd]; rewrite ?Hl; try (split; lia).
  destruct (iter_shr_1_digits n (shr_record_of_loc m l)) as [H0 E]; [lia|].
  rewrite Hl in E. unfold fexp in En. split; [|lia].
  apply Zdigits2_pos; [exact H0|]. lia.
Qed.

Lemma round_nearest_even_le (m : Z) (l : location) : m <= round_nearest_even m l.
Proof. destruct l as [|[]]; cbn; try destruct (Z.even m); lia. Qed.

Lemma binary_round_aux_sign (s : bool) (m e : Z) (l : location) :
  0 < m -> emin <= e ->
  (exists m' e', binary_round_aux prec emax s m e l = S754_finite s m' e') \/
  binary_round_aux prec emax s m e l = S754_infinity s.
Proof.
  intros Hm He. unfold binary_round_aux.
  pose proof (shr_fexp_pos m e l Hm He) as [Hm1 He1].
  destruct (shr_fexp prec emax m e l) as [mrs' e']. cbn [fst snd] in *.
  pose proof (round_nearest_even_le (shr_m mrs') (loc_of_shr_record mrs')) as Hr.
  pose proof (shr_fexp_pos (round_nearest_even (shr_m mrs') (loc_of_shr_record mrs'))
                e' loc_Exact ltac:(lia) He1) as [Hm2 He2].
  destruct (shr_fexp prec emax _ e' loc_Exact) as [mrs'' e'']. cbn [fst snd] in *.
  destruct (shr_m mrs'') as [|p|p]; try lia.
  destruct (e'' <=? emax - prec); [left; eauto | now right].
Qed.

Lemma binary_round_sign (s : bool) (m : positive) (e : Z) :
  emin <= e ->
  (exists m' e', binary_round prec emax s m e = S754_finite s m' e') \/
  binary_round prec emax s m e = S754_infinity s.
Proof.
  intros He. unfold binary_round, shl_align.
  destruct binary64_params as (Hprec & Hemax & Hemin).
  destruct (fexp prec emax (Z.pos (digits2_pos m) + e) - e) eqn:En;
    apply binary_round_aux_sign; unfold fexp in *; lia.
Qed.

Lemma binary_normalize_sign (d e : Z) :
  emin <= e ->
  SFltb (S754_zero false) (binary_normalize prec emax d e false) = (0 <? d).
Proof.
  intros He. destruct d as [|p|p]; cbn [binary_normalize].
  - reflexivity.
  - destruct (binary_round_sign false p e He) as [(m' & e' & ->) | ->]; reflexivity.
  - destruct (binary_round_sign true p e He) as [(m' & e' & ->) | ->]; reflexivity.
Qed.

(** ** Subtraction *)

Lemma shl_align_rank (s : bool) (m : positive) (e ez : Z) :
  emin <= ez <= e ->
  cond_Zopp s (Z.pos (fst (shl_align m e ez))) * 2 ^ (ez - emin)
  = cond_Zopp s (Z.pos m * 2 ^ (e - emin)).
Proof.
  intros He. unfold shl_align.
  destruct (ez - e) as [|d|d] eqn:Ed; cbn [fst]; try lia.
  - replace ez with e by lia. destruct s; cbn [cond_Zopp]; lia.
  - change (Pos.iter xO m d) with (shift_pos d m).
    rewrite shift_pos_correct. change (Z.pow_pos 2 d) with (2 ^ Z.pos d).
    replace (e - emin) with (Z.pos d + (ez - emin)) by lia.
    rewrite Z.pow_add_r by lia.
    destruct s; cbn [cond_Zopp]; lia.
Qed.

Lemma SFsub_sign (x y : spec_float) :
  valid_binary x = true -> valid_binary y = true ->
  x <> S754_nan -> y <> S754_nan ->
  SFltb (S754_zero false) (SF64sub x y) = (Binary64.SFrank y <? Binary64.SFrank x).
Proof.
  intros Vx Vy Nx Ny.
  assert (Hinf : 0 < 2 ^ (emax - emin)) by reflexivity.
  unfold SF64sub.
  destruct x as [sx|sx| |sx mx ex], y as [sy|sy| |sy my ey];
    try contradiction;
    unfold valid_binary in Vx, Vy; cbn [SpecFloat.valid_binary] in Vx, Vy;
    try (pose proof (finite_rank_bounds _ _ Vx) as Bx);
    try (pose proof (finite_rank_bounds _ _ Vy) as By);
    cbn [SFsub Binary64.SFrank].
  9: { apply bounded_inv in Vx as (Hex & _), Vy as (Hey & _).
       rewrite binary_normalize_sign by lia.
       rewrite <- (shl_align_rank sx mx ex (Z.min ex ey)) by lia.
       rewrite <- (shl_align_rank sy my ey (Z.min ex ey)) by lia.
       set (zx := cond_Zopp sx _). set (zy := cond_Zopp sy _).
       assert (Hp : 0 < 2 ^ (Z.min ex ey - emin)) by (apply Z.pow_pos_nonneg; lia).
       set (P := 2 ^ _) in *.
       destruct (Z.ltb_spec 0 (zx - zy)), (Z.ltb_spec (zy * P) (zx * P));
         try reflexivity; nia. }
  all: try destruct sx; try destruct sy; cbn [cond_Zopp negb SFltb SFcompare];
    symmetry; first [apply Z.ltb_lt | apply Z.ltb_ge]; lia.
Qed.

(** ** On primitive floats *)

Lemma Prim2SF_not_nan (x : float) : is_nan x = false <-> Prim2SF x <> S754_nan.
Proof.
  unfold is_nan. rewrite FloatAxioms.eqb_spec, negb_false_iff. split.
  - intros H E. rewrite E in H. discriminate.
  - intros H. unfold SFeqb.
    rewrite SFcompare_rank by (auto using Prim2SF_valid).
    now rewrite Z.compare_refl.
Qed.

Lemma Binary64_ltb_rank (x y : float) :
  is_nan x = false -> is_nan y = false ->
  (x <? y)%float = (Binary64.rank x <? Binary64.rank y).
Proof.
  intros Hx Hy. apply Prim2SF_not_nan in Hx, Hy.
  rewrite FloatAxioms.ltb_spec. unfold SFltb, Binary64.rank.
  rewrite SFcompare_rank by (auto using Prim2SF_valid).
  unfold Z.ltb. now destruct (_ ?= _).
Qed.

Lemma Binary64_leb_rank (x y : float) :
  is_nan x = false -> is_nan y = false ->
  (x <=? y)%float = (Binary64.rank x <=? Binary64.rank y).
Proof.
  intros Hx Hy. apply Prim2SF_not_nan in Hx, Hy.
  rewrite FloatAxioms.leb_spec. unfold SFleb, Binary64.rank.
  rewrite SFcompare_rank by (auto using Prim2SF_valid).
  unfold Z.leb. now destruct (_ ?= _).
Qed.

(** Two doubles that compare equal are numbers of the same rank. *)
Lemma Binary64_eqb_rank (x y : float) :
  (x =? y)%float = true ->
  is_nan x = false /\ is_nan y = false /\ Binary64.rank x = Binary64.rank y.
Proof.
  rewrite FloatAxioms.eqb_spec. unfold SFeqb. intros H.
  assert (Hx : Prim2SF x <> S754_nan) by (intros E; rewrite E in H; discriminate).
  assert (Hy : Prim2SF y <> S754_nan)
    by (intros E; rewrite E in H; destruct (Prim2SF x); discriminate).
  rewrite SFcompare_rank in H by (auto using Prim2SF_valid).
  repeat split; try (now apply Prim2SF_not_nan).
  unfold Binary64.rank. apply Z.compare_eq_iff.
  now destruct (_ ?= _).
Qed.

(** [x - y > 0] exactly when [x > y]. *)
Lemma Binary64_sub_sign (x y : float) :
  is_nan x = false -> is_nan y = false ->
  (0 <? x - y)%float = (Binary64.rank y <? Binary64.rank x).
Proof.
  intros Hx Hy. apply Prim2SF_not_nan in Hx, Hy.
  rewrite FloatAxioms.ltb_spec, sub_spec, Prim2SF_zero.
  apply SFsub_sign; auto using Prim2SF_valid.
Qed.

End Binary64Order.

(** ** More on the doubles *)

Section Binary64Ops.

Local Open Scope Z_scope.

Lemma is_nan_Prim2SF (x : float) : is_nan x = true <-> Prim2SF x = S754_nan.
Proof.
  split; intros H.
  - destruct (Prim2SF x) eqn:E; try reflexivity;
      assert (Hn : is_nan x = false) by (apply Prim2SF_not_nan; rewrite E; discriminate);
      congruence.
  - destruct (is_nan x) eqn:E; [reflexivity|].
    apply Prim2SF_not_nan in E. contradiction.
Qed.

(** [Math.max] and [Math.min] of two numbers are the larger and the smaller
    one. *)
Lemma Binary64_max_rank (x y : float) :
  is_nan x = false -> is_nan y = false ->
  is_nan (Binary64.max x y) = false /\
  Binary64.rank (Binary64.max x y) = Z.max (Binary64.rank x) (Binary64.rank y).
Proof.
  intros Hx Hy. unfold Binary64.max. rewrite Hx, Hy. cbn [orb].
  rewrite !Binary64_ltb_rank by assumption.
  destruct (Z.ltb_spec (Binary64.rank x) (Binary64.rank y));
    [split; [assumption | lia]|].
  destruct (Z.ltb_spec (Binary64.rank y) (Binary64.rank x));
    [split; [assumption | lia]|].
  destruct (get_sign x); split; try assumption; lia.
Qed.

Lemma Binary64_min_rank (x y : float) :
  is_nan x = false -> is_nan y = false ->
  is_nan (Binary64.min x y) = false /\
  Binary64.rank (Binary64.min x y) = Z.min (Binary64.rank x) (Binary64.rank y).
Proof.
  intros Hx Hy. unfold Binary64.min. rewrite Hx, Hy. cbn [orb].
  rewrite !Binary64_ltb_rank by assumption.
  destruct (Z.ltb_spec (Binary64.rank x) (Binary64.rank y));
    [split; [assumption | lia]|].
  destruct (Z.ltb_spec (Binary64.rank y) (Binary64.rank x));
    [split; [assumption | lia]|].
  destruct (get_sign x); split; try assumption; lia.
Qed.

Lemma Binary64_max_nan (x y : float) :
  is_nan x || is_nan y = true -> is_nan (Binary64.max x y) = true.
Proof. intros H. unfold Binary64.max. now rewrite H. Qed.

Lemma Binary64_min_nan (x y : float) :
  is_nan x || is_nan y = true -> is_nan (Binary64.min x y) = true.
Proof. intros H. unfold Binary64.min. now rewrite H. Qed.

(** [Math.max(0, Math.min(1, e))] is NaN for NaN and lies in [0, 1]
    otherwise. *)
Lemma Binary64_unit_clamp (e : float) :
  let y := Binary64.max 0 (Binary64.min 1 e) in
  (is_nan e = true -> is_nan y = true) /\
  (is_nan e = false ->
   is_nan y = false /\ (0 <=? y)%float = true /\ (y <=? 1)%float = true).
Proof.
  intros y. subst y. split; intros He.
  - apply Binary64_max_nan. rewrite (Binary64_min_nan 1 e); [reflexivity|].
    now rewrite He, orb_true_r.
  - destruct (Binary64_min_rank 1 e eq_refl He) as [Hm Em].
    destruct (Binary64_max_rank 0 _ eq_refl Hm) as [HM EM].
    split; [exact HM|].
    rewrite !Binary64_leb_rank by (assumption || reflexivity).
    rewrite EM, Em.
    assert (H0 : Binary64.rank 0 = 0) by reflexivity.
    assert (H1 : 0 < Binary64.rank 1) by (vm_compute; reflexivity).
    rewrite H0. split; apply Z.leb_le; lia.
Qed.

(** Comparisons with NaN are false. *)
Lemma Binary64_ltb_nan (x y : float) :
  is_nan x || is_nan y = true -> (x <? y)%float = false.
Proof.
  rewrite FloatAxioms.ltb_spec, orb_true_iff, !is_nan_Prim2SF.
  intros [-> | ->]; [reflexivity | now destruct (Prim2SF x)].
Qed.

Lemma Binary64_leb_nan (x y : float) :
  is_nan x || is_nan y = true -> (x <=? y)%float = false.
Proof.
  rewrite FloatAxioms.leb_spec, orb_true_iff, !is_nan_Prim2SF.
  intros [-> | ->]; [reflexivity | now destruct (Prim2SF x)].
Qed.

(** Arithmetic on NaN gives NaN. *)
Lemma Binary64_mul_nan (x y : float) :
  is_nan x || is_nan y = true -> is_nan (x * y)%float = true.
Proof.
  rewrite orb_true_iff, !is_nan_Prim2SF, mul_spec.
  intros [-> | ->]; [reflexivity | now destruct (Prim2SF x)].
Qed.

Lemma Binary64_div_nan (x y : float) :
  is_nan x || is_nan y = true -> is_nan (x / y)%float = true.
Proof.
  rewrite orb_true_iff, !is_nan_Prim2SF, div_spec.
  intros [-> | ->]; [reflexivity | now destruct (Prim2SF x)].
Qed.

Lemma Binary64_floor_nan (x : float) :
  is_nan x = true -> is_nan (Binary64.floor x) = true.
Proof.
  rewrite is_nan_Prim2SF. intros H. unfold Binary64.floor. now rewrite H.
Qed.

(** Rounding a non-negative mantissa never gives NaN. *)
Lemma shr_fexp_nonneg (m e : Z) (l : location) :
  0 <= m -> 0 <= shr_m (fst (shr_fexp prec emax m e l)).
Proof.
  intros Hm. unfold shr_fexp, shr.
  assert (Hl : shr_m (shr_record_of_loc m l) = m) by (now destruct l as [|[]]).
  destruct (fexp prec emax (Zdigits2 m + e) - e) as [|n|n];
    cbn [fst]; rewrite ?Hl; try assumption.
  apply iter_shr_1_digits. now rewrite Hl.
Qed.

Lemma binary_round_aux_not_nan (s : bool) (m e : Z) (l : location) :
  0 <= m -> binary_round_aux prec emax s m e l <> S754_nan.
Proof.
  intros Hm. unfold binary_round_aux.
  pose proof (shr_fexp_nonneg m e l Hm) as H1.
  destruct (shr_fexp prec emax m e l) as [mrs' e']. cbn [fst] in H1.
  pose proof (round_nearest_even_le (shr_m mrs') (loc_of_shr_record mrs')) as Hr.
  pose proof (shr_fexp_nonneg (round_nearest_even (shr_m mrs') (loc_of_shr_record mrs'))
                e' loc_Exact ltac:(lia)) as H2.
  destruct (shr_fexp prec emax _ e' loc_Exact) as [mrs'' e'']. cbn [fst] in H2.
  destruct (shr_m mrs'') as [|p|p]; try lia; try discriminate.
  destruct (e'' <=? emax - prec); discriminate.
Qed.

Lemma SFdiv_core_binary_nonneg (m1 m2 : positive) (e1 e2 : Z) :
  0 <= fst (fst (SFdiv_core_binary prec emax (Z.pos m1) e1 (Z.pos m2) e2)).
Proof.
  unfold SFdiv_core_binary.
  set (s := _ - _ - _).
  set (m' := match s with Z.pos _ => _ | 0 => _ | Z.neg _ => _ end).
  assert (Hm' : 0 <= m').
  { subst m'. destruct s; try lia. apply Z.shiftl_nonneg. lia. }
  pose proof (Z.div_pos m' (Z.pos m2) Hm' ltac:(lia)) as Hq.
  unfold Z.div in Hq.
  destruct (Z.div_eucl m' (Z.pos m2)) as [q r]. exact Hq.
Qed.

(** [x / y] is a number when [x] is one and [y] is finite and not 0. *)
Lemma Binary64_div_not_nan (x y : float) (s : bool) (m : positive) (e : Z) :
  is_nan x = false -> Prim2SF y = S754_finite s m e ->
  is_nan (x / y)%float = false.
Proof.
  intros Hx Hy. apply Prim2SF_not_nan. apply Prim2SF_not_nan in Hx.
  rewrite div_spec, Hy. unfold SF64div.
  destruct (Prim2SF x) as [sx|sx| |sx mx ex]; try discriminate; try contradiction.
  cbn [SFdiv].
  pose proof (SFdiv_core_binary_nonneg mx m ex e) as Hq.
  destruct (SFdiv_core_binary prec emax (Z.pos mx) ex (Z.pos m) e) as [[mz ez] lz].
  now apply binary_round_aux_not_nan.
Qed.

(** Multiplication of doubles is commutative. *)
Lemma Binary64_mul_comm (x y : float) : (x * y)%float = (y * x)%float.
Proof.
  apply Prim2SF_inj. rewrite !mul_spec. unfold SF64mul.
  destruct (Prim2SF x) as [sx|sx| |sx mx ex], (Prim2SF y) as [sy|sy| |sy my ey];
    cbn [SFmul]; try reflexivity; try (now rewrite xorb_comm).
  now rewrite xorb_comm, Pos.mul_comm, Z.add_comm.
Qed.

(** A finite double is a number that is not an infinity. *)
Lemma is_finite_Prim2SF (x : float) :
  is_finite x = true <->
  (exists s, Prim2SF x = S754_zero s) \/ (exists s m e, Prim2SF x = S754_finite s m e).
Proof.
  unfold is_finite, is_infinity.
  rewrite negb_true_iff, orb_false_iff, FloatAxioms.eqb_spec, abs_spec.
  rewrite <- not_true_iff_false, is_nan_Prim2SF.
  change (Prim2SF infinity) with (S754_infinity false).
  destruct (Prim2SF x) as [s|s| |s m e]; cbn; split.
  all: try (intros [H1 H2]; try discriminate; try (now exfalso; apply H1)).
  all: try (intros [[s' H]|(s' & m' & e' & H)]; discriminate).
  all: eauto 6.
  all: try (intros _; split; [discriminate | reflexivity]).
Qed.

(** The sign of a difference, with equality: [x - y >= 0] exactly when
    [x >= y], unless both are infinite. *)
Lemma binary_normalize_sign_le (d e : Z) :
  emin <= e ->
  SFleb (S754_zero false) (binary_normalize prec emax d e false) = (0 <=? d).
Proof.
  intros He. destruct d as [|p|p]; cbn [binary_normalize].
  - reflexivity.
  - destruct (binary_round_sign false p e He) as [(m' & e' & ->) | ->]; reflexivity.
  - destruct (binary_round_sign true p e He) as [(m' & e' & ->) | ->]; reflexivity.
Qed.

Lemma SFsub_sign_le (x y : spec_float) :
  valid_binary x = true -> valid_binary y = true ->
  x <> S754_nan -> y <> S754_nan ->
  (forall sx sy, x = S754_infinity sx -> y = S754_infinity sy -> False) ->
  SFleb (S754_zero false) (SF64sub x y) = (Binary64.SFrank y <=? Binary64.SFrank x).
Proof.
  intros Vx Vy Nx Ny Hinf'.
  assert (Hinf : 0 < 2 ^ (emax - emin)) by reflexivity.
  unfold SF64sub.
  destruct x as [sx|sx| |sx mx ex], y as [sy|sy| |sy my ey];
    try contradiction;
    try (exfalso; now apply (Hinf' sx sy));
    unfold valid_binary in Vx, Vy; cbn [SpecFloat.valid_binary] in Vx, Vy;
    try (pose proof (finite_rank_bounds _ _ Vx) as Bx);
    try (pose proof (finite_rank_bounds _ _ Vy) as By);
    cbn [SFsub Binary64.SFrank].
  8: { apply bounded_inv in Vx as (Hex & _), Vy as (Hey & _).
       destruct binary64_params as (Hprec & Hemax & Hemin).
       rewrite binary_normalize_sign_le by lia.
       rewrite <- (shl_align_rank sx mx ex (Z.min ex ey)) by lia.
       rewrite <- (shl_align_rank sy my ey (Z.min ex ey)) by lia.
       set (zx := cond_Zopp sx _). set (zy := cond_Zopp sy _).
       assert (Hp : 0 < 2 ^ (Z.min ex ey - emin)) by (apply Z.pow_pos_nonneg; lia).
       set (P := 2 ^ _) in *.
       destruct (Z.leb_spec 0 (zx - zy)), (Z.leb_spec (zy * P) (zx * P));
         try reflexivity; nia. }
  all: try destruct sx; try destruct sy; cbn [cond_Zopp negb SFleb SFcompare];
    symmetry; first [apply Z.leb_le | apply Z.leb_gt]; lia.
Qed.

Lemma Binary64_sub_sign_le (x y : float) :
  is_nan x = false -> is_nan y = false ->
  is_finite x || is_finite y = true ->
  (0 <=? x - y)%float = (y <=? x)%float.
Proof.
  intros Hx Hy Hfin.
  rewrite (Binary64_leb_rank y x) by assumption.
  apply Prim2SF_not_nan in Hx, Hy.
  rewrite FloatAxioms.leb_spec, sub_spec, Prim2SF_zero.
  apply SFsub_sign_le; auto using Prim2SF_valid.
  intros sx sy Ex Ey.
  apply orb_true_iff in Hfin as [H|H]; apply is_finite_Prim2SF in H;
    destruct H as [[s H]|(s & m & e & H)]; congruence.
Qed.

Lemma Binary64_eqb_rank_eq (x y : float) :
  is_nan x = false -> is_nan y = false ->
  (x =? y)%float = (Binary64.rank x =? Binary64.rank y)%Z.
Proof.
  intros Hx Hy. apply Prim2SF_not_nan in Hx, Hy.
  rewrite FloatAxioms.eqb_spec. unfold SFeqb, Binary64.rank.
  rewrite SFcompare_rank by (auto using Prim2SF_valid).
  destruct (Z.compare_spec (Binary64.SFrank (Prim2SF x)) (Binary64.SFrank (Prim2SF y)))
    as [E | E | E]; symmetry; [now apply Z.eqb_eq | apply Z.eqb_neq; lia ..].
Qed.

End Binary64Ops.

(** ** Array.prototype.sort *)

Lemma StronglySorted_weaken {A : Type} (R S : A -> A -> Prop) (l : list A) :
  (forall a b, R a b -> S a b) -> StronglySorted R l -> StronglySorted S l.
Proof.
  intros HRS. induction 1 as [|x l Hl IH Hx]; constructor.
  - exact IH.
  - eapply Forall_impl; [exact Hx | intros y; apply HRS].
Qed.

Section Sorting.

Context {num : Type} {N : JSNumber num} {A : Type}.
Variable compareFn : A -> A -> num.

Lemma sort_insert_perm (x : A) (l : list A) :
  Permutation (sort_insert compareFn x l) (x :: l).
Proof.
  induction l as [|y l IH]; cbn [sort_insert].
  - reflexivity.
  - destruct (lt (lit 0) (compareFn x y)).
    + rewrite IH. apply perm_swap.
    + reflexivity.
Qed.

Lemma Array_sort_perm (l : list A) : Permutation (Array_sort compareFn l) l.
Proof.
  induction l as [|x l IH]; cbn.
  - reflexivity.
  - fold (Array_sort compareFn l). rewrite sort_insert_perm. now constructor.
Qed.

(** Stability: a class of elements on which the comparator is never
    positive keeps its order. *)
Section Stable.

Variable P : A -> bool.
Hypothesis P_ties :
  forall x y, P x = true -> P y = true -> after compareFn x y = false.

Lemma sort_insert_filter (x : A) (l : list A) :
  List.filter P (sort_insert compareFn x l) = List.filter P (x :: l).
Proof.
  induction l as [|y l IH]; cbn [sort_insert].
  - reflexivity.
  - destruct (lt (lit 0) (compareFn x y)) eqn:E.
    + cbn [List.filter] in *. rewrite IH.
      destruct (P x) eqn:Px, (P y) eqn:Py; try reflexivity.
      specialize (P_ties x y Px Py). unfold after in P_ties. congruence.
    + reflexivity.
Qed.

Lemma Array_sort_filter (l : list A) :
  List.filter P (Array_sort compareFn l) = List.filter P l.
Proof.
  induction l as [|x l IH]; cbn.
  - reflexivity.
  - fold (Array_sort compareFn l). rewrite sort_insert_filter.
    cbn [List.filter]. now rewrite IH.
Qed.

End Stable.

(** Order: when, among the elements of a class [good], "not after" is
    transitive and the comparator is never positive both ways, a list of
    good elements comes out sorted. *)
Section OrderedOn.

Variable good : A -> Prop.
Hypothesis notAfter_trans :
  forall a b c, good a -> good b -> good c ->
                notAfter compareFn a b -> notAfter compareFn b c ->
                notAfter compareFn a c.
Hypothesis after_notAfter :
  forall a b, good a -> good b ->
              after compareFn a b = true -> notAfter compareFn b a.

Lemma sort_insert_sorted_on (x : A) (l : list A) :
  good x -> Forall good l ->
  StronglySorted (notAfter compareFn) l ->
  StronglySorted (notAfter compareFn) (sort_insert compareFn x l).
Proof.
  intros Gx Gl Hl.
  induction Hl as [|y l Hl IH Hy]; cbn [sort_insert].
  - repeat constructor.
  - apply Forall_cons in Gl as [Gy Gl].
    destruct (lt (lit 0) (compareFn x y)) eqn:E.
    + constructor; [now apply IH|].
      rewrite Forall_forall. intros z Hz.
      rewrite sort_insert_perm in Hz.
      apply elem_of_cons in Hz as [-> | Hz].
      * now apply after_notAfter.
      * rewrite Forall_forall in Hy. now apply Hy.
    + constructor; [now constructor|].
      constructor; [exact E|].
      rewrite Forall_forall in *. intros z Hz.
      apply notAfter_trans with y; auto.
Qed.

Lemma Array_sort_sorted_on (l : list A) :
  Forall good l -> StronglySorted (notAfter compareFn) (Array_sort compareFn l).
Proof.
  induction 1 as [|x l Gx Gl IH]; cbn.
  - constructor.
  - fold (Array_sort compareFn l).
    apply sort_insert_sorted_on; [exact Gx| |exact IH].
    rewrite Forall_forall in *. intros z Hz.
    rewrite Array_sort_perm in Hz. now apply Gl.
Qed.

End OrderedOn.

(** The same when every element is good. *)
Section Ordered.

Hypothesis notAfter_trans :
  forall a b c, notAfter compareFn a b -> notAfter compareFn b c ->
                notAfter compareFn a c.
Hypothesis after_notAfter :
  forall a b, after compareFn a b = true -> notAfter compareFn b a.

Lemma Array_sort_sorted (l : list A) :
  StronglySorted (notAfter compareFn) (Array_sort compareFn l).
Proof.
  apply (Array_sort_sorted_on (fun _ => True)).
  - intros a b c _ _ _. apply notAfter_trans.
  - intros a b _ _. apply after_notAfter.
  - now apply Forall_forall.
Qed.

End Ordered.

End Sorting.

(** A list sorted on a rational field is determined by the order inside
    each class of equal values: the stable sort is unique. *)
Section Unique.

Context {A : Type}.
Variable value : A -> Q.
Variable d : SortDir.

Lemma inOrder_antisym (x y : Q) : inOrder d x y -> inOrder d y x -> (x == y)%Q.
Proof. unfold inOrder. destruct d; intros; lra. Qed.

Lemma tied_refl (x : A) : tied value (value x) x = true.
Proof. apply Qeq_bool_refl. Qed.

Lemma tied_sym (x y : A) : tied value (value x) y = tied value (value y) x.
Proof.
  unfold tied.
  destruct (Qeq_bool (value y) (value x)) eqn:E1,
           (Qeq_bool (value x) (value y)) eqn:E2; try reflexivity.
  - apply Qeq_bool_iff in E1. symmetry in E1. apply Qeq_bool_iff in E1. congruence.
  - apply Qeq_bool_iff in E2. symmetry in E2. apply Qeq_bool_iff in E2. congruence.
Qed.

Lemma tied_head_in (v : Q) (x : A) (l rest : list A) :
  List.filter (tied value v) l = x :: rest -> In x l.
Proof.
  intros Hf.
  assert (Hin : In x (List.filter (tied value v) l)) by (rewrite Hf; now left).
  now apply List.filter_In in Hin.
Qed.

Lemma stable_sorted_unique (l1 l2 : list A) :
  StronglySorted (fun a b => inOrder d (value a) (value b)) l1 ->
  StronglySorted (fun a b => inOrder d (value a) (value b)) l2 ->
  (forall v, List.filter (tied value v) l1 = List.filter (tied value v) l2) ->
  l1 = l2.
Proof.
  intros H1. revert l2.
  induction H1 as [|x t1 Ht1 IH Hx]; intros l2 H2 Hties.
  - destruct l2 as [|y t2]; [reflexivity|].
    specialize (Hties (value y)). cbn [List.filter] in Hties.
    rewrite tied_refl in Hties. discriminate.
  - destruct l2 as [|y t2].
    { specialize (Hties (value x)). cbn [List.filter] in Hties.
      rewrite tied_refl in Hties. discriminate. }
    inversion H2 as [|? ? Ht2 Hy]; subst.
    destruct (tied value (value x) y) eqn:Eyx.
    + pose proof (Hties (value x)) as Hhead. cbn [List.filter] in Hhead.
      rewrite tied_refl, Eyx in Hhead.
      injection Hhead as -> _.
      f_equal. apply IH; [exact Ht2|].
      intros v. specialize (Hties v). cbn [List.filter] in Hties.
      destruct (tied value v y); [now injection Hties | exact Hties].
    + exfalso.
      pose proof (Hties (value x)) as Hvx. cbn [List.filter] in Hvx.
      rewrite tied_refl, Eyx in Hvx.
      symmetry in Hvx. apply tied_head_in in Hvx.
      pose proof (Hties (value y)) as Hvy. cbn [List.filter] in Hvy.
      rewrite tied_refl, <- tied_sym, Eyx in Hvy.
      apply tied_head_in in Hvy.
      rewrite List.Forall_forall in Hx, Hy.
      pose proof (inOrder_antisym _ _ (Hx _ Hvy) (Hy _ Hvx)) as Heq.
      symmetry in Heq. apply Qeq_bool_iff in Heq.
      unfold tied in Eyx. congruence.
Qed.

End Unique.

Section UniqueBinary64.

Context {A : Type}.
Variable value : A -> float.
Variable d : SortDir.

Lemma tied_binary64_refl (x : A) :
  is_nan (value x) = false -> tied_binary64 value (value x) x = true.
Proof.
  intros Hx. unfold tied_binary64.
  rewrite Binary64_eqb_rank_eq by assumption. apply Z.eqb_refl.
Qed.

(** On numbers, an arrangement that is in order and keeps the ties is the
    only one. *)
Lemma stable_sorted_unique_binary64 (l1 l2 : list A) :
  Forall (fun r => is_nan (value r) = false) l1 ->
  Forall (fun r => is_nan (value r) = false) l2 ->
  StronglySorted (fun a b => inOrder_binary64 d (value a) (value b)) l1 ->
  StronglySorted (fun a b => inOrder_binary64 d (value a) (value b)) l2 ->
  (forall v, List.filter (tied_binary64 value v) l1
             = List.filter (tied_binary64 value v) l2) ->
  l1 = l2.
Proof.
  intros G1 G2 H1. revert l2 G2 G1.
  induction H1 as [|x t1 Ht1 IH Hx]; intros l2 G2 G1 H2 Hties.
  - destruct l2 as [|y t2]; [reflexivity|].
    apply Forall_cons in G2 as [Gy _].
    specialize (Hties (value y)). cbn [List.filter] in Hties.
    rewrite tied_binary64_refl in Hties by exact Gy. discriminate.
  - apply Forall_cons in G1 as [Gx G1].
    destruct l2 as [|y t2].
    { specialize (Hties (value x)). cbn [List.filter] in Hties.
      rewrite tied_binary64_refl in Hties by exact Gx. discriminate. }
    apply Forall_cons in G2 as [Gy G2].
    inversion H2 as [|? ? Ht2 Hy]; subst.
    destruct (tied_binary64 value (value x) y) eqn:Eyx.
    + pose proof (Hties (value x)) as Hhead. cbn [List.filter] in Hhead.
      rewrite tied_binary64_refl, Eyx in Hhead by exact Gx.
      injection Hhead as -> _.
      f_equal. apply IH; [exact G2 | exact G1 | exact Ht2|].
      intros v. specialize (Hties v). cbn [List.filter] in Hties.
      destruct (tied_binary64 value v y); [now injection Hties | exact Hties].
    + exfalso.
      pose proof (Hties (value x)) as Hvx. cbn [List.filter] in Hvx.
      rewrite tied_binary64_refl, Eyx in Hvx by exact Gx.
      assert (Hin2 : In x t2).
      { assert (Hin : In x (List.filter (tied_binary64 value (value x)) t2))
          by (rewrite <- Hvx; now left).
        now apply List.filter_In in Hin. }
      assert (Eyx' : tied_binary64 value (value y) x = false).
      { unfold tied_binary64 in *.
        rewrite Binary64_eqb_rank_eq in * by assumption.
        apply Z.eqb_neq in Eyx. apply Z.eqb_neq. lia. }
      pose proof (Hties (value y)) as Hvy. cbn [List.filter] in Hvy.
      rewrite tied_binary64_refl, Eyx' in Hvy by exact Gy.
      assert (Hin1 : In y t1).
      { assert (Hin : In y (List.filter (tied_binary64 value (value y)) t1))
          by (rewrite Hvy; now left).
        now apply List.filter_In in Hin. }
      rewrite List.Forall_forall in Hx, Hy.
      pose proof (Hx _ Hin1) as Hxy. pose proof (Hy _ Hin2) as Hyx.
      unfold inOrder_binary64, tied_binary64 in *.
      rewrite Binary64_eqb_rank_eq in Eyx by assumption.
      apply Z.eqb_neq in Eyx.
      destruct d; rewrite Binary64_leb_rank in Hxy, Hyx by assumption;
        apply Z.leb_le in Hxy, Hyx; lia.
Qed.

End UniqueBinary64.

Lemma filter_all {A : Type} (f : A -> bool) (l : list A) :
  (forall x, f x = true) -> List.filter f l = l.
Proof.
  intros Hf. induction l as [|x l IH]; [reflexivity|].
  cbn [List.filter]. now rewrite Hf, IH.
Qed.

(** ** The comparators on exact values *)

Lemma byState_notAfter (state : CompareState Q) (a b : CandidateRow Q) :
  notAfter (byState state) a b <->
  inOrder (dir state) (sortValue (key state) a) (sortValue (key state) b).
Proof.
  unfold notAfter, after, byState, inOrder. exact_ops.
  rewrite Exact_ltb_false.
  destruct (dir state); split; intros Hab; lra.
Qed.

Lemma byState_after (state : CompareState Q) (a b : CandidateRow Q) :
  after (byState state) a b = true ->
  ~ (sortValue (key state) a == sortValue (key state) b)%Q.
Proof.
  unfold after, byState. exact_ops. rewrite Exact_ltb_true.
  destruct (dir state); intros Hab Heq; lra.
Qed.

(** ** The comparator of the comparison table on doubles *)

Lemma byState_after_binary64 (state : CompareState float) (a b : CandidateRow float) :
  is_nan (sortValue (key state) a) = false ->
  is_nan (sortValue (key state) b) = false ->
  after (byState state) a b
  = match dir state with
    | asc => (Binary64.rank (sortValue (key state) b)
              <? Binary64.rank (sortValue (key state) a))%Z
    | desc => (Binary64.rank (sortValue (key state) a)
               <? Binary64.rank (sortValue (key state) b))%Z
    end.
Proof.
  intros Ha Hb. unfold after, byState.
  cbn [lit lt sub Binary64.number].
  change (Binary64.of_Q 0) with 0%float.
  destruct (dir state); now apply Binary64_sub_sign.
Qed.

Lemma byState_notAfter_binary64 (state : CompareState float) (a b : CandidateRow float) :
  is_nan (sortValue (key state) a) = false ->
  is_nan (sortValue (key state) b) = false ->
  notAfter (byState state) a b <->
  inOrder_binary64 (dir state) (sortValue (key state) a) (sortValue (key state) b).
Proof.
  intros Ha Hb. unfold notAfter, inOrder_binary64.
  rewrite byState_after_binary64 by assumption.
  destruct (dir state); rewrite Binary64_leb_rank by assumption;
    rewrite Z.ltb_ge, Z.leb_le; reflexivity.
Qed.

Lemma byQtyThenTypeId_notAfter (a b : ReprocessOutput Q) :
  notAfter byQtyThenTypeId a b <-> qtyDescIdAsc a b.
Proof.
  unfold notAfter, after, byQtyThenTypeId, qtyDescIdAsc. exact_ops.
  destruct (Qeq_bool (o_qty b - o_qty a) 0) eqn:E; cbn [negb];
    rewrite Exact_ltb_false.
  - apply Qeq_bool_iff in E. split.
    + intros Hid. right. split; lra.
    + intros [Hlt | [_ Hid]]; lra.
  - apply Qeq_bool_neq in E. split.
    + intros Hle. left. apply Qle_lt_or_eq in Hle as [Hlt | Heq]; [lra | contradiction].
    + intros [Hlt | [Heq _]]; [lra|]. exfalso. apply E. lra.
Qed.

Lemma qtyDescIdAsc_trans (a b c : ReprocessOutput Q) :
  qtyDescIdAsc a b -> qtyDescIdAsc b c -> qtyDescIdAsc a c.
Proof.
  unfold qtyDescIdAsc.
  intros [Hab | [Hab Hab']] [Hbc | [Hbc Hbc']].
  - left. lra.
  - left. lra.
  - left. lra.
  - right. split; lra.
Qed.

Lemma qtyDescIdAsc_total (a b : ReprocessOutput Q) :
  ~ qtyDescIdAsc a b -> qtyDescIdAsc b a.
Proof.
  unfold qtyDescIdAsc. intros Hnot.
  destruct (Qlt_le_dec (o_qty a) (o_qty b)) as [Hlt | Hle]; [now left|].
  apply Qle_lt_or_eq in Hle as [Hlt | Heq].
  - exfalso. apply Hnot. now left.
  - right. split; [exact Heq|].
    destruct (Qlt_le_dec (o_typeId b) (o_typeId a)) as [Hid | Hid]; [lra|].
    exfalso. apply Hnot. right. split; [lra | exact Hid].
Qed.

(** The unused helper does order its rows by quantity (larger first), then
    by identity (smaller first). *)
Lemma computeReprocessOutputs_sorted
    (units portionSize : Q) (typeMaterials : list (Q * TypeMaterial Q)) (yieldPct : Q) :
  StronglySorted qtyDescIdAsc
    (computeReprocessOutputs units portionSize typeMaterials yieldPct).
Proof.
  unfold computeReprocessOutputs.
  eapply StronglySorted_weaken; [|apply Array_sort_sorted].
  - intros a b. apply byQtyThenTypeId_notAfter.
  - intros a b c Hab Hbc. apply byQtyThenTypeId_notAfter.
    apply byQtyThenTypeId_notAfter in Hab, Hbc. eapply qtyDescIdAsc_trans; eassumption.
  - intros a b Hab. apply byQtyThenTypeId_notAfter. apply qtyDescIdAsc_total.
    intros Hba. apply byQtyThenTypeId_notAfter in Hba.
    unfold notAfter in Hba. congruence.
Qed.

(** The rows [onCalculate] renders are ordered by total value, larger first,
    an unknown value counting as 0. *)
Lemma candidateRow_rows_by_value
    (nameOf : option Q -> string) (priceMap : PriceMap Q)
    (yieldFrac taxPct usedSeconds : Q) (m : Mined Q) :
  StronglySorted
    (fun a b => (default 0 (r_totalValue b) <= default 0 (r_totalValue a))%Q)
    (reprocessRows (candidateRow nameOf priceMap yieldFrac taxPct usedSeconds m)).
Proof.
  unfold candidateRow. cbn [reprocessRows].
  assert (Hrel : forall a b : ReprocessRow Q,
    notAfter byTotalValue a b <->
    (default 0 (r_totalValue b) <= default 0 (r_totalValue a))%Q).
  { intros a b. unfold notAfter, after, byTotalValue. exact_ops.
    rewrite Exact_ltb_false. split; intros; lra. }
  eapply StronglySorted_weaken; [|apply Array_sort_sorted].
  - intros a b. apply Hrel.
  - intros a b c Hab Hbc. apply Hrel. apply Hrel in Hab, Hbc. lra.
  - intros a b Hab. apply Hrel. unfold after, byTotalValue in Hab. exact_ops.
    apply Exact_ltb_true in Hab. lra.
Qed.

(* ====================================================================== *)
(** * The claims *)
(* ====================================================================== *)

(** ** C1: reprocessing quantities *)

(** C1.  The claim: portions = floor(units / portionSize) and each output
    quantity = floor(portions * quantityPerPortion * yieldFraction + 1e-9).
    Neither path of the code computes that.  [onCalculate] floors the
    portions but adds no 1e-9: 100 units of portion size 100, 100 per
    portion, at a yield of 29 % give floor(100 * 0.29) =
    floor(28.999999999999996) = 28, where the claimed expression gives 29.
    [computeReprocessOutputs] adds the 1e-9 but does not floor the portions:
    150 units of portion size 100, 400 per portion, at 100 % give 600, where
    the claimed expression gives 400. *)
Theorem reprocess_quantity_divergence :
  (exists row,
      Scenario.rowsOf 1000 60 1 29 (Scenario.ore 10 100 5 7) = Normal (Some [row]) /\
      unitsMined row = 100%float /\
      Scenario.quantities row
      = [(Some 35, 1); (Some 34, 28); (Some 36, 2)]%float) /\
  (Math_floor (Math_floor (100 / 100) * 100 * yieldFracOf 29 + 1e-9) = 29)%float /\
  map o_qty (computeReprocessOutputs 150 100 [Scenario.material 34 400] 100)%float
  = [600%float] /\
  (Math_floor (Math_floor (150 / 100) * 400 * (clamp 100 0 100 / 100) + 1e-9) = 400)%float.
Proof.
  split; [|repeat split; vm_compute; reflexivity].
  eexists. split; [vm_compute; reflexivity|].
  split; vm_compute; reflexivity.
Qed.

(** ** C2: units mined *)

(** C2.  The claim: 0 units when unitVolume <= 0, else
    floor(totalVolume / unitVolume + 1e-9); 9000 / 0.1 gives 90000.
    [calcUnitsMined] does that, but [onCalculate] does not call it: it
    computes floor(totalM3 / (volume || 1)).  One cycle of 0.7 m3 of a
    material of 0.1 m3 per unit gives floor(6.999999999999999) = 6 units
    where the claim (and [calcUnitsMined]) gives 7, and a unit volume of 0
    is read as 1 (1000 units for 1000 m3) where the claim gives 0.  Scenario
    1 gives 90000 units on both paths. *)
Theorem units_mined_divergence :
  (exists row,
      Scenario.rowsOf 0.7 60 1 100 (Scenario.ore 0.1 100 5 7) = Normal (Some [row]) /\
      unitsMined row = 6%float) /\
  (calcUnitsMined 0.7 0.1 = 7)%float /\
  (Math_floor (0.7 / 0.1 + 1e-9) = 7)%float /\
  (exists row,
      Scenario.rowsOf 1000 60 1 100 (Scenario.ore 0 100 5 7) = Normal (Some [row]) /\
      unitsMined row = 1000%float) /\
  (calcUnitsMined 1000 0 = 0)%float /\
  (exists row,
      Scenario.rowsOf 1000 92.2 15 100 (Scenario.ore 0.1 100 5 7) = Normal (Some [row]) /\
      unitsMined row = 90000%float) /\
  (calcUnitsMined 9000 0.1 = 90000)%float.
Proof.
  split. { eexists. split; [vm_compute; reflexivity|]. vm_compute. reflexivity. }
  split. { vm_compute. reflexivity. }
  split. { vm_compute. reflexivity. }
  split. { eexists. split; [vm_compute; reflexivity|]. vm_compute. reflexivity. }
  split. { vm_compute. reflexivity. }
  split. { eexists. split; [vm_compute; reflexivity|]. vm_compute. reflexivity. }
  vm_compute. reflexivity.
Qed.

(** The helper itself follows the contract: 0 for a unit volume that is not
    positive, the floored quotient otherwise. *)
Lemma calcUnitsMined_contract (volumeM3 unitVolumeM3 : float) :
  ((unitVolumeM3 <=? 0)%float = true -> calcUnitsMined volumeM3 unitVolumeM3 = 0%float) /\
  ((0 <? unitVolumeM3)%float = true ->
   calcUnitsMined volumeM3 unitVolumeM3
   = Math_floor (volumeM3 / unitVolumeM3 + 1e-9)%float).
Proof.
  unfold calcUnitsMined. float_ops.
  change (Binary64.of_Q 0) with 0%float.
  split; intros Hu.
  - now rewrite (Binary64_leb0_ltb0 _ Hu).
  - rewrite Hu. cbn [negb]. reflexivity.
Qed.

(** In exact arithmetic its result is a non-negative integer for a volume
    that is not negative. *)
Lemma calcUnitsMined_exact (volumeM3 unitVolumeM3 : Q) :
  (0 <= volumeM3)%Q -> (0 < unitVolumeM3)%Q ->
  exists n : Z, (0 <= n)%Z /\
    calcUnitsMined volumeM3 unitVolumeM3 = inject_Z n /\
    n = Qfloor (volumeM3 / unitVolumeM3 + 1e-9).
Proof.
  intros Hv Hu. unfold calcUnitsMined. exact_ops.
  assert (Exact.ltb 0 unitVolumeM3 = true) as -> by now apply Exact_ltb_true.
  cbn [negb]. eexists. split; [|split; reflexivity].
  assert (Hq : (0 <= volumeM3 / unitVolumeM3)%Q).
  { apply Qle_shift_div_l; [exact Hu|]. now rewrite Qmult_0_l. }
  change 0%Z with (Qfloor 0). apply Qfloor_resp_le.
  assert (Heps : (0 < 1e-9)%Q) by reflexivity.
  set (q := (volumeM3 / unitVolumeM3)%Q) in *. set (eps := 1e-9%Q) in *. lra.
Qed.

(** ** C3: the yield formula *)

Lemma Exact_skillLevel (v : Q) : skillLevel v = inject_Z (Spec.skill v).
Proof.
  unfold skillLevel, Spec.skill. exact_ops.
  unfold Exact.max, Exact.min, Exact.floor.
  change 5%Q with (inject_Z 5). change 0%Q with (inject_Z 0).
  destruct (Qle_bool (inject_Z 5) (inject_Z (Qfloor v))) eqn:E5.
  - apply Qle_bool_iff in E5. rewrite <- Zle_Qle in E5.
    rewrite (Z.min_l 5) by exact E5. reflexivity.
  - apply Qle_bool_false in E5. rewrite <- Zlt_Qlt in E5.
    rewrite (Z.min_r 5) by lia.
    destruct (Qle_bool (inject_Z 0) (inject_Z (Qfloor v))) eqn:E0.
    + apply Qle_bool_iff in E0. rewrite <- Zle_Qle in E0.
      now rewrite Z.max_r by exact E0.
    + apply Qle_bool_false in E0. rewrite <- Zlt_Qlt in E0.
      now rewrite Z.max_l by lia.
Qed.

Lemma Spec_skill_range (v : Q) : (0 <= Spec.skill v <= 5)%Z.
Proof. unfold Spec.skill. lia. Qed.

Lemma Exact_baseYield (basePct rig sec : Q) :
  (baseYield basePct rig sec == Spec.baseYield basePct rig sec)%Q.
Proof.
  unfold baseYield, Spec.baseYield. exact_ops. unfold Exact.ltb.
  exact_cases; try reflexivity; lra.
Qed.

Lemma Exact_nonNegative (x : Q) : (Exact.max 0 x == Spec.nonNegative x)%Q.
Proof. unfold Exact.max, Spec.nonNegative. exact_cases; lra. Qed.

Lemma Exact_clamp01 (x y : Q) :
  (x == y)%Q -> (Exact.max 0 (Exact.min 1 x) == Spec.clamp01 y)%Q.
Proof.
  intros Hxy. unfold Exact.max, Exact.min, Spec.clamp01.
  destruct (Qle_bool 1 x) eqn:E1;
    [apply Qle_bool_iff in E1 | apply Qle_bool_false in E1];
    exact_cases; lra.
Qed.

Lemma Spec_clamp01_range (x : Q) : (0 <= Spec.clamp01 x <= 1)%Q.
Proof. unfold Spec.clamp01. exact_cases; lra. Qed.

(** [clamp(e, 0, 1)] and the handler's [Math.max(0, Math.min(1, e))] are
    the same double, NaN and the two zeros included. *)
Lemma Binary64_clamp_unit (e : float) :
  Binary64.min 1 (Binary64.max 0 e) = Binary64.max 0 (Binary64.min 1 e).
Proof.
  destruct (is_nan e) eqn:Hn.
  { unfold Binary64.max at 2. unfold Binary64.min at 2.
    rewrite Hn, !orb_true_r.
    unfold Binary64.min, Binary64.max. rewrite Hn, !orb_true_r. reflexivity. }
  assert (H0 : Binary64.rank 0 = 0%Z) by reflexivity.
  assert (H1 : (0 < Binary64.rank 1)%Z) by reflexivity.
  pose proof (Binary64_ltb_rank 0 e eq_refl Hn) as A.
  pose proof (Binary64_ltb_rank e 0 Hn eq_refl) as B.
  pose proof (Binary64_ltb_rank 1 e eq_refl Hn) as C.
  pose proof (Binary64_ltb_rank e 1 Hn eq_refl) as D.
  unfold Binary64.max at 2. unfold Binary64.min at 2.
  unfold Binary64.min at 1. unfold Binary64.max at 2.
  rewrite Hn. change (is_nan 0) with false. change (is_nan 1) with false.
  change (get_sign 0) with false. change (get_sign 1) with false.
  cbn [orb].
  destruct (0 <? e)%float eqn:A'; destruct (e <? 0)%float eqn:B';
    destruct (1 <? e)%float eqn:C'; destruct (e <? 1)%float eqn:D';
    symmetry in A, B, C, D;
    try (apply Z.ltb_lt in A); try (apply Z.ltb_ge in A);
    try (apply Z.ltb_lt in B); try (apply Z.ltb_ge in B);
    try (apply Z.ltb_lt in C); try (apply Z.ltb_ge in C);
    try (apply Z.ltb_lt in D); try (apply Z.ltb_ge in D);
    try lia;
    unfold Binary64.min, Binary64.max;
    rewrite ?Hn, ?A', ?B', ?C', ?D';
    change (is_nan 0) with false; change (is_nan 1) with false;
    change (get_sign 0) with false; change (get_sign 1) with false;
    change (0 <? 1)%float with true; change (1 <? 0)%float with false;
    change (0 <? 0)%float with false; change (1 <? 1)%float with false;
    cbn [orb]; rewrite ?Hn, ?A', ?B', ?C', ?D'; reflexivity.
Qed.

Lemma Exact_clamp_unit (x : Q) :
  (Exact.min 1 (Exact.max 0 x) == Exact.max 0 (Exact.min 1 x))%Q.
Proof.
  unfold Exact.max, Exact.min.
  destruct (Qle_bool 1 x) eqn:E1;
    [apply Qle_bool_iff in E1 | apply Qle_bool_false in E1];
    exact_cases; lra.
Qed.

(** C3, as the code has it.  For every form the handler's result is
    clamp(baseYield * (1 + 0.03 R') * (1 + 0.02 RE') * (1 + 0.02 OP') *
    (1 + max(0, implantPct) / 100), 0, 1), evaluated in the arithmetic of
    the inputs: baseYield is (basePct + rigBonusPoints) / 100 times
    (1 + securityModPct / 100) exactly when both rigBonusPoints and
    securityModPct are positive, and a negative implantPct counts as 0.
    On doubles the result is NaN or lies in [0, 1], and it is NaN for a
    base of 0 with an implant bonus of Infinity.  In exact arithmetic the
    skill levels are floored and clamped to the integers 0..5, and the
    result lies in [0, 1]. *)
Theorem applyAdvanced_formula :
  (forall f : AdvancedForm float,
      applyAdvanced f = amendedYield f /\
      (is_nan (applyAdvanced f) = true \/
       ((0 <=? applyAdvanced f)%float = true /\ (applyAdvanced f <=? 1)%float = true))) /\
  is_nan (applyAdvanced Scenario.infiniteImplant) = true /\
  (forall f : AdvancedForm Q,
      (applyAdvanced f == amendedYield f)%Q /\
      (applyAdvanced f == Spec.effectiveYield f)%Q /\
      (0 <= applyAdvanced f <= 1)%Q /\
      skillLevel (skillR f) = inject_Z (Spec.skill (skillR f)) /\
      skillLevel (skillRE f) = inject_Z (Spec.skill (skillRE f)) /\
      skillLevel (skillOP f) = inject_Z (Spec.skill (skillOP f)) /\
      (forall v : Q, 0 <= Spec.skill v <= 5)%Z).
Proof.
  split; [|split; [vm_compute; reflexivity|]].
  - intros f. split.
    + unfold applyAdvanced, amendedYield, clamp. float_ops.
      change (Binary64.of_Q 0) with 0%float. change (Binary64.of_Q 1) with 1%float.
      symmetry. apply Binary64_clamp_unit.
    + unfold applyAdvanced. float_ops.
      change (Binary64.of_Q 0) with 0%float. change (Binary64.of_Q 1) with 1%float.
      match goal with
      | |- context [Binary64.max 0 (Binary64.min 1 ?e)] =>
          destruct (Binary64_unit_clamp e) as [Hnan Hnum];
          destruct (is_nan e) eqn:He
      end.
      * left. now apply Hnan.
      * right. now destruct (Hnum eq_refl) as (_ & H0 & H1).
  - intros f.
    assert (Heq : (applyAdvanced f == Spec.effectiveYield f)%Q).
    { unfold applyAdvanced, Spec.effectiveYield.
      rewrite !Exact_skillLevel. exact_ops.
      apply Exact_clamp01.
      rewrite Exact_baseYield, Exact_nonNegative. reflexivity. }
    split.
    { unfold applyAdvanced, amendedYield, clamp. exact_ops.
      symmetry. apply Exact_clamp_unit. }
    split; [exact Heq|].
    split; [rewrite Heq; apply Spec_clamp01_range|].
    repeat split; try apply Exact_skillLevel; apply Spec_skill_range.
Qed.

(** C3, as claimed, fails: an implant bonus of -50 is not taken raw.  With
    basePct = 50 and everything else 0 the handler gives 0.5, the claimed
    formula 0.5 * (1 - 50/100) = 0.25. *)
Lemma applyAdvanced_negative_implant :
  applyAdvanced (num := float) Scenario.negativeImplant = 0.5%float /\
  claimedYield (num := float) Scenario.negativeImplant = 0.25%float /\
  ~ (applyAdvanced (num := Q) Scenario.negativeImplant
     == claimedYield Scenario.negativeImplant)%Q.
Proof.
  split; [vm_compute; reflexivity|].
  split; [vm_compute; reflexivity|].
  vm_compute. discriminate.
Qed.

(** ** C4: cycles *)

Lemma calcCycles_exact (durationMinutes cycleTimeSeconds : Q) :
  (0 <= durationMinutes)%Q -> (0 < cycleTimeSeconds)%Q ->
  let r := calcCycles durationMinutes cycleTimeSeconds in
  (totalSeconds r == durationMinutes * 60)%Q /\
  cycles r = inject_Z (Qfloor (totalSeconds r / cycleTimeSeconds)) /\
  (usedSeconds r == cycles r * cycleTimeSeconds)%Q /\
  (usedSeconds r + leftoverSeconds r == durationMinutes * 60)%Q /\
  (usedSeconds r <= totalSeconds r)%Q /\
  (0 <= leftoverSeconds r)%Q /\ (leftoverSeconds r < cycleTimeSeconds)%Q.
Proof.
  intros Hdm Hct. unfold calcCycles. exact_ops.
  assert (Hpos : Exact.ltb 0 cycleTimeSeconds = true) by now apply Exact_ltb_true.
  rewrite Hpos.
  assert (Htot : Exact.max 0 (durationMinutes * 60) = (durationMinutes * 60)%Q)
    by (apply Exact_max_r; lra).
  rewrite Htot. cbn [totalSeconds cycles usedSeconds leftoverSeconds].
  set (q := (durationMinutes * 60 / cycleTimeSeconds)%Q).
  pose proof (Exact_floor_le q) as Hlo.
  pose proof (Exact_floor_lt q) as Hhi.
  assert (Hq : (q * cycleTimeSeconds == durationMinutes * 60)%Q)
    by (unfold q; field; lra).
  assert (Hused : (Exact.floor q * cycleTimeSeconds <= q * cycleTimeSeconds)%Q)
    by (apply Qmult_le_compat_r; [exact Hlo | lra]).
  assert (Hnext : (q * cycleTimeSeconds < (Exact.floor q + 1) * cycleTimeSeconds)%Q)
    by (apply Qmult_lt_compat_r; assumption).
  repeat split; try reflexivity; try ring; lra.
Qed.

(** C4, as the code has it.  In exact arithmetic the claim holds as stated:
    for durationMinutes >= 0 and cycleTimeSeconds > 0, totalSeconds =
    durationMinutes * 60, cycles = floor(totalSeconds / cycleTimeSeconds),
    usedSeconds = cycles * cycleTimeSeconds, usedSeconds + leftoverSeconds =
    durationMinutes * 60, usedSeconds <= totalSeconds and 0 <=
    leftoverSeconds < cycleTimeSeconds; and cycleTimeSeconds <= 0 gives
    cycles = 0.  In double arithmetic cycles, usedSeconds and
    leftoverSeconds are the rounded results of the same operations, and
    cycleTimeSeconds <= 0 gives cycles = 0. *)
Theorem calcCycles_exact_arithmetic :
  (forall durationMinutes cycleTimeSeconds : Q,
      (0 <= durationMinutes)%Q -> (0 < cycleTimeSeconds)%Q ->
      let r := calcCycles durationMinutes cycleTimeSeconds in
      (totalSeconds r == durationMinutes * 60)%Q /\
      cycles r = inject_Z (Qfloor (totalSeconds r / cycleTimeSeconds)) /\
      (usedSeconds r == cycles r * cycleTimeSeconds)%Q /\
      (usedSeconds r + leftoverSeconds r == durationMinutes * 60)%Q /\
      (usedSeconds r <= totalSeconds r)%Q /\
      (0 <= leftoverSeconds r)%Q /\ (leftoverSeconds r < cycleTimeSeconds)%Q) /\
  (forall durationMinutes cycleTimeSeconds : Q,
      (cycleTimeSeconds <= 0)%Q ->
      cycles (calcCycles durationMinutes cycleTimeSeconds) = 0%Q) /\
  (forall durationMinutes cycleTimeSeconds : float,
      (cycleTimeSeconds <=? 0)%float = true ->
      cycles (calcCycles durationMinutes cycleTimeSeconds) = 0%float) /\
  (forall durationMinutes cycleTimeSeconds : float,
      (0 <? cycleTimeSeconds)%float = true ->
      let r := calcCycles durationMinutes cycleTimeSeconds in
      cycles r = Math_floor (totalSeconds r / cycleTimeSeconds)%float /\
      usedSeconds r = (cycles r * cycleTimeSeconds)%float /\
      leftoverSeconds r = (totalSeconds r - usedSeconds r)%float).
Proof.
  split; [exact calcCycles_exact|].
  split; [|split].
  - intros dm ct Hct. unfold calcCycles. exact_ops. cbn [cycles].
    assert (Exact.ltb 0 ct = false) as -> by now apply Exact_ltb_false.
    reflexivity.
  - intros dm ct Hct. unfold calcCycles. float_ops. cbn [cycles].
    change (Binary64.of_Q 0) with 0%float.
    now rewrite (Binary64_leb0_ltb0 _ Hct).
  - intros dm ct Hct. unfold calcCycles. float_ops.
    cbn [cycles usedSeconds leftoverSeconds totalSeconds].
    change (Binary64.of_Q 0) with 0%float. rewrite Hct. repeat split.
Qed.

(** Scenario 1 of the specification, in exact arithmetic: 15 minutes of
    92.2 s cycles are 9 cycles, 829.8 s used and 70.2 s left. *)
Lemma calcCycles_exact_arithmetic_witness :
  (cycles (calcCycles 15 92.2) = 9)%Q /\
  (usedSeconds (calcCycles 15 92.2) + leftoverSeconds (calcCycles 15 92.2) == 15 * 60)%Q /\
  (leftoverSeconds (calcCycles 15 92.2) < 92.2)%Q.
Proof.
  destruct (proj1 calcCycles_exact_arithmetic 15 92.2)%Q
    as (_ & Hcycles & _ & Hsum & _ & _ & Hleft).
  - vm_compute. discriminate.
  - reflexivity.
  - split; [|split; [exact Hsum | exact Hleft]].
    rewrite Hcycles. vm_compute. reflexivity.
Defined.

(** C4, as claimed, fails in the arithmetic the code runs: for 8.1 minutes
    of 2.7 s cycles, totalSeconds is 486 and cycles is 180, but usedSeconds
    = 180 * 2.7 rounds to 486.00000000000006, above totalSeconds, and
    leftoverSeconds is negative. *)
Lemma calcCycles_rounding :
  (0 <=? 8.1)%float = true /\ (0 <? 2.7)%float = true /\
  totalSeconds (calcCycles 8.1 2.7)%float = 486%float /\
  cycles (calcCycles 8.1 2.7)%float = 180%float /\
  usedSeconds (calcCycles 8.1 2.7)%float = 486.00000000000006%float /\
  (usedSeconds (calcCycles 8.1 2.7) <=? totalSeconds (calcCycles 8.1 2.7))%float = false /\
  (0 <=? leftoverSeconds (calcCycles 8.1 2.7))%float = false.
Proof.
  repeat split; vm_compute; reflexivity.
Qed.

(** ** C5: valuation *)

Section Valuation.

Context {num : Type} {N : JSNumber num}.
Variable nameOf : option num -> string.
Variable priceMap : PriceMap num.
Variables yieldFrac taxPct usedSeconds : num.

Lemma reprocessRow_totalValue (portions : num) (mat : TypeMaterial num) :
  r_totalValue (reprocessRow nameOf priceMap yieldFrac portions mat)
  = knownValue (reprocessRow nameOf priceMap yieldFrac portions mat).
Proof. reflexivity. Qed.

Lemma producedRows_totalValue (m : Mined num) (r : ReprocessRow num) :
  In r (producedRows nameOf priceMap yieldFrac m) -> r_totalValue r = knownValue r.
Proof.
  unfold producedRows. rewrite in_map_iff. intros (entry & <- & _).
  apply reprocessRow_totalValue.
Qed.

Lemma fold_addValue (rows : list (ReprocessRow num)) :
  (forall r, In r rows -> r_totalValue r = knownValue r) ->
  forall acc, fold_left addValue rows acc = fold_left add (omap knownValue rows) acc.
Proof.
  induction rows as [|r rows IH]; intros Hrows acc; [reflexivity|].
  assert (Htail : forall r', In r' rows -> r_totalValue r' = knownValue r')
    by (intros r' Hr'; apply Hrows; now right).
  cbn [fold_left omap list_omap]. unfold addValue at 2.
  rewrite (Hrows r) by now left.
  destruct (knownValue r) as [v|]; cbn [fold_left]; now apply IH.
Qed.


End Valuation.


(** ** C6: ranking *)

Lemma SortKey_eqb_refl (k : SortKey) : SortKey_eqb k k = true.
Proof. now destruct k. Qed.

Lemma clickHeader_twice {num : Type} (state : CompareState num) :
  key (clickHeader (key state) (clickHeader (key state) state)) = key state /\
  dir (clickHeader (key state) (clickHeader (key state) state)) = dir state.
Proof.
  unfold clickHeader. rewrite SortKey_eqb_refl. cbn [key dir selectedTypeId].
  rewrite SortKey_eqb_refl. cbn [key dir selectedTypeId].
  now destruct (dir state).
Qed.

(** What holds in every arithmetic: the displayed rows are a rearrangement
    of the input, rows among which the comparator is never positive keep
    their order, and two clicks on the header of the current key give the
    same order again. *)
Lemma renderComparison_rearranges {num : Type} {N : JSNumber num}
    (rows : list (CandidateRow num)) (state : CompareState num) :
  Permutation (renderComparison rows state) rows /\
  (forall P : CandidateRow num -> bool,
      (forall x y, P x = true -> P y = true -> after (byState state) x y = false) ->
      List.filter P (renderComparison rows state) = List.filter P rows) /\
  renderComparison rows (clickHeader (key state) (clickHeader (key state) state))
  = renderComparison rows state.
Proof.
  unfold renderComparison.
  split; [apply Array_sort_perm|].
  split; [intros P HP; now apply Array_sort_filter|].
  pose proof (clickHeader_twice state) as (Hk & Hd).
  f_equal. unfold byState. now rewrite Hk, Hd.
Qed.



(** ** C7: the order of the reprocessing rows *)

(** C7.  The claim: the output rows are ordered by quantity, larger first,
    ties by identity, smaller first.  [computeReprocessOutputs] orders them
    so ([computeReprocessOutputs_sorted]), but the rows that [onCalculate]
    builds and renders are ordered by total value
    ([candidateRow_rows_by_value]).  For materials 34, 35 and 36 with 100, 5
    and 7 per portion and prices 1, 100 and none, one portion at 100 % is
    rendered as 35 (5 units), 34 (100 units), 36 (7 units); the helper
    orders the same materials 34, 36, 35. *)
Theorem reprocess_rows_ordered_by_value :
  (exists row,
      Scenario.rowsOf 1000 60 1 100 (Scenario.ore 10 100 5 7) = Normal (Some [row]) /\
      Scenario.quantities row
      = [(Some 35, 5); (Some 34, 100); (Some 36, 7)]%float) /\
  map (fun o => (o_typeId o, o_qty o))
      (computeReprocessOutputs 100 100
         [Scenario.material 34 100; Scenario.material 35 5; Scenario.material 36 7] 100)%float
  = [(34, 100); (36, 7); (35, 5)]%float.
Proof.
  split; [|vm_compute; reflexivity].
  eexists. split; [vm_compute; reflexivity|].
  vm_compute. reflexivity.
Qed.

(** ** C8: the security modifier without a rig *)

Lemma baseYield_no_rig_binary64 (basePct rig sec : float) :
  (rig =? 0)%float = true ->
  baseYield basePct rig sec = ((basePct + rig) / 100)%float.
Proof.
  intros Hrig. unfold baseYield. float_ops.
  change (Binary64.of_Q 0) with 0%float.
  rewrite (Binary64_eqb0_ltb0 rig Hrig). reflexivity.
Qed.

Lemma baseYield_no_rig_exact (basePct rig sec : Q) :
  (rig == 0)%Q -> baseYield basePct rig sec = ((basePct + rig) / 100)%Q.
Proof.
  intros Hrig. unfold baseYield. exact_ops.
  assert (Exact.ltb 0 rig = false) as -> by (apply Exact_ltb_false; lra).
  reflexivity.
Qed.

(** C8.  With rigBonusPoints = 0, any two values of securityModPct give the
    same effective yield, in double and in exact arithmetic, whatever the
    other fields are; and basePct = 52, rigBonusPoints = 0, securityModPct =
    10, skills 0, implantPct = 0 give 0.52 exactly (the double that 0.52
    denotes). *)
Theorem security_modifier_needs_rig :
  (forall (f : AdvancedForm float) (sec sec' : float),
      (rigBonusPts f =? 0)%float = true ->
      applyAdvanced (withSecurity f sec) = applyAdvanced (withSecurity f sec')) /\
  (forall (f : AdvancedForm Q) (sec sec' : Q),
      (rigBonusPts f == 0)%Q ->
      applyAdvanced (withSecurity f sec) = applyAdvanced (withSecurity f sec')) /\
  applyAdvanced (num := float) Scenario.scenario4 = 0.52%float /\
  (applyAdvanced (num := Q) Scenario.scenario4 == 0.52)%Q.
Proof.
  split; [|split; [|split]].
  - intros f sec sec' Hrig. unfold applyAdvanced, withSecurity.
    cbn [facilityBasePct rigBonusPts securityModPct skillR skillRE skillOP implantPct].
    now rewrite !(baseYield_no_rig_binary64 _ _ _ Hrig).
  - intros f sec sec' Hrig. unfold applyAdvanced, withSecurity.
    cbn [facilityBasePct rigBonusPts securityModPct skillR skillRE skillOP implantPct].
    now rewrite !(baseYield_no_rig_exact _ _ _ Hrig).
  - vm_compute. reflexivity.
  - vm_compute. reflexivity.
Qed.

(** Scenario 4 with a security modifier of 10 and of 25. *)
Lemma security_modifier_needs_rig_witness :
  applyAdvanced (withSecurity (Scenario.scenario4 (num := float)) 10%float)
  = applyAdvanced (withSecurity (Scenario.scenario4 (num := float)) 25%float).
Proof.
  apply (proj1 security_modifier_needs_rig). vm_compute. reflexivity.
Defined.

(** ** C9: scenario 5 *)

(** C9, as the code has it.  For basePct = 50, rigBonusPoints = 2,
    securityModPct = 10, R = RE = OP = 5 and implantPct = 5: baseYield =
    0.52 * 1.10 = 0.572 and the effective yield is 0.572 * 1.15 * 1.10 *
    1.10 * 1.05 = 0.8357349, below the clamp of 1; in double arithmetic the
    two values are 0.5720000000000001 and 0.8357349000000002. *)
Theorem applyAdvanced_scenario5 :
  (baseYield (num := Q) 50 2 10 == 0.52 * 1.10)%Q /\
  (baseYield (num := Q) 50 2 10 == 0.572)%Q /\
  (applyAdvanced (num := Q) Scenario.scenario5 == 0.572 * 1.15 * 1.10 * 1.10 * 1.05)%Q /\
  (applyAdvanced (num := Q) Scenario.scenario5 == 0.8357349)%Q /\
  (applyAdvanced (num := Q) Scenario.scenario5 < 1)%Q /\
  (baseYield 50 2 10 = 0.57200000000000006)%float /\
  applyAdvanced (num := float) Scenario.scenario5 = 0.83573490000000017%float /\
  (applyAdvanced (num := float) Scenario.scenario5 <? 1)%float = true.
Proof.
  repeat split; vm_compute; reflexivity.
Qed.

(** C9, as claimed, fails: the product is not approximately 0.851; it is
    below 0.84 in both arithmetics. *)
Lemma applyAdvanced_scenario5_not_0_851 :
  (applyAdvanced (num := float) Scenario.scenario5 <? 0.84)%float = true /\
  (applyAdvanced (num := Q) Scenario.scenario5 < 0.84)%Q /\
  (0.572 * 1.15 * 1.10 * 1.10 * 1.05 < 0.84)%Q.
Proof.
  repeat split; vm_compute; reflexivity.
Qed.

(** ** C10: the cap on the number of candidates *)

Section TargetsFacts.

Context {num : Type} {N : JSNumber num}.
Variable resolveTypeIdFromName : string -> Completion (option num).

Lemma resolveEach_cons (nm : string) (rest : list string)
    (targets : list (Target num)) (page : Page) :
  let page' := {| statusLog := statusLog page; lookups := lookups page ++ [nm] |} in
  resolveEach resolveTypeIdFromName (nm :: rest) targets page =
  match resolveTypeIdFromName nm with
  | Normal (Some i) =>
      if truthy i
      then resolveEach resolveTypeIdFromName rest
             (targets ++ [{| t_name := nm; t_typeId := i |}]) page'
      else (Throw (couldNotResolve nm), page')
  | Normal None => (Throw (couldNotResolve nm), page')
  | Throw message => (Throw message, page')
  end.
Proof.
  cbn [resolveEach]. unfold bind, resolve. cbn beta.
  destruct (resolveTypeIdFromName nm) as [[i|]|msg]; try reflexivity.
  now destruct (truthy i).
Qed.

(** The loop leaves the status alone, looks up a prefix of the names it is
    given, in order, and either makes one target per name or stops at a
    name that does not resolve. *)
Lemma resolveEach_spec (names : list string) :
  forall (targets : list (Target num)) (page : Page),
    let run := resolveEach resolveTypeIdFromName names targets page in
    statusLog (snd run) = statusLog page /\
    (exists k, (k <= length names)%nat /\
               lookups (snd run) = lookups page ++ take k names) /\
    (forall ts, fst run = Normal ts ->
                map t_name ts = map t_name targets ++ names) /\
    ((forall nm, In nm names -> resolvable resolveTypeIdFromName nm) ->
     exists ts, fst run = Normal ts) /\
    (forall message, fst run = Throw message ->
                     exists nm, In nm names /\ ~ resolvable resolveTypeIdFromName nm).
Proof.
  assert (Hstop : forall nm rest (page : Page) (c : Completion (list (Target num))),
    ~ resolvable resolveTypeIdFromName nm ->
    (forall ts, c <> Normal ts) ->
    let page' := {| statusLog := statusLog page; lookups := lookups page ++ [nm] |} in
    statusLog page' = statusLog page /\
    (exists k, (k <= length (nm :: rest))%nat /\
               lookups page' = lookups page ++ take k (nm :: rest)) /\
    (forall ts, c = Normal ts -> False) /\
    ((forall nm', In nm' (nm :: rest) -> resolvable resolveTypeIdFromName nm') -> False) /\
    (exists nm', In nm' (nm :: rest) /\ ~ resolvable resolveTypeIdFromName nm')).
  { intros nm rest page c Hno Hc page'. split; [reflexivity|].
    split; [exists 1%nat; split; [cbn; lia | reflexivity]|].
    split; [intros ts Hts; now apply (Hc ts)|].
    split; [intros Hall; apply Hno, Hall; now left|].
    exists nm. split; [now left | exact Hno]. }
  induction names as [|nm rest IH]; intros targets page run; subst run.
  - cbn. split; [reflexivity|]. split.
    { exists 0%nat. split; [lia|]. cbn. now rewrite app_nil_r. }
    split; [intros ts [= <-]; now rewrite app_nil_r|].
    split; [intros _; now eexists | intros message [=]].
  - rewrite resolveEach_cons. cbv zeta.
    destruct (resolveTypeIdFromName nm) as [[i|]|msg] eqn:Eres.
    + destruct (truthy i) eqn:Ei.
      * match goal with
        | |- context [resolveEach _ rest ?t ?p] =>
            specialize (IH t p); cbv zeta in IH;
            destruct IH as (Hst & (k & Hk & Hlook) & Hok & Hall & Hthrow)
        end.
        split; [exact Hst|]. split.
        { exists (S k). split; [cbn; lia|]. rewrite Hlook. cbn [lookups take].
          now rewrite <- app_assoc. }
        split.
        { intros ts Hts. rewrite (Hok ts Hts), map_app. cbn. now rewrite <- app_assoc. }
        split.
        { intros Hres. apply Hall. intros nm' Hnm'. apply Hres. now right. }
        intros message Hm. destruct (Hthrow message Hm) as (nm' & Hin & Hno).
        exists nm'. split; [now right | exact Hno].
      * destruct (Hstop nm rest page (Throw (couldNotResolve nm)))
          as (H1 & H2 & H3 & H4 & H5); [| discriminate |].
        { intros (j & Hj & Hjt). congruence. }
        cbn [fst snd]. split; [exact H1|]. split; [exact H2|].
        split; [intros ts Hts; destruct (H3 ts Hts)|].
        split; [intros Hall; destruct (H4 Hall) | intros message _; exact H5].
    + destruct (Hstop nm rest page (Throw (couldNotResolve nm)))
        as (H1 & H2 & H3 & H4 & H5); [| discriminate |].
      { intros (j & Hj & Hjt). congruence. }
      cbn [fst snd]. split; [exact H1|]. split; [exact H2|].
      split; [intros ts Hts; destruct (H3 ts Hts)|].
      split; [intros Hall; destruct (H4 Hall) | intros message _; exact H5].
    + destruct (Hstop nm rest page (Throw msg))
        as (H1 & H2 & H3 & H4 & H5); [| discriminate |].
      { intros (j & Hj & Hjt). congruence. }
      cbn [fst snd]. split; [exact H1|]. split; [exact H2|].
      split; [intros ts Hts; destruct (H3 ts Hts)|].
      split; [intros Hall; destruct (H4 Hall) | intros message _; exact H5].
Qed.

End TargetsFacts.

Lemma nonEmpty_false (s : string) : nonEmpty s = false -> s = EmptyString.
Proof. now destruct s. Qed.



(* ====================================================================== *)
(** * Further properties of the code *)
(* ====================================================================== *)

(** ** escapeHtml *)

Lemma append_cons (a : ascii) (s t : string) :
  (String a s ++ t)%string = String a (s ++ t)%string.
Proof. reflexivity. Qed.

Lemma append_assoc (s t u : string) :
  ((s ++ t) ++ u)%string = (s ++ (t ++ u))%string.
Proof.
  induction s as [|a s IH]; [reflexivity|].
  now rewrite !append_cons, IH.
Qed.

Lemma replaceAll_app (c : ascii) (r s t : string) :
  replaceAll c r (s ++ t)%string = (replaceAll c r s ++ replaceAll c r t)%string.
Proof.
  induction s as [|a s IH]; [reflexivity|].
  rewrite append_cons. cbn [replaceAll].
  rewrite IH. destruct (Ascii.eqb a c); [|reflexivity].
  now rewrite append_assoc.
Qed.

Lemma escapeHtml_app (s t : string) :
  escapeHtml (s ++ t)%string = (escapeHtml s ++ escapeHtml t)%string.
Proof. unfold escapeHtml. now rewrite !replaceAll_app. Qed.

Lemma escapeHtml_char (a : ascii) : escapeHtml (String a EmptyString) = entity a.
Proof.
  unfold entity.
  destruct (Ascii.eqb_spec a "&") as [->|H1]; [reflexivity|].
  destruct (Ascii.eqb_spec a "<") as [->|H2]; [reflexivity|].
  destruct (Ascii.eqb_spec a ">") as [->|H3]; [reflexivity|].
  destruct (Ascii.eqb_spec a "034") as [->|H4]; [reflexivity|].
  destruct (Ascii.eqb_spec a "'") as [->|H5]; [reflexivity|].
  apply Ascii.eqb_neq in H1, H2, H3, H4, H5.
  unfold escapeHtml. cbn [replaceAll]. rewrite H1. cbn [replaceAll]. rewrite H2.
  cbn [replaceAll]. rewrite H3. cbn [replaceAll]. rewrite H4. cbn [replaceAll].
  now rewrite H5.
Qed.

Lemma escapeHtml_entities (s : string) : escapeHtml s = entities s.
Proof.
  induction s as [|a s IH]; [reflexivity|].
  change (String a s) with (String a EmptyString ++ s)%string.
  rewrite escapeHtml_app, escapeHtml_char, IH. reflexivity.
Qed.

Lemma special_false (a : ascii) :
  special a = false ->
  a <> "&"%char /\ a <> "<"%char /\ a <> ">"%char /\ a <> "034"%char /\ a <> "'"%char.
Proof.
  unfold special. rewrite !orb_false_iff, !Ascii.eqb_neq. tauto.
Qed.

Lemma entity_plain (a : ascii) : special a = false -> entity a = String a EmptyString.
Proof.
  intros H. apply special_false in H as (H1 & H2 & H3 & H4 & H5).
  apply Ascii.eqb_neq in H1, H2, H3, H4, H5.
  unfold entity. now rewrite H1, H2, H3, H4, H5.
Qed.

Lemma unescape_entity (a : ascii) (t : string) :
  unescape (entity a ++ t)%string = option_map (String a) (unescape t).
Proof.
  destruct (special a) eqn:Hs.
  - unfold special in Hs. rewrite !orb_true_iff, !Ascii.eqb_eq in Hs.
    destruct Hs as [[[[-> | ->] | ->] | ->] | ->]; reflexivity.
  - rewrite (entity_plain a Hs). rewrite append_cons.
    change (EmptyString ++ t)%string with t.
    destruct a as [[] [] [] [] [] [] [] []]; try discriminate Hs; reflexivity.
Qed.

(** X1.  [escapeHtml] escapes a text one character at a time: each of the
    five special characters becomes its entity and every other character
    stays; the ampersands that the later replacements bring in are not
    escaped again.  So it goes through concatenation, and a text without
    special characters is returned as it is. *)
Theorem escapeHtml_character_by_character :
  (forall s, escapeHtml s = entities s) /\
  (forall s t, escapeHtml (s ++ t)%string = (escapeHtml s ++ escapeHtml t)%string) /\
  (forall s, forallb (fun a => negb (special a)) (list_ascii_of_string s) = true ->
             escapeHtml s = s).
Proof.
  split; [exact escapeHtml_entities|].
  split; [exact escapeHtml_app|].
  intros s Hs. rewrite escapeHtml_entities.
  induction s as [|a s IH]; [reflexivity|].
  cbn [list_ascii_of_string forallb] in Hs.
  apply andb_true_iff in Hs as [Ha Hs]. apply negb_true_iff in Ha.
  cbn [entities]. rewrite (entity_plain a Ha), IH by exact Hs. reflexivity.
Qed.

(** X2.  Escaped text reads back as the text: it holds no bare [<], [>],
    double or single quote, every ampersand in it begins one of the five
    entities, and the reading gives the original text.  So two texts with
    the same escaped form are the same text. *)
Theorem escapeHtml_unescape :
  (forall s, unescape (escapeHtml s) = Some s) /\
  (forall s t, escapeHtml s = escapeHtml t -> s = t) /\
  (forall s a, In a (list_ascii_of_string (escapeHtml s)) ->
               a <> "<"%char /\ a <> ">"%char /\ a <> "034"%char /\ a <> "'"%char).
Proof.
  assert (Hback : forall s, unescape (escapeHtml s) = Some s).
  { intros s. rewrite escapeHtml_entities.
    induction s as [|a s IH]; [reflexivity|].
    cbn [entities]. now rewrite unescape_entity, IH. }
  split; [exact Hback|].
  split.
  { intros s t Heq. pose proof (Hback s) as Hs. rewrite Heq, Hback in Hs.
    now injection Hs. }
  intros s a. rewrite escapeHtml_entities.
  induction s as [|b s IH]; [intros []|].
  cbn [entities]. intros Hin.
  assert (Hsplit : In a (list_ascii_of_string (entity b))
                   \/ In a (list_ascii_of_string (entities s))).
  { revert Hin. generalize (entity b) as e. intros e.
    induction e as [|c e IHe]; [now right|].
    rewrite append_cons. cbn [list_ascii_of_string In].
    intros [-> | Hin]; [left; now left|].
    destruct (IHe Hin) as [H|H]; [left; now right | now right]. }
  destruct Hsplit as [Hin' | Hin']; [|now apply IH].
  clear IH Hin. destruct (special b) eqn:Hs.
  - unfold special in Hs. rewrite !orb_true_iff, !Ascii.eqb_eq in Hs.
    destruct Hs as [[[[-> | ->] | ->] | ->] | ->]; cbn in Hin';
      repeat (destruct Hin' as [<- | Hin']; [repeat split; discriminate|]);
      contradiction.
  - rewrite (entity_plain b Hs) in Hin'. cbn in Hin'.
    destruct Hin' as [<- | []].
    apply special_false in Hs. tauto.
Qed.

(** ** The names that are looked up *)

Section StripFacts.

Variable w1 : ascii -> bool.
Variable w2 : ascii -> ascii -> bool.
Variable w3 : ascii -> ascii -> ascii -> bool.

Lemma strip_cons (a : ascii) (l1 : list ascii) :
  strip w1 w2 w3 (a :: l1)
  = if w1 a then strip w1 w2 w3 l1
    else match l1 with
         | b :: l2 =>
             if w2 a b then strip w1 w2 w3 l2
             else match l2 with
                  | c :: l3 => if w3 a b c then strip w1 w2 w3 l3 else a :: l1
                  | [] => a :: l1
                  end
         | [] => a :: l1
         end.
Proof. destruct l1 as [|b [|c l3]]; reflexivity. Qed.

(** [strip] takes off one white space after the other. *)
Lemma strip_leading (l : list ascii) :
  strip w1 w2 w3 l
  = match leading w1 w2 w3 l with
    | Some r => strip w1 w2 w3 r
    | None => l
    end.
Proof.
  destruct l as [|a l1]; [reflexivity|].
  rewrite strip_cons. unfold leading.
  destruct (w1 a); [reflexivity|].
  destruct l1 as [|b l2]; [reflexivity|].
  destruct (w2 a b); [reflexivity|].
  destruct l2 as [|c l3]; [reflexivity|].
  destruct (w3 a b c); reflexivity.
Qed.

Lemma leading_shorter (l r : list ascii) :
  leading w1 w2 w3 l = Some r -> exists p, l = p ++ r /\ (0 < length p)%nat.
Proof.
  unfold leading. destruct l as [|a l1]; [discriminate|].
  destruct (w1 a).
  { intros [= <-]. exists [a]. split; [reflexivity | cbn; lia]. }
  destruct l1 as [|b l2]; [discriminate|].
  destruct (w2 a b).
  { intros [= <-]. exists [a; b]. split; [reflexivity | cbn; lia]. }
  destruct l2 as [|c l3]; [discriminate|].
  destruct (w3 a b c); [|discriminate].
  intros [= <-]. exists [a; b; c]. split; [reflexivity | cbn; lia].
Qed.

(** What [strip] leaves is the end of the text, and begins with no white
    space. *)
Lemma strip_spec (l : list ascii) :
  (exists p, l = p ++ strip w1 w2 w3 l) /\ leading w1 w2 w3 (strip w1 w2 w3 l) = None.
Proof.
  remember (length l) as n eqn:Hn. revert l Hn.
  induction n as [n IH] using lt_wf_ind. intros l ->.
  rewrite strip_leading. destruct (leading w1 w2 w3 l) as [r|] eqn:E.
  - destruct (leading_shorter _ _ E) as (p & -> & Hp).
    destruct (IH (length r)) with (l := r) as ((q & Hq) & Hclean);
      [rewrite length_app; lia | reflexivity |].
    split; [|exact Hclean].
    exists (p ++ q). rewrite <- app_assoc. now rewrite <- Hq.
  - split; [exists []; reflexivity | exact E].
Qed.

Lemma strip_id (l : list ascii) :
  leading w1 w2 w3 l = None -> strip w1 w2 w3 l = l.
Proof. intros E. now rewrite strip_leading, E. Qed.

Lemma strip_idem (l : list ascii) :
  strip w1 w2 w3 (strip w1 w2 w3 l) = strip w1 w2 w3 l.
Proof. apply strip_id, strip_spec. Qed.

(** A text that begins with no white space has no beginning that does. *)
Lemma leading_prefix (p q : list ascii) :
  leading w1 w2 w3 (p ++ q) = None -> leading w1 w2 w3 p = None.
Proof.
  unfold leading. destruct p as [|a p1]; [reflexivity|]. cbn [app].
  destruct (w1 a); [discriminate|].
  destruct p1 as [|b p2]; [reflexivity|]. cbn [app].
  destruct (w2 a b); [discriminate|].
  destruct p2 as [|c p3]; [reflexivity|]. cbn [app].
  destruct (w3 a b c); [discriminate | reflexivity].
Qed.

End StripFacts.

Lemma trim_idem (s : string) : trim (trim s) = trim s.
Proof.
  unfold trim, trimEnd, trimStart.
  rewrite !list_ascii_of_string_of_list_ascii.
  set (fwd := strip is_space is_space2 is_space3).
  set (bwd := strip is_space _ _).
  set (t := fwd (list_ascii_of_string s)).
  assert (Hclean : leading is_space is_space2 is_space3 t = None) by apply strip_spec.
  destruct (proj1 (strip_spec is_space (fun b a => is_space2 a b)
                     (fun c b a => is_space3 a b c) (rev t))) as (p & Hp).
  fold bwd in Hp.
  assert (Ht : t = rev (bwd (rev t)) ++ rev p).
  { rewrite <- rev_app_distr, <- Hp. now rewrite rev_involutive. }
  assert (Hu : fwd (rev (bwd (rev t))) = rev (bwd (rev t))).
  { apply strip_id. apply (leading_prefix _ _ _ _ (rev p)). now rewrite <- Ht. }
  rewrite Hu, rev_involutive. unfold bwd. now rewrite strip_idem.
Qed.

Lemma trim_In (a : ascii) (s : string) :
  In a (list_ascii_of_string (trim s)) -> In a (list_ascii_of_string s).
Proof.
  unfold trim, trimEnd, trimStart.
  rewrite !list_ascii_of_string_of_list_ascii.
  set (fwd := strip is_space is_space2 is_space3).
  set (bwd := strip is_space _ _).
  destruct (proj1 (strip_spec is_space is_space2 is_space3 (list_ascii_of_string s)))
    as (p & Hp).
  fold fwd in Hp.
  destruct (proj1 (strip_spec is_space (fun b a => is_space2 a b)
                     (fun c b a => is_space3 a b c)
                     (rev (fwd (list_ascii_of_string s))))) as (q & Hq).
  fold bwd in Hq.
  intros Hin. rewrite Hp. apply in_or_app. right.
  apply in_rev. rewrite Hq. apply in_or_app. right. now apply in_rev.
Qed.

(** A no-break space and a byte order mark are trimmed like a blank, and
    a field that holds nothing else is no name. *)
Lemma trim_no_break_space :
  let nbsp := String "194" (String "160" EmptyString) in
  let bom := String "239" (String "187" (String "191" EmptyString)) in
  trim (nbsp ++ " Veldspar" ++ bom ++ nbsp)%string = "Veldspar"%string /\
  namesOf ("Veldspar," ++ nbsp ++ ",Scordite" ++ nbsp)%string
  = ["Veldspar"; "Scordite"]%string /\
  length (namesOf ("a,b,c,d,e,f,g,h,i,j,k,l," ++ nbsp)%string) = 12%nat.
Proof. vm_compute. repeat split. Qed.

Lemma split_comma_no_comma (s : string) :
  Forall (fun w => ~ In ","%char (list_ascii_of_string w)) (split_comma s).
Proof.
  induction s as [|c s IH]; cbn [split_comma].
  - constructor; [intros [] | constructor].
  - destruct (Ascii.eqb_spec c ",") as [-> | Hc].
    + constructor; [intros [] | exact IH].
    + destruct (split_comma s) as [|w ws].
      * constructor; [|constructor]. cbn. intros [H | []]. now apply Hc.
      * apply Forall_cons in IH as [Hw Hws]. constructor; [|exact Hws].
        cbn. intros [H | H]; [now apply Hc | now apply Hw].
Qed.

(** X3.  The names that [onCalculate] takes from the name field are clean
    whatever is typed: none is empty, none begins or ends with white space,
    that of Unicode included (trimming it again changes nothing), and none
    holds a comma.  So the lookup never receives a blank name. *)
Theorem namesOf_clean (materialNameInput : string) :
  Forall (fun nm => nonEmpty nm = true /\ trim nm = nm
                    /\ ~ In ","%char (list_ascii_of_string nm))
         (namesOf materialNameInput).
Proof.
  unfold namesOf. apply Forall_forall. intros nm Hin.
  apply list_elem_of_In, List.filter_In in Hin as [Hin Hne].
  apply List.in_map_iff in Hin as (w & <- & Hw).
  split; [exact Hne|]. split; [apply trim_idem|].
  pose proof (split_comma_no_comma materialNameInput) as Hall.
  rewrite Forall_forall in Hall. specialize (Hall w (proj2 (list_elem_of_In _ _) Hw)).
  intros Hc. apply Hall. now apply (trim_In _ w).
Qed.

(** ** Yields and inputs on doubles *)

(** A yield percent that is NaN gives a yield fraction that is NaN. *)
Lemma yieldFracOf_nan (reprocessYieldPct : float) :
  is_nan reprocessYieldPct = true -> is_nan (yieldFracOf reprocessYieldPct) = true.
Proof.
  intros Hp. unfold yieldFracOf. float_ops.
  change (Binary64.of_Q 0) with 0%float. change (Binary64.of_Q 1) with 1%float.
  change (Binary64.of_Q 100) with 100%float.
  destruct (Binary64_unit_clamp (reprocessYieldPct / 100)) as [Hnan _].
  apply Hnan. apply Binary64_div_nan. now rewrite Hp.
Qed.

(** X4.  On doubles, the yield fraction that [onCalculate] uses is a number
    between 0 and 1 for every number typed as the yield percent, however
    large or small, infinite included; it is NaN exactly when the percent
    is NaN. *)
Theorem yieldFracOf_binary64 (reprocessYieldPct : float) :
  is_nan (yieldFracOf reprocessYieldPct) = is_nan reprocessYieldPct /\
  (is_nan reprocessYieldPct = true \/
   ((0 <=? yieldFracOf reprocessYieldPct)%float = true /\
    (yieldFracOf reprocessYieldPct <=? 1)%float = true)).
Proof.
  unfold yieldFracOf. float_ops.
  change (Binary64.of_Q 0) with 0%float. change (Binary64.of_Q 1) with 1%float.
  change (Binary64.of_Q 100) with 100%float.
  destruct (Binary64_unit_clamp (reprocessYieldPct / 100)) as [Hnan Hnum].
  destruct (is_nan reprocessYieldPct) eqn:Hp.
  - split; [|now left]. apply Hnan. apply Binary64_div_nan. now rewrite Hp.
  - assert (Hd : is_nan (reprocessYieldPct / 100)%float = false).
    { eapply Binary64_div_not_nan; [exact Hp|]. vm_compute. reflexivity. }
    destruct (Hnum Hd) as (H1 & H2 & H3). split; [exact H1 | now right].
Qed.

(** X5.  On doubles, the yield that the advanced form applies is NaN or a
    number between 0 and 1, whatever is typed into the form: overflow in
    the product cannot push it out of the range. *)
Theorem applyAdvanced_binary64_range (f : AdvancedForm float) :
  is_nan (applyAdvanced f) = true \/
  ((0 <=? applyAdvanced f)%float = true /\ (applyAdvanced f <=? 1)%float = true).
Proof.
  unfold applyAdvanced.
  cbn [Math_max Math_min Binary64.number].
  change (@lit float Binary64.number 0) with 0%float.
  change (@lit float Binary64.number 1) with 1%float.
  match goal with
  | |- context [Binary64.max 0 (Binary64.min 1 ?e)] =>
      destruct (Binary64_unit_clamp e) as [Hnan Hnum];
      destruct (is_nan e) eqn:He
  end.
  - left. now apply Hnan.
  - right. now apply Hnum.
Qed.

Lemma reprocessRow_nan_yield
    (nameOf : option float -> string) (priceMap : PriceMap float)
    (yieldFrac portions : float) (mat : TypeMaterial float) :
  is_nan yieldFrac = true ->
  is_nan (r_qty (reprocessRow nameOf priceMap yieldFrac portions mat)) = true.
Proof.
  intros Hy. unfold reprocessRow. cbn [r_qty]. float_ops.
  apply Binary64_floor_nan, Binary64_mul_nan. now rewrite Hy, orb_true_r.
Qed.

(** X6.  [onCalculate] checks the yield per cycle, the cycle time and the
    duration, but not the reprocessing yield: whether a calculation is
    refused, stops for want of a full cycle or builds its rows never
    depends on that field; and when the field does not parse to a number
    (NaN), every reprocessed quantity of the rows that are built is NaN. *)
Theorem onCalculate_rows_nan_yield
    (yieldPerCycle cycleTimeSeconds durationMinutes reprocessYieldPct taxPct : float)
    (targets : list (Target float * TypeData float))
    (nameOf : option float -> string) (priceMap : PriceMap float) :
  let run := fun pct => onCalculate_rows yieldPerCycle cycleTimeSeconds durationMinutes
                          pct taxPct targets nameOf priceMap in
  (forall other,
      match run reprocessYieldPct, run other with
      | Normal (Some rows), Normal (Some rows') => length rows = length rows'
      | Normal None, Normal None => True
      | Throw message, Throw message' => message = message'
      | _, _ => False
      end) /\
  (is_nan reprocessYieldPct = true ->
   forall rows, run reprocessYieldPct = Normal (Some rows) ->
     Forall (fun row => Forall (fun r => is_nan (r_qty r) = true) (reprocessRows row)) rows).
Proof.
  intros run. subst run. cbv beta. unfold onCalculate_rows. split.
  - intros other.
    destruct (negb _); [reflexivity|].
    destruct (negb _); [reflexivity|].
    destruct (negb _); [reflexivity|].
    destruct (le _ _); [exact I|].
    now rewrite !length_map.
  - intros Hp rows.
    destruct (negb _); [discriminate|].
    destruct (negb _); [discriminate|].
    destruct (negb _); [discriminate|].
    destruct (le _ _); [discriminate|].
    intros [= <-].
    pose proof (yieldFracOf_nan reprocessYieldPct Hp) as Hy.
    apply Forall_forall. intros row Hrow.
    apply list_elem_of_In, List.in_map_iff in Hrow as (m & <- & _).
    unfold candidateRow. cbn [reprocessRows].
    apply Forall_forall. intros r Hr.
    rewrite Array_sort_perm in Hr.
    unfold producedRows in Hr.
    apply list_elem_of_In, List.in_map_iff in Hr as (entry & <- & _).
    now apply reprocessRow_nan_yield.
Qed.

(** With a NaN yield, one cycle of the scenario ore still gives a row, with
    three NaN quantities. *)
Lemma onCalculate_rows_nan_yield_witness :
  exists row,
    Scenario.rowsOf 1000 60 1 nan (Scenario.ore 10 100 5 7) = Normal (Some [row]) /\
    length (reprocessRows row) = 3%nat /\
    Forall (fun r => is_nan (r_qty r) = true) (reprocessRows row).
Proof.
  eexists. split; [vm_compute; reflexivity|]. split; [reflexivity|].
  pose proof (proj2 (onCalculate_rows_nan_yield 1000 60 1 nan 0
                [(Scenario.target, Scenario.ore 10 100 5 7)]
                Scenario.nameOf (Scenario.prices Scenario.isId)) eq_refl _ eq_refl) as H.
  now apply Forall_cons in H as [H _].
Defined.

(** X7.  On doubles, a NaN (a field that does not parse) in the yield per
    cycle, the cycle time or the duration is always refused, with the
    message of the first check that fails; and when rows are built, those
    three inputs are numbers, the first two positive and the third not
    negative, and there is one row per target, in the order of the
    targets. *)
Theorem onCalculate_rows_checks
    (yieldPerCycle cycleTimeSeconds durationMinutes reprocessYieldPct taxPct : float)
    (targets : list (Target float * TypeData float))
    (nameOf : option float -> string) (priceMap : PriceMap float) :
  let run := onCalculate_rows yieldPerCycle cycleTimeSeconds durationMinutes
               reprocessYieldPct taxPct targets nameOf priceMap in
  (is_nan yieldPerCycle = true -> run = Throw "Yield per cycle must be > 0.") /\
  (is_nan cycleTimeSeconds = true ->
   run = Throw "Yield per cycle must be > 0." \/ run = Throw "Cycle time must be > 0.") /\
  (is_nan durationMinutes = true -> exists message, run = Throw message) /\
  (forall rows, run = Normal (Some rows) ->
     is_nan yieldPerCycle = false /\ (0 <? yieldPerCycle)%float = true /\
     is_nan cycleTimeSeconds = false /\ (0 <? cycleTimeSeconds)%float = true /\
     is_nan durationMinutes = false /\ (0 <=? durationMinutes)%float = true /\
     map typeId rows = map (fun t => t_typeId (fst t)) targets).
Proof.
  intros run. subst run. unfold onCalculate_rows. float_ops.
  change (Binary64.of_Q 0) with 0%float.
  assert (Hlt : forall x, is_nan x = true -> (0 <? x)%float = false)
    by (intros x Hx; apply Binary64_ltb_nan; now rewrite Hx, orb_true_r).
  assert (Hle : forall x, is_nan x = true -> (0 <=? x)%float = false)
    by (intros x Hx; apply Binary64_leb_nan; now rewrite Hx, orb_true_r).
  assert (Hnum : forall x, (0 <? x)%float = true -> is_nan x = false).
  { intros x Hx. destruct (is_nan x) eqn:E; [|reflexivity].
    rewrite (Hlt x E) in Hx. discriminate. }
  assert (Hnum' : forall x, (0 <=? x)%float = true -> is_nan x = false).
  { intros x Hx. destruct (is_nan x) eqn:E; [|reflexivity].
    rewrite (Hle x E) in Hx. discriminate. }
  split; [|split; [|split]].
  - intros Hy. now rewrite (Hlt _ Hy).
  - intros Hc. destruct (0 <? yieldPerCycle)%float; [|now left].
    right. now rewrite (Hlt _ Hc).
  - intros Hd. destruct (0 <? yieldPerCycle)%float; [|eauto].
    destruct (0 <? cycleTimeSeconds)%float; [|eauto].
    rewrite (Hle _ Hd). eauto.
  - intros rows.
    destruct (0 <? yieldPerCycle)%float eqn:Hy; [|discriminate].
    destruct (0 <? cycleTimeSeconds)%float eqn:Hc; [|discriminate].
    destruct (0 <=? durationMinutes)%float eqn:Hd; [|discriminate].
    cbn [negb].
    destruct (_ <=? 0)%float; [discriminate|].
    intros [= <-].
    repeat split; auto.
    rewrite !map_map. reflexivity.
Qed.

(** ** Prices from Fuzzwork *)

Section FuzzworkFacts.

Context {num : Type} {N : JSNumber num} {K : JSMapKey num}.

Lemma Set_add_In (s : list num) (x y : num) :
  In y (Set_add s x) -> In y s \/ y = x.
Proof.
  unfold Set_add. destruct (existsb _ s); [now left|].
  rewrite in_app_iff. cbn. intros [H | [H | []]]; auto.
Qed.

Lemma Set_from_In (l : list num) (y : num) : In y (Set_from l) -> In y l.
Proof.
  unfold Set_from.
  assert (H : forall s, In y (fold_left Set_add l s) -> In y s \/ In y l).
  { induction l as [|x l IH]; intros s; cbn [fold_left]; [now left|].
    intros Hy. destruct (IH _ Hy) as [Hs | Hl]; [|right; now right].
    destruct (Set_add_In _ _ _ Hs) as [Hs' | ->]; [now left | right; now left]. }
  intros Hy. destruct (H [] Hy) as [[] | Hl]. exact Hl.
Qed.

Lemma validTypeIds_valid (typeIds : list (option num)) (x : num) :
  In x (validTypeIds typeIds) -> validTypeId x /\ In (Some x) typeIds.
Proof.
  unfold validTypeIds. intros Hx. apply Set_from_In in Hx.
  apply List.filter_In in Hx as [Hin Hok].
  apply andb_true_iff in Hok. split; [exact Hok|].
  apply list_elem_of_In, list_elem_of_omap in Hin as (o & Ho & Hid).
  cbn in Hid. subst o. now apply list_elem_of_In.
Qed.

Section MapFacts.

Context {V : Type}.

Lemma Map_get_In (m : list (num * V)) (k : num) (v : V) :
  Map_get m k = Some v -> exists k', In (k', v) m.
Proof.
  induction m as [|[k0 v0] m IH]; cbn [Map_get]; [discriminate|].
  destruct (sameValueZero k0 k).
  - intros [= ->]. exists k0. now left.
  - intros H. destruct (IH H) as [k' Hk']. exists k'. now right.
Qed.

Lemma Map_set_keys (m : list (num * V)) (k : num) (v : V) (k' : num) :
  In k' (map fst (Map_set m k v)) -> In k' (map fst m) \/ k' = k.
Proof.
  induction m as [|[k0 v0] m IH]; cbn [Map_set].
  - cbn. intros [<- | []]. now right.
  - destruct (sameValueZero k0 k); cbn [map fst In]; [now left|].
    intros [<- | H]; [left; now left|].
    destruct (IH H) as [H' | ->]; [left; now right | now right].
Qed.

Variable P : num -> V -> Prop.

Lemma Map_set_Forall (m : list (num * V)) (k : num) (v : V) :
  Forall (fun kv => P (fst kv) (snd kv)) m ->
  P k v ->
  (forall k', In k' (map fst m) -> sameValueZero k' k = true -> P k' v) ->
  Forall (fun kv => P (fst kv) (snd kv)) (Map_set m k v).
Proof.
  intros Hm Hk Hk'. induction Hm as [|[k0 v0] m H0 Hm IH]; cbn [Map_set].
  - repeat constructor. exact Hk.
  - destruct (sameValueZero k0 k) eqn:E.
    + constructor; [|exact Hm]. cbn. apply Hk'; [now left | exact E].
    + constructor; [exact H0|]. apply IH. intros k' Hin. apply Hk'. now right.
Qed.

End MapFacts.

Lemma positiveOrNull_positive (v : option num) : nullOrPositive (positiveOrNull v).
Proof.
  unfold nullOrPositive, positiveOrNull. intros p.
  destruct (lt (lit 0) (default (lit 0) v)) eqn:E; [|discriminate].
  now intros [= <-].
Qed.

(** The entries that the loop of [getPricesFuzzwork] leaves. *)
Lemma getPricesFuzzwork_entries
    (fetchJson : list num -> Completion (num -> option (Aggregate num)))
    (typeIds : list (option num)) (prices : list (num * PriceQuote num)) :
  getPricesFuzzwork fetchJson typeIds = Normal prices ->
  Forall (fun kv => (validTypeId (fst kv) /\ In (Some (fst kv)) typeIds)
                    /\ nullOrPositive (sellMin (snd kv))
                    /\ nullOrPositive (buyMax (snd kv))) prices.
Proof.
  unfold getPricesFuzzwork.
  destruct (length (validTypeIds typeIds) =? 0)%nat; [intros [= <-]; constructor|].
  destruct (fetchJson (validTypeIds typeIds)) as [data|message]; [|discriminate].
  intros [= <-].
  set (quote := fun id : num =>
    {| sellMin := positiveOrNull (data id ≫= sell_min);
       buyMax := positiveOrNull (data id ≫= buy_max) |}).
  assert (Hall : forall (ids : list num) (out : list (num * PriceQuote num)),
    (forall x, In x ids -> validTypeId x /\ In (Some x) typeIds) ->
    Forall (fun kv => (validTypeId (fst kv) /\ In (Some (fst kv)) typeIds)
                      /\ nullOrPositive (sellMin (snd kv))
                      /\ nullOrPositive (buyMax (snd kv))) out ->
    Forall (fun kv => (validTypeId (fst kv) /\ In (Some (fst kv)) typeIds)
                      /\ nullOrPositive (sellMin (snd kv))
                      /\ nullOrPositive (buyMax (snd kv)))
           (fold_left (fun out id => Map_set out id (quote id)) ids out)).
  { induction ids as [|x ids IH]; intros out Hids Hout; cbn [fold_left]; [exact Hout|].
    apply IH; [intros y Hy; apply Hids; now right|].
    apply (Map_set_Forall
             (fun k q => (validTypeId k /\ In (Some k) typeIds)
                         /\ nullOrPositive (sellMin q) /\ nullOrPositive (buyMax q))).
    - exact Hout.
    - split; [apply Hids; now left|].
      split; apply positiveOrNull_positive.
    - intros k' Hk' _. rewrite Forall_forall in Hout.
      apply List.in_map_iff in Hk' as ([k0 q0] & <- & Hin).
      split; [exact (proj1 (Hout _ (proj2 (list_elem_of_In _ _) Hin)))|].
      split; apply positiveOrNull_positive. }
  exact (Hall (validTypeIds typeIds) []
           (fun x Hx => validTypeIds_valid typeIds x Hx) (Forall_nil_2 _)).
Qed.

Lemma getPriceSellMin_nullOrPositive (prices : list (num * PriceQuote num)) :
  Forall (fun kv => nullOrPositive (sellMin (snd kv))) prices ->
  forall id, nullOrPositive (getPriceSellMin (Map_get prices) id).
Proof.
  intros Hall id p Hp. unfold getPriceSellMin in Hp.
  destruct (Map_get prices id) as [q|] eqn:Hq; [|discriminate].
  apply Map_get_In in Hq as [k' Hk'].
  rewrite Forall_forall in Hall.
  exact (Hall _ (proj2 (list_elem_of_In _ _) Hk') p Hp).
Qed.

Lemma getPricesFuzzwork_sellMin
    (fetchJson : list num -> Completion (num -> option (Aggregate num)))
    (typeIds : list (option num)) (prices : list (num * PriceQuote num)) :
  getPricesFuzzwork fetchJson typeIds = Normal prices ->
  forall id, nullOrPositive (getPriceSellMin (Map_get prices) id).
Proof.
  intros Hp. apply getPriceSellMin_nullOrPositive.
  eapply Forall_impl; [exact (getPricesFuzzwork_entries _ _ _ Hp)|].
  intros kv H. apply H.
Qed.

(** X8.  The price map that [getPricesFuzzwork] builds has entries only for
    ids that were asked for and are finite numbers above 0, and every sell
    and buy price in it is [null] or positive: a zero, negative or missing
    aggregate is stored as [null], so [getPriceSellMin] never gives a price
    that is not positive.  When no id is valid the map is empty and no
    request is made; a failed request is the only error. *)
Theorem getPricesFuzzwork_prices
    (fetchJson : list num -> Completion (num -> option (Aggregate num)))
    (typeIds : list (option num)) :
  match getPricesFuzzwork fetchJson typeIds with
  | Normal prices =>
      Forall (fun kv => (validTypeId (fst kv) /\ In (Some (fst kv)) typeIds)
                        /\ nullOrPositive (sellMin (snd kv))
                        /\ nullOrPositive (buyMax (snd kv))) prices /\
      (forall id, nullOrPositive (getPriceSellMin (Map_get prices) id)) /\
      (validTypeIds typeIds = [] -> prices = [])
  | Throw message =>
      validTypeIds typeIds <> [] /\ fetchJson (validTypeIds typeIds) = Throw message
  end.
Proof.
  destruct (getPricesFuzzwork fetchJson typeIds) as [prices|message] eqn:E.
  - split; [exact (getPricesFuzzwork_entries _ _ _ E)|].
    split; [exact (getPricesFuzzwork_sellMin _ _ _ E)|].
    intros Hnone. unfold getPricesFuzzwork in E. rewrite Hnone in E.
    cbn in E. now injection E.
  - unfold getPricesFuzzwork in E.
    destruct (length (validTypeIds typeIds) =? 0)%nat eqn:Hlen; [discriminate|].
    split; [intros Hnone; rewrite Hnone in Hlen; discriminate|].
    destruct (fetchJson (validTypeIds typeIds)); [discriminate | now injection E as ->].
Qed.

End FuzzworkFacts.

(** ** The calculation in exact arithmetic *)

Lemma Exact_max_spec (x y : Q) :
  (x <= Exact.max x y)%Q /\ (y <= Exact.max x y)%Q /\
  (Exact.max x y = x \/ Exact.max x y = y).
Proof. unfold Exact.max. exact_cases; repeat split; auto; lra. Qed.

Lemma Exact_min_spec (x y : Q) :
  (Exact.min x y <= x)%Q /\ (Exact.min x y <= y)%Q /\
  (Exact.min x y = x \/ Exact.min x y = y).
Proof. unfold Exact.min. exact_cases; repeat split; auto; lra. Qed.

Lemma Exact_floor_mono (x y : Q) : (x <= y)%Q -> (Exact.floor x <= Exact.floor y)%Q.
Proof.
  intros Hxy. unfold Exact.floor. rewrite <- Zle_Qle. now apply Qfloor_resp_le.
Qed.

Lemma Exact_floor_nonneg (x : Q) : (0 <= x)%Q -> (0 <= Qfloor x)%Z.
Proof. intros Hx. change 0%Z with (Qfloor 0). now apply Qfloor_resp_le. Qed.

Lemma Exact_div_100_mono (x y : Q) : (x <= y)%Q -> (x / 100 <= y / 100)%Q.
Proof. intros Hxy. unfold Qdiv. apply Qmult_le_compat_r; [exact Hxy | discriminate]. Qed.

Lemma yieldFracOf_exact (pct : Q) : (0 <= yieldFracOf pct <= 1)%Q.
Proof.
  unfold yieldFracOf. exact_ops.
  pose proof (Exact_min_spec 1 (pct / 100)) as (H1 & H2 & H3).
  pose proof (Exact_max_spec 0 (Exact.min 1 (pct / 100))) as (H4 & H5 & [H6 | H6]).
  - rewrite H6. lra.
  - rewrite H6. split; [|exact H1]. rewrite <- H6. exact H4.
Qed.

Lemma Exact_min_mono (x a b : Q) : (a <= b)%Q -> (Exact.min x a <= Exact.min x b)%Q.
Proof.
  intros Hab.
  pose proof (Exact_min_spec x a) as (H1 & H2 & _).
  pose proof (Exact_min_spec x b) as (_ & _ & [H | H]); rewrite H; lra.
Qed.

Lemma Exact_max_mono (x a b : Q) : (a <= b)%Q -> (Exact.max x a <= Exact.max x b)%Q.
Proof.
  intros Hab.
  pose proof (Exact_max_spec x b) as (H1 & H2 & _).
  pose proof (Exact_max_spec x a) as (_ & _ & [H | H]); rewrite H; lra.
Qed.

Lemma yieldFracOf_exact_mono (p1 p2 : Q) :
  (p1 <= p2)%Q -> (yieldFracOf p1 <= yieldFracOf p2)%Q.
Proof.
  intros Hp. apply Exact_div_100_mono in Hp.
  unfold yieldFracOf. exact_ops.
  now apply Exact_max_mono, Exact_min_mono.
Qed.

(** [q || 0] is [q]. *)
Lemma Exact_or_0 (q : Q) : ((if truthy q then q else lit 0) == q)%Q.
Proof.
  exact_ops. destruct (Qeq_bool q 0) eqn:E; cbn [negb]; [|reflexivity].
  apply Qeq_bool_iff in E. now rewrite E.
Qed.

(** The quantity per portion that [reprocessRow] reads. *)
Lemma baseQty_exact (mat : TypeMaterial Q) :
  (match quantity mat with
   | Some q => if truthy q then q else lit 0
   | None => lit 0
   end == default 0 (quantity mat))%Q.
Proof. destruct (quantity mat) as [q|]; [apply Exact_or_0 | reflexivity]. Qed.

Lemma portionsOf_exact (m : Mined Q) :
  (0 <= m_unitsMined m)%Q ->
  let portion := Exact.max 1 (if truthy (portionSize (m_typeData m))
                              then portionSize (m_typeData m) else 1) in
  (1 <= portion)%Q /\ (0 <= portionsOf m)%Q /\
  (portionsOf m * portion <= m_unitsMined m)%Q /\
  (m_unitsMined m < (portionsOf m + 1) * portion)%Q.
Proof.
  intros Hu portion.
  assert (Hp : (1 <= portion)%Q) by apply Exact_max_spec.
  unfold portionsOf. exact_ops. fold portion.
  set (q := (m_unitsMined m / portion)%Q).
  assert (Hq : (q * portion == m_unitsMined m)%Q) by (unfold q; field; lra).
  assert (Hq0 : (0 <= q)%Q).
  { unfold q, Qdiv. apply Qmult_le_0_compat; [exact Hu|].
    apply Qinv_le_0_compat. lra. }
  pose proof (Exact_floor_le q) as Hlo.
  pose proof (Exact_floor_lt q) as Hhi.
  pose proof (Exact_floor_nonneg q Hq0) as Hn.
  assert (Hf0 : (0 <= Exact.floor q)%Q)
    by (unfold Exact.floor; now rewrite <- (Zle_Qle 0)).
  split; [exact Hp|]. split; [exact Hf0|]. split.
  - rewrite <- Hq. apply Qmult_le_compat_r; lra.
  - rewrite <- Hq. apply Qmult_lt_compat_r; lra.
Qed.

Lemma reprocessRow_exact
    (nameOf : option Q -> string) (priceMap : PriceMap Q)
    (pct portions : Q) (mat : TypeMaterial Q) :
  (0 <= portions)%Q ->
  (0 <= default 0 (quantity mat))%Q ->
  let r := reprocessRow nameOf priceMap (yieldFracOf pct) portions mat in
  r_typeId r = material_type_id mat /\
  r_qty r = inject_Z (Qfloor (r_qty r)) /\
  (0 <= r_qty r)%Q /\
  (r_qty r <= portions * default 0 (quantity mat))%Q.
Proof.
  intros Hp Hq r. subst r. unfold reprocessRow. cbn [r_typeId r_qty].
  pose proof (baseQty_exact mat) as Hb. exact_ops.
  set (b := match quantity mat with Some q => _ | None => _ end) in *.
  pose proof (yieldFracOf_exact pct) as [Hy0 Hy1].
  set (y := yieldFracOf pct) in *.
  assert (Hpb : (0 <= portions * b)%Q)
    by (apply Qmult_le_0_compat; [exact Hp | now rewrite Hb]).
  assert (H0 : (0 <= portions * b * y)%Q) by (now apply Qmult_le_0_compat).
  assert (H1 : (portions * b * y <= portions * b)%Q).
  { rewrite <- (Qmult_1_r (portions * b)) at 2.
    rewrite (Qmult_comm (portions * b) y), (Qmult_comm (portions * b) 1).
    now apply Qmult_le_compat_r. }
  pose proof (Exact_floor_le (portions * b * y)) as Hlo.
  pose proof (Exact_floor_nonneg _ H0) as Hn.
  split; [reflexivity|]. split.
  - unfold Exact.floor. now rewrite Qfloor_Z.
  - split.
    + unfold Exact.floor. now rewrite <- (Zle_Qle 0).
    + rewrite <- Hb. lra.
Qed.

Lemma portionsOf_portionOf {num : Type} {N : JSNumber num} (m : Mined num) :
  portionsOf m = Math_floor (div (m_unitsMined m) (portionOf (m_typeData m))).
Proof. reflexivity. Qed.

(** X9.  In exact arithmetic, for mined units and material quantities that
    are not negative: every row of the reprocessing table comes from a
    material of the type, and its quantity is a whole number, at least 0,
    and at most what the mined units hold at a yield of 100 %, that is
    quantity * portion <= units * quantity per portion, whatever yield
    percent is typed. *)
Theorem candidateRow_quantities_exact
    (nameOf : option Q -> string) (priceMap : PriceMap Q)
    (reprocessYieldPct taxPct usedSeconds : Q) (m : Mined Q) :
  (0 <= m_unitsMined m)%Q ->
  Forall (fun e => (0 <= default 0 (quantity (snd e)))%Q) (typeMaterials (m_typeData m)) ->
  Forall (fun r =>
            exists e, In e (typeMaterials (m_typeData m)) /\
                      r_typeId r = material_type_id (snd e) /\
                      r_qty r = inject_Z (Qfloor (r_qty r)) /\
                      (0 <= r_qty r)%Q /\
                      (r_qty r * portionOf (m_typeData m)
                       <= m_unitsMined m * default 0 (quantity (snd e)))%Q)
         (reprocessRows (candidateRow nameOf priceMap (yieldFracOf reprocessYieldPct)
                           taxPct usedSeconds m)).
Proof.
  intros Hu Hq. unfold candidateRow. cbn [reprocessRows].
  apply Forall_forall. intros r Hr. rewrite Array_sort_perm in Hr.
  unfold producedRows in Hr.
  apply list_elem_of_In, List.in_map_iff in Hr as (e & <- & He).
  rewrite Forall_forall in Hq. specialize (Hq e (proj2 (list_elem_of_In _ _) He)).
  destruct (portionsOf_exact m Hu) as (Hp1 & Hp0 & Hple & _).
  destruct (reprocessRow_exact nameOf priceMap reprocessYieldPct (portionsOf m) (snd e)
              Hp0 Hq) as (Hid & Hint & H0 & Hle).
  exists e. repeat split; try assumption.
  unfold portionOf. exact_ops.
  set (portion := Exact.max 1 _) in *.
  set (q := r_qty _) in *. set (b := default 0%Q _) in *.
  apply Qle_trans with (portionsOf m * b * portion)%Q.
  - apply Qmult_le_compat_r; [exact Hle | lra].
  - assert (E : (portionsOf m * b * portion == portionsOf m * portion * b)%Q) by ring.
    rewrite E. apply Qmult_le_compat_r; [exact Hple | exact Hq].
Qed.

(** At 29 % the 100 units of the scenario ore give whole quantities within
    the bound. *)
Lemma candidateRow_quantities_exact_witness :
  Forall (fun r : ReprocessRow Q =>
            exists e, In e (typeMaterials (m_typeData hundredUnits)) /\
                      r_typeId r = material_type_id (snd e) /\
                      r_qty r = inject_Z (Qfloor (r_qty r)) /\
                      (0 <= r_qty r)%Q /\
                      (r_qty r * portionOf (m_typeData hundredUnits)
                       <= m_unitsMined hundredUnits * default 0 (quantity (snd e)))%Q)
         (reprocessRows (candidateRow Scenario.nameOf (fun _ => None) (yieldFracOf 29%Q)
                           0%Q 60%Q hundredUnits)).
Proof.
  apply candidateRow_quantities_exact.
  - vm_compute. discriminate.
  - repeat constructor; vm_compute; discriminate.
Defined.

Lemma fold_addValue_nonneg (rows : list (ReprocessRow Q)) :
  Forall (fun r => forall v, r_totalValue r = Some v -> (0 <= v)%Q) rows ->
  forall acc, (0 <= acc)%Q -> (0 <= fold_left addValue rows acc)%Q.
Proof.
  induction 1 as [|r rows Hr Hrows IH]; intros acc Hacc; cbn [fold_left]; [exact Hacc|].
  apply IH. unfold addValue. destruct (r_totalValue r) as [v|]; [|exact Hacc].
  exact_ops. specialize (Hr v eq_refl). lra.
Qed.

Lemma reprocessRow_value_nonneg
    (nameOf : option Q -> string) (priceMap : PriceMap Q)
    (pct portions : Q) (mat : TypeMaterial Q) :
  (forall id, nullOrPositive (getPriceSellMin priceMap id)) ->
  (0 <= portions)%Q -> (0 <= default 0 (quantity mat))%Q ->
  forall v, r_totalValue (reprocessRow nameOf priceMap (yieldFracOf pct) portions mat) = Some v ->
            (0 <= v)%Q.
Proof.
  intros Hprices Hp Hq v.
  destruct (reprocessRow_exact nameOf priceMap pct portions mat Hp Hq) as (_ & _ & H0 & _).
  revert H0. unfold reprocessRow. cbn [r_totalValue r_qty].
  set (qty := Math_floor _).
  destruct (material_type_id mat) as [id|]; cbn [mbind option_bind]; [|discriminate].
  destruct (getPriceSellMin priceMap id) as [p|] eqn:Ep; [|discriminate].
  intros H0 [= <-]. specialize (Hprices id p Ep). exact_ops.
  apply Exact_ltb_true in Hprices. apply Qmult_le_0_compat; lra.
Qed.

(** X10.  In exact arithmetic, with prices from [getPricesFuzzwork], mined
    units and material quantities that are not negative, and the tax that
    the advanced form applies: every value of the reprocessing table and
    the raw total are at least 0, so is their sum, the fee is at least 0,
    the net total is the sum less the fee and never above the sum, and it
    is at least 0 when the tax typed is at most 100; a tax above 100 is not
    capped and makes the net total 0 or negative. *)
Theorem candidateRow_totals_exact
    (fetchJson : list Q -> Completion (Q -> option (Aggregate Q)))
    (typeIds : list (option Q)) (prices : list (Q * PriceQuote Q))
    (nameOf : option Q -> string)
    (reprocessYieldPct usedSeconds : Q) (f : AdvancedForm Q) (m : Mined Q) :
  getPricesFuzzwork fetchJson typeIds = Normal prices ->
  (0 <= m_unitsMined m)%Q ->
  Forall (fun e => (0 <= default 0 (quantity (snd e)))%Q) (typeMaterials (m_typeData m)) ->
  let row := candidateRow nameOf (Map_get prices) (yieldFracOf reprocessYieldPct)
               (applyAdvancedTax f) usedSeconds m in
  Forall (fun r => forall v, r_totalValue r = Some v -> (0 <= v)%Q) (reprocessRows row) /\
  (forall t, rawTotal row = Some t -> (0 <= t)%Q) /\
  (0 <= reprocessTotal row)%Q /\
  (0 <= taxFee row)%Q /\
  (reprocessNet row + taxFee row == reprocessTotal row)%Q /\
  (reprocessNet row <= reprocessTotal row)%Q /\
  ((formTaxPct f <= 100)%Q -> (0 <= reprocessNet row)%Q) /\
  ((100 < formTaxPct f)%Q -> (reprocessNet row <= 0)%Q).
Proof.
  intros Hprices Hu Hq row.
  pose proof (getPricesFuzzwork_sellMin _ _ _ Hprices) as Hpos.
  destruct (portionsOf_exact m Hu) as (_ & Hp0 & _).
  assert (Hrows : Forall (fun r => forall v, r_totalValue r = Some v -> (0 <= v)%Q)
                    (producedRows nameOf (Map_get prices)
                       (yieldFracOf reprocessYieldPct) m)).
  { unfold producedRows. apply Forall_forall. intros r Hr.
    apply list_elem_of_In, List.in_map_iff in Hr as (e & <- & He).
    rewrite Forall_forall in Hq.
    apply reprocessRow_value_nonneg; auto.
    apply Hq. now apply list_elem_of_In. }
  assert (Htotal : (0 <= reprocessTotal row)%Q).
  { subst row. unfold candidateRow. cbn [reprocessTotal].
    apply fold_addValue_nonneg; [exact Hrows|]. exact_ops. lra. }
  assert (Htax : (0 <= applyAdvancedTax f)%Q).
  { unfold applyAdvancedTax. exact_ops. apply Exact_max_spec. }
  assert (Htax' : (applyAdvancedTax f == formTaxPct f \/ applyAdvancedTax f == 0)%Q).
  { unfold applyAdvancedTax. exact_ops.
    destruct (Exact_max_spec 0 (formTaxPct f)) as (_ & _ & [-> | ->]);
      [now right | now left]. }
  assert (Hge : (formTaxPct f <= applyAdvancedTax f)%Q).
  { unfold applyAdvancedTax. exact_ops. apply Exact_max_spec. }
  subst row. unfold candidateRow in *.
  cbn [reprocessRows rawTotal reprocessTotal taxFee reprocessNet] in *.
  set (total := fold_left addValue _ _) in *.
  set (tax := applyAdvancedTax f) in *.
  split.
  { apply Forall_forall. intros r Hr. rewrite Array_sort_perm in Hr.
    rewrite Forall_forall in Hrows. now apply Hrows. }
  split.
  { intros t. destruct (getPriceSellMin (Map_get prices) (m_typeId m)) as [p|] eqn:Ep;
      [|discriminate].
    intros [= <-]. specialize (Hpos _ p Ep). exact_ops.
    apply Exact_ltb_true in Hpos. apply Qmult_le_0_compat; lra. }
  split; [exact Htotal|].
  exact_ops.
  destruct (Exact.ltb 0 tax) eqn:Et.
  - apply Exact_ltb_true in Et.
    assert (Hfee : (0 <= total * (tax / 100))%Q).
    { apply Qmult_le_0_compat; [exact Htotal|].
      unfold Qdiv. apply Qmult_le_0_compat; [lra | discriminate]. }
    split; [exact Hfee|]. split; [ring|]. split; [lra|].
    assert (Hnet : (total - total * (tax / 100) == total * ((100 - tax) / 100))%Q)
      by (field).
    split; intros Hcap; rewrite Hnet.
    + apply Qmult_le_0_compat; [exact Htotal|].
      unfold Qdiv. apply Qmult_le_0_compat; [|discriminate].
      destruct Htax' as [E | E]; rewrite E; lra.
    + destruct Htax' as [E | E]; [|lra].
      assert (Hneg : (0 <= total * ((tax - 100) / 100))%Q).
      { apply Qmult_le_0_compat; [exact Htotal|].
        unfold Qdiv. apply Qmult_le_0_compat; [rewrite E; lra | discriminate]. }
      assert (E' : (total * ((100 - tax) / 100) == - (total * ((tax - 100) / 100)))%Q)
        by field.
      rewrite E'. lra.
  - apply Exact_ltb_false in Et.
    split; [lra|]. split; [ring|]. split; [lra|].
    split; intros Hcap; [lra|].
    destruct Htax' as [E | E]; lra.
Qed.

(** With the prices of the example answer and a tax of 10 %, the 100 units
    of the scenario ore at 100 % reprocess to 600, less a fee of 60. *)
Lemma candidateRow_totals_exact_witness :
  match getPricesFuzzwork fuzzworkAnswer scenarioIds with
  | Normal prices =>
      let row := candidateRow Scenario.nameOf (Map_get prices) (yieldFracOf 100%Q)
                   (applyAdvancedTax (taxedForm 10)) 60%Q hundredUnits in
      (reprocessTotal row == 600)%Q /\ (taxFee row == 60)%Q /\
      (0 <= reprocessNet row)%Q /\ (reprocessNet row <= reprocessTotal row)%Q
  | Throw _ => False
  end.
Proof.
  destruct (getPricesFuzzwork fuzzworkAnswer scenarioIds) as [prices|message] eqn:E;
    [|vm_compute in E; discriminate E].
  assert (Hu : (0 <= m_unitsMined hundredUnits)%Q) by (vm_compute; discriminate).
  assert (Hq : Forall (fun e : Q * TypeMaterial Q => (0 <= default 0 (quantity (snd e)))%Q)
                 (typeMaterials (m_typeData hundredUnits)))
    by (repeat constructor; vm_compute; discriminate).
  pose proof (candidateRow_totals_exact fuzzworkAnswer scenarioIds prices
                Scenario.nameOf 100 60 (taxedForm 10) hundredUnits E Hu Hq)
    as (_ & _ & _ & _ & _ & Hle & Hnet & _).
  cbv zeta in Hle, Hnet |- *.
  assert (Eprices : Normal prices
                    = getPricesFuzzwork fuzzworkAnswer scenarioIds) by now rewrite E.
  vm_compute in Eprices. injection Eprices as ->.
  split; [vm_compute; reflexivity|]. split; [vm_compute; reflexivity|].
  split; [apply Hnet; vm_compute; discriminate | exact Hle].
Defined.

Lemma reprocessRow_qty_mono
    (nameOf : option Q -> string) (priceMap : PriceMap Q)
    (pct1 pct2 portions : Q) (mat : TypeMaterial Q) :
  (0 <= portions)%Q -> (0 <= default 0 (quantity mat))%Q -> (pct1 <= pct2)%Q ->
  (r_qty (reprocessRow nameOf priceMap (yieldFracOf pct1) portions mat)
   <= r_qty (reprocessRow nameOf priceMap (yieldFracOf pct2) portions mat))%Q.
Proof.
  intros Hp Hq Hpct. unfold reprocessRow. cbn [r_qty].
  pose proof (baseQty_exact mat) as Hb. exact_ops.
  set (b := match quantity mat with Some q => _ | None => _ end) in *.
  apply Exact_floor_mono.
  pose proof (yieldFracOf_exact_mono pct1 pct2 Hpct) as Hy.
  rewrite !(Qmult_comm (portions * b)).
  apply Qmult_le_compat_r; [exact Hy|].
  apply Qmult_le_0_compat; [exact Hp | now rewrite Hb].
Qed.

Lemma fold_addValue_mono
    (nameOf : option Q -> string) (priceMap : PriceMap Q)
    (pct1 pct2 portions : Q) (mats : list (Q * TypeMaterial Q)) :
  (forall id, nullOrPositive (getPriceSellMin priceMap id)) ->
  (0 <= portions)%Q ->
  Forall (fun e => (0 <= default 0 (quantity (snd e)))%Q) mats ->
  (pct1 <= pct2)%Q ->
  forall acc1 acc2, (acc1 <= acc2)%Q ->
  (fold_left addValue
     (map (fun e => reprocessRow nameOf priceMap (yieldFracOf pct1) portions (snd e)) mats)
     acc1
   <= fold_left addValue
        (map (fun e => reprocessRow nameOf priceMap (yieldFracOf pct2) portions (snd e)) mats)
        acc2)%Q.
Proof.
  intros Hprices Hp Hq Hpct.
  induction Hq as [|e mats He Hmats IH]; intros acc1 acc2 Hacc; cbn [map fold_left];
    [exact Hacc|].
  apply IH.
  pose proof (reprocessRow_qty_mono nameOf priceMap pct1 pct2 portions (snd e)
                Hp He Hpct) as Hqty.
  revert Hqty. unfold addValue, reprocessRow. cbn [r_totalValue r_qty].
  set (q1 := Math_floor _). set (q2 := Math_floor _).
  destruct (material_type_id (snd e)) as [id|]; cbn [mbind option_bind]; [|now intros _].
  destruct (getPriceSellMin priceMap id) as [p|] eqn:Ep; [|now intros _].
  intros Hqty. specialize (Hprices id p Ep). exact_ops.
  apply Exact_ltb_true in Hprices.
  assert (Hv : (p * q1 <= p * q2)%Q).
  { rewrite !(Qmult_comm p). apply Qmult_le_compat_r; lra. }
  lra.
Qed.

(** X11.  In exact arithmetic, with prices from [getPricesFuzzwork] and
    mined units and material quantities that are not negative: typing a
    higher yield percent never lowers a reprocessed quantity, and never
    lowers the reprocessed total. *)
Theorem reprocessTotal_monotone_in_yield
    (fetchJson : list Q -> Completion (Q -> option (Aggregate Q)))
    (typeIds : list (option Q)) (prices : list (Q * PriceQuote Q))
    (nameOf : option Q -> string)
    (pct1 pct2 taxPct usedSeconds : Q) (m : Mined Q) :
  getPricesFuzzwork fetchJson typeIds = Normal prices ->
  (0 <= m_unitsMined m)%Q ->
  Forall (fun e => (0 <= default 0 (quantity (snd e)))%Q) (typeMaterials (m_typeData m)) ->
  (pct1 <= pct2)%Q ->
  let row1 := candidateRow nameOf (Map_get prices) (yieldFracOf pct1) taxPct usedSeconds m in
  let row2 := candidateRow nameOf (Map_get prices) (yieldFracOf pct2) taxPct usedSeconds m in
  Forall2 (fun r1 r2 => r_typeId r1 = r_typeId r2 /\ (r_qty r1 <= r_qty r2)%Q)
          (producedRows nameOf (Map_get prices) (yieldFracOf pct1) m)
          (producedRows nameOf (Map_get prices) (yieldFracOf pct2) m) /\
  (reprocessTotal row1 <= reprocessTotal row2)%Q.
Proof.
  intros Hprices Hu Hq Hpct row1 row2.
  pose proof (getPricesFuzzwork_sellMin _ _ _ Hprices) as Hpos.
  destruct (portionsOf_exact m Hu) as (_ & Hp0 & _).
  split.
  - unfold producedRows.
    induction Hq as [|e mats He Hmats IH]; cbn [map]; constructor; [|exact IH].
    split; [reflexivity|]. now apply reprocessRow_qty_mono.
  - subst row1 row2. unfold candidateRow. cbn [reprocessTotal]. unfold producedRows.
    apply fold_addValue_mono; auto. exact_ops. lra.
Qed.

(** From 29 % to 100 % the reprocessed total of the example goes up. *)
Lemma reprocessTotal_monotone_in_yield_witness :
  match getPricesFuzzwork fuzzworkAnswer scenarioIds with
  | Normal prices =>
      (reprocessTotal (candidateRow Scenario.nameOf (Map_get prices) (yieldFracOf 29%Q)
                         0%Q 60%Q hundredUnits)
       <= reprocessTotal (candidateRow Scenario.nameOf (Map_get prices) (yieldFracOf 100%Q)
                            0%Q 60%Q hundredUnits))%Q
  | Throw _ => False
  end.
Proof.
  destruct (getPricesFuzzwork fuzzworkAnswer scenarioIds) as [prices|message] eqn:E;
    [|vm_compute in E; discriminate E].
  assert (Hu : (0 <= m_unitsMined hundredUnits)%Q) by (vm_compute; discriminate).
  assert (Hq : Forall (fun e : Q * TypeMaterial Q => (0 <= default 0 (quantity (snd e)))%Q)
                 (typeMaterials (m_typeData hundredUnits)))
    by (repeat constructor; vm_compute; discriminate).
  assert (Hpct : (29 <= 100)%Q) by (vm_compute; discriminate).
  exact (proj2 (reprocessTotal_monotone_in_yield fuzzworkAnswer scenarioIds prices
                  Scenario.nameOf 29 100 0 60 hundredUnits E Hu Hq Hpct)).
Defined.

(** X12.  In exact arithmetic, the units that [onCalculate] counts for a
    type of positive unit volume are a whole number that fills the
    harvested volume as far as whole units go: units * volume <= totalM3 <
    (units + 1) * volume, and not negative for a volume harvested that is
    not negative.  For a type whose volume is missing or 0, the volume is
    taken as 1 and the units are the whole cubic metres. *)
Theorem unitsOf_exact (totalM3 : Q) (td : TypeData Q) :
  (forall v, volume td = Some v -> (0 < v)%Q ->
     unitsOf totalM3 td = inject_Z (Qfloor (totalM3 / v)) /\
     (unitsOf totalM3 td * v <= totalM3)%Q /\
     (totalM3 < (unitsOf totalM3 td + 1) * v)%Q /\
     ((0 <= totalM3)%Q -> (0 <= unitsOf totalM3 td)%Q)) /\
  (volume td = None \/ (exists v, volume td = Some v /\ (v == 0)%Q) ->
   unitsOf totalM3 td = inject_Z (Qfloor totalM3)).
Proof.
  unfold unitsOf. exact_ops. split.
  - intros v -> Hv.
    assert (Hne : Qeq_bool v 0 = false).
    { destruct (Qeq_bool v 0) eqn:E; [|reflexivity]. apply Qeq_bool_iff in E. lra. }
    rewrite Hne. cbn [negb].
    set (q := (totalM3 / v)%Q).
    assert (Hq : (q * v == totalM3)%Q) by (unfold q; field; lra).
    pose proof (Exact_floor_le q) as Hlo.
    pose proof (Exact_floor_lt q) as Hhi.
    split; [reflexivity|]. split; [|split].
    + rewrite <- Hq. apply Qmult_le_compat_r; lra.
    + rewrite <- Hq. apply Qmult_lt_compat_r; lra.
    + intros H0. unfold Exact.floor. rewrite <- (Zle_Qle 0).
      apply Exact_floor_nonneg. unfold q, Qdiv.
      apply Qmult_le_0_compat; [exact H0|]. apply Qinv_le_0_compat. lra.
  - intros Hv.
    assert (E : (match volume td with
                 | Some v => if negb (Qeq_bool v 0) then v else 1
                 | None => 1
                 end = 1)%Q).
    { destruct Hv as [-> | (v & -> & Hv)]; [reflexivity|].
      apply Qeq_bool_iff in Hv. now rewrite Hv. }
    rewrite E. unfold Exact.floor. f_equal. apply Qfloor_comp. field.
Qed.

(** X13.  In exact arithmetic, the input checks and the rows of
    [onCalculate], for targets that were resolved and whose data was
    fetched (the name lookup and the requests have errors of their own).
    This part throws only in its three checks, each with its message: when
    the yield per cycle is not positive, else when the cycle time is not
    positive, else when the duration is negative.  It returns early
    without rows exactly when the inputs pass and the duration is shorter
    than one cycle; and otherwise it builds one row per target, in the
    order of the targets, each for the units of cycles * yield per cycle,
    where cycles is the whole number of cycles that fit. *)
Theorem onCalculate_rows_exact
    (yieldPerCycle cycleTimeSeconds durationMinutes reprocessYieldPct taxPct : Q)
    (targets : list (Target Q * TypeData Q))
    (nameOf : option Q -> string) (priceMap : PriceMap Q) :
  match onCalculate_rows yieldPerCycle cycleTimeSeconds durationMinutes
          reprocessYieldPct taxPct targets nameOf priceMap with
  | Throw message =>
      (message = "Yield per cycle must be > 0."%string /\ (yieldPerCycle <= 0)%Q) \/
      (message = "Cycle time must be > 0."%string /\
       (0 < yieldPerCycle)%Q /\ (cycleTimeSeconds <= 0)%Q) \/
      (message = "Duration must be >= 0."%string /\
       (0 < yieldPerCycle)%Q /\ (0 < cycleTimeSeconds)%Q /\ (durationMinutes < 0)%Q)
  | Normal None =>
      (0 < yieldPerCycle)%Q /\ (0 < cycleTimeSeconds)%Q /\ (0 <= durationMinutes)%Q /\
      (durationMinutes * 60 < cycleTimeSeconds)%Q
  | Normal (Some rows) =>
      (0 < yieldPerCycle)%Q /\ (0 < cycleTimeSeconds)%Q /\ (0 <= durationMinutes)%Q /\
      (cycleTimeSeconds <= durationMinutes * 60)%Q /\
      map typeId rows = map (fun t => t_typeId (fst t)) targets /\
      map unitsMined rows
      = map (fun t => unitsOf
                        (inject_Z (Qfloor (durationMinutes * 60 / cycleTimeSeconds))
                         * yieldPerCycle)%Q (snd t)) targets
  end.
Proof.
  unfold onCalculate_rows. exact_ops.
  destruct (Exact.ltb 0 yieldPerCycle) eqn:Hy; cbn [negb];
    [apply Exact_ltb_true in Hy | apply Exact_ltb_false in Hy; left; now split].
  destruct (Exact.ltb 0 cycleTimeSeconds) eqn:Hc; cbn [negb];
    [apply Exact_ltb_true in Hc
    |apply Exact_ltb_false in Hc; right; left; repeat split; assumption].
  destruct (Qle_bool 0 durationMinutes) eqn:Hd; cbn [negb];
    [apply Qle_bool_iff in Hd
    |apply Qle_bool_false in Hd; right; right; repeat split; assumption].
  unfold calcCycles. exact_ops. cbn [cycles usedSeconds].
  assert (Hc' : Exact.ltb 0 cycleTimeSeconds = true) by now apply Exact_ltb_true.
  rewrite Hc'.
  assert (Htot : Exact.max 0 (durationMinutes * 60) = (durationMinutes * 60)%Q).
  { apply Exact_max_r. lra. }
  rewrite Htot.
  set (q := (durationMinutes * 60 / cycleTimeSeconds)%Q).
  assert (Hq : (q * cycleTimeSeconds == durationMinutes * 60)%Q) by (unfold q; field; lra).
  pose proof (Exact_floor_le q) as Hlo.
  pose proof (Exact_floor_lt q) as Hhi.
  destruct (Qle_bool (Exact.floor q) 0) eqn:Hz.
  - apply Qle_bool_iff in Hz. repeat split; try assumption.
    rewrite <- Hq.
    assert (Hq1 : (q < 1)%Q) by lra.
    rewrite <- (Qmult_1_l cycleTimeSeconds) at 2.
    now apply Qmult_lt_compat_r.
  - apply Qle_bool_false in Hz.
    assert (H1 : (1 <= Exact.floor q)%Q).
    { unfold Exact.floor in *. rewrite <- (Zlt_Qlt 0) in Hz.
      rewrite <- (Zle_Qle 1). lia. }
    repeat split; try assumption.
    + rewrite <- Hq. rewrite <- (Qmult_1_l cycleTimeSeconds) at 1.
      apply Qmult_le_compat_r; lra.
    + rewrite !map_map. reflexivity.
    + rewrite !map_map. reflexivity.
Qed.

(** ** The best row and the order of the comparison table *)

Lemma renderComparison_sorted_exact (rows : list (CandidateRow Q)) (state : CompareState Q) :
  StronglySorted
    (fun a b => inOrder (dir state) (sortValue (key state) a) (sortValue (key state) b))
    (renderComparison rows state).
Proof.
  unfold renderComparison.
  eapply StronglySorted_weaken; [|apply Array_sort_sorted].
  - intros a b Hab. now apply byState_notAfter.
  - intros a b c Hab Hbc. apply byState_notAfter in Hab, Hbc.
    apply byState_notAfter. unfold inOrder in *.
    destruct (dir state); lra.
  - intros a b Hab. apply byState_notAfter.
    unfold after, byState in Hab. exact_ops. apply Exact_ltb_true in Hab.
    unfold inOrder. destruct (dir state); lra.
Qed.

Lemma renderComparison_ties_exact
    (rows : list (CandidateRow Q)) (state : CompareState Q) (v : Q) :
  List.filter (tied (sortValue (key state)) v) (renderComparison rows state)
  = List.filter (tied (sortValue (key state)) v) rows.
Proof.
  unfold renderComparison. apply Array_sort_filter. intros x y Hx Hy.
  destruct (after (byState state) x y) eqn:E; [|reflexivity].
  apply byState_after in E. unfold tied in Hx, Hy.
  apply Qeq_bool_iff in Hx, Hy.
  exfalso. apply E. now rewrite Hx, Hy.
Qed.

Lemma renderComparison_sorted_binary64
    (rows : list (CandidateRow float)) (state : CompareState float) :
  Forall (fun r => is_nan (sortValue (key state) r) = false) rows ->
  StronglySorted
    (fun a b => inOrder_binary64 (dir state) (sortValue (key state) a)
                  (sortValue (key state) b))
    (renderComparison rows state).
Proof.
  intros Hrows. unfold renderComparison.
  assert (Hsorted : Forall (fun r => is_nan (sortValue (key state) r) = false)
                      (Array_sort (byState state) rows)).
  { rewrite Forall_forall in *. intros r Hr.
    rewrite Array_sort_perm in Hr. now apply Hrows. }
  assert (Hord : StronglySorted (notAfter (byState state))
                   (Array_sort (byState state) rows)).
  { apply (Array_sort_sorted_on (byState state)
             (fun r => is_nan (sortValue (key state) r) = false));
      [| |exact Hrows].
    - intros a b c Ga Gb Gc.
      rewrite !byState_notAfter_binary64 by assumption.
      unfold inOrder_binary64.
      destruct (dir state); rewrite !Binary64_leb_rank by assumption;
        rewrite !Z.leb_le; lia.
    - intros a b Ga Gb.
      rewrite byState_notAfter_binary64, byState_after_binary64 by assumption.
      unfold inOrder_binary64.
      destruct (dir state); rewrite Binary64_leb_rank by assumption;
        rewrite Z.ltb_lt, Z.leb_le; lia. }
  revert Hsorted.
  induction Hord as [|x l Hl IH Hx]; intros Hgood; constructor.
  - apply IH. now apply Forall_cons in Hgood as [_ Hgood].
  - apply Forall_cons in Hgood as [Gx Gl].
    rewrite Forall_forall in *. intros y Hy.
    apply byState_notAfter_binary64; auto.
Qed.

Lemma renderComparison_ties_binary64
    (rows : list (CandidateRow float)) (state : CompareState float) (v : float) :
  List.filter (tied_binary64 (sortValue (key state)) v) (renderComparison rows state)
  = List.filter (tied_binary64 (sortValue (key state)) v) rows.
Proof.
  unfold renderComparison. apply Array_sort_filter. intros x y Hx Hy.
  unfold tied_binary64 in Hx, Hy.
  apply Binary64_eqb_rank in Hx as (Gx & _ & Ex), Hy as (Gy & _ & Ey).
  rewrite byState_after_binary64 by assumption.
  destruct (dir state); apply Z.ltb_ge; lia.
Qed.

Lemma bestOf_head {num : Type} {N : JSNumber num}
    (rows : list (CandidateRow num)) (selected : option num) :
  bestOf rows = head (renderComparison rows (defaultCompareState selected)).
Proof.
  unfold bestOf, renderComparison.
  change (byState (defaultCompareState selected)) with (@byReprocessPerHour num N).
  destruct (head (Array_sort byReprocessPerHour rows)) eqn:E; [reflexivity|].
  destruct rows as [|r rows]; [reflexivity|].
  exfalso.
  pose proof (Array_sort_perm byReprocessPerHour (r :: rows)) as Hperm.
  destruct (Array_sort byReprocessPerHour (r :: rows)); [|discriminate].
  now apply Permutation_nil_cons in Hperm.
Qed.

Lemma head_filter_cons {A : Type} (P : A -> bool) (x : A) (l : list A) :
  P x = true -> head (List.filter P (x :: l)) = Some x.
Proof. intros H. cbn [List.filter]. now rewrite H. Qed.

(** X14.  The row that [onCalculate] selects is the first row of the
    comparison table in its starting state, and it is a row of the list;
    there is none only for an empty list.  In exact arithmetic, and on
    doubles when no value is NaN, it has the highest reprocessed ISK per
    hour (an unknown value counts as 0), and among the rows with that value
    it is the one that was entered first. *)
Theorem bestOf_best :
  (forall (num : Type) (N : JSNumber num) (rows : list (CandidateRow num))
          (selected : option num),
      bestOf rows = head (renderComparison rows (defaultCompareState selected)) /\
      (bestOf rows = None <-> rows = []) /\
      (forall b, bestOf rows = Some b -> In b rows)) /\
  (forall (rows : list (CandidateRow Q)) (b : CandidateRow Q),
      bestOf rows = Some b ->
      let value := sortValue key_reprocessPerHour in
      (forall r, In r rows -> (value r <= value b)%Q) /\
      head (List.filter (tied value (value b)) rows) = Some b) /\
  (forall (rows : list (CandidateRow float)) (b : CandidateRow float),
      Forall (fun r => is_nan (sortValue key_reprocessPerHour r) = false) rows ->
      bestOf rows = Some b ->
      let value := sortValue key_reprocessPerHour in
      (forall r, In r rows -> (value r <=? value b)%float = true) /\
      head (List.filter (tied_binary64 value (value b)) rows) = Some b).
Proof.
  split; [|split].
  - intros num N rows selected.
    split; [apply bestOf_head|].
    rewrite (bestOf_head rows selected).
    pose proof (Array_sort_perm (byState (defaultCompareState selected)) rows) as Hperm.
    fold (renderComparison rows (defaultCompareState selected)) in Hperm.
    destruct (renderComparison rows (defaultCompareState selected)) as [|x l].
    + cbn [head]. apply Permutation_nil in Hperm. subst rows.
      split; [split; reflexivity | intros b; discriminate].
    + cbn [head]. split.
      * split; [discriminate|]. intros ->.
        now apply Permutation_sym, Permutation_nil_cons in Hperm.
      * intros b [= <-]. apply (Permutation_in _ Hperm). now left.
  - intros rows b Hb value.
    rewrite (bestOf_head rows None) in Hb.
    pose proof (renderComparison_sorted_exact rows (defaultCompareState None)) as Hsorted.
    pose proof (renderComparison_ties_exact rows (defaultCompareState None) (value b)) as Hties.
    pose proof (Array_sort_perm (byState (defaultCompareState None)) rows) as Hperm.
    fold (renderComparison rows (defaultCompareState None)) in Hperm.
    destruct (renderComparison rows (defaultCompareState None)) as [|x l]; [discriminate|].
    injection Hb as ->.
    cbn [key dir defaultCompareState] in Hsorted, Hties. fold value in Hsorted, Hties.
    split.
    + intros r Hr. apply (Permutation_in _ (Permutation_sym Hperm)) in Hr.
      inversion Hsorted as [|? ? _ Hall]; subst.
      destruct Hr as [<- | Hr]; [lra|].
      rewrite List.Forall_forall in Hall. exact (Hall r Hr).
    + rewrite <- Hties. apply head_filter_cons. apply tied_refl.
  - intros rows b Hrows Hb value.
    rewrite (bestOf_head rows None) in Hb.
    pose proof (renderComparison_sorted_binary64 rows (defaultCompareState None) Hrows)
      as Hsorted.
    pose proof (renderComparison_ties_binary64 rows (defaultCompareState None) (value b))
      as Hties.
    pose proof (Array_sort_perm (byState (defaultCompareState None)) rows) as Hperm.
    fold (renderComparison rows (defaultCompareState None)) in Hperm.
    destruct (renderComparison rows (defaultCompareState None)) as [|x l]; [discriminate|].
    injection Hb as ->.
    cbn [key dir defaultCompareState] in Hsorted, Hties. fold value in Hsorted, Hties.
    assert (Gb : is_nan (value b) = false).
    { rewrite Forall_forall in Hrows. apply Hrows.
      rewrite <- Hperm. now left. }
    assert (Hbb : (value b <=? value b)%float = true).
    { rewrite Binary64_leb_rank by assumption. apply Z.leb_refl. }
    split.
    + intros r Hr. apply (Permutation_in _ (Permutation_sym Hperm)) in Hr.
      inversion Hsorted as [|? ? _ Hall]; subst.
      destruct Hr as [<- | Hr]; [exact Hbb|].
      rewrite List.Forall_forall in Hall. exact (Hall r Hr).
    + rewrite <- Hties. apply head_filter_cons. unfold tied_binary64.
      rewrite FloatAxioms.eqb_spec. rewrite FloatAxioms.leb_spec in Hbb.
      unfold SFeqb, SFleb in *.
      destruct (SFcompare (Prim2SF (value b)) (Prim2SF (value b))) as [[]|] eqn:E;
        try reflexivity; try discriminate.
      exfalso. apply Prim2SF_not_nan in Gb.
      rewrite SFcompare_rank in E by (auto using Prim2SF_valid).
      rewrite Z.compare_refl in E. discriminate.
Qed.

Lemma StronglySorted_app {A : Type} (R : A -> A -> Prop) (l1 l2 : list A) :
  StronglySorted R l1 -> StronglySorted R l2 ->
  (forall a b, In a l1 -> In b l2 -> R a b) ->
  StronglySorted R (l1 ++ l2).
Proof.
  intros H1 H2 H12. induction H1 as [|x l1 H1 IH Hx]; [exact H2|].
  cbn [app]. constructor.
  - apply IH. intros a b Ha Hb. apply H12; [now right | exact Hb].
  - apply List.Forall_forall. intros y Hy. apply in_app_iff in Hy as [Hy | Hy].
    + rewrite List.Forall_forall in Hx. now apply Hx.
    + apply H12; [now left | exact Hy].
Qed.

Lemma StronglySorted_rev {A : Type} (R : A -> A -> Prop) (l : list A) :
  StronglySorted R l -> StronglySorted (fun a b => R b a) (rev l).
Proof.
  induction 1 as [|x l Hl IH Hx]; [constructor|].
  cbn [rev]. apply StronglySorted_app; [exact IH | repeat constructor|].
  intros a b Ha [<- | []]. apply in_rev in Ha.
  rewrite List.Forall_forall in Hx. now apply Hx.
Qed.

Lemma no_ties_filter {A : Type} (value : A -> Q) (v : Q) (l : list A) :
  ForallOrdPairs (fun a b => ~ (value a == value b)%Q) l ->
  (length (List.filter (tied value v) l) <= 1)%nat.
Proof.
  induction 1 as [|a l Ha Hl IH]; cbn [List.filter length]; [lia|].
  destruct (tied value v a) eqn:Ea; [|exact IH].
  assert (Hnone : List.filter (tied value v) l = []).
  { destruct (List.filter (tied value v) l) as [|r rest] eqn:E; [reflexivity|].
    exfalso.
    assert (Hr : In r (List.filter (tied value v) l)) by (rewrite E; now left).
    apply List.filter_In in Hr as [Hr Er].
    rewrite List.Forall_forall in Ha. apply (Ha r Hr).
    unfold tied in Ea, Er. apply Qeq_bool_iff in Ea, Er. now rewrite Ea, Er. }
  rewrite Hnone. cbn. lia.
Qed.

Lemma rev_short {A : Type} (l : list A) : (length l <= 1)%nat -> rev l = l.
Proof. destruct l as [|x [|y l]]; cbn; try reflexivity. lia. Qed.

Lemma clickHeader_same {num : Type} (state : CompareState num) :
  key (toggled state) = key state /\
  dir (toggled state) = match dir state with asc => desc | desc => asc end.
Proof.
  unfold toggled, clickHeader. rewrite SortKey_eqb_refl. now split.
Qed.

(** X15.  In exact arithmetic, when no two rows have the same value in the
    sorted field, a click on the header of the current key shows the table
    in exactly the reverse order. *)
Theorem renderComparison_toggle_reverses
    (rows : list (CandidateRow Q)) (state : CompareState Q) :
  ForallOrdPairs
    (fun a b => ~ (sortValue (key state) a == sortValue (key state) b)%Q) rows ->
  renderComparison rows (toggled state) = rev (renderComparison rows state).
Proof.
  intros Hdistinct.
  destruct (clickHeader_same state) as [Hk Hd].
  pose proof (renderComparison_sorted_exact rows (toggled state)) as Hnew.
  pose proof (renderComparison_sorted_exact rows state) as Hold.
  apply StronglySorted_rev in Hold.
  rewrite Hk, Hd in Hnew.
  apply (stable_sorted_unique (sortValue (key state))
           (match dir state with asc => desc | desc => asc end)).
  - exact Hnew.
  - eapply StronglySorted_weaken; [|exact Hold].
    intros a b. unfold inOrder. now destruct (dir state).
  - intros v.
    pose proof (renderComparison_ties_exact rows (toggled state) v) as Hties.
    rewrite Hk in Hties. rewrite Hties.
    rewrite List.filter_rev, renderComparison_ties_exact.
    symmetry. apply rev_short. now apply no_ties_filter.
Qed.

(** The two rows of the example, best first, come out worst first after a
    click. *)
Lemma renderComparison_toggle_reverses_witness :
  renderComparison twoRows (toggled (defaultCompareState None))
  = rev (renderComparison twoRows (defaultCompareState None)) /\
  map (sortValue key_reprocessPerHour) (renderComparison twoRows (defaultCompareState None))
  = map (sortValue key_reprocessPerHour) (rev twoRows).
Proof.
  split; [|vm_compute; reflexivity].
  apply renderComparison_toggle_reverses.
  repeat constructor. vm_compute. discriminate.
Defined.

(** ** Display values *)

Lemma Binary64_sub_nan (x y : float) :
  is_nan x || is_nan y = true -> is_nan (x - y)%float = true.
Proof.
  rewrite orb_true_iff, !is_nan_Prim2SF, sub_spec.
  intros [-> | ->]; [reflexivity | now destruct (Prim2SF x)].
Qed.

Lemma is_finite_not_nan (x : float) : is_finite x = true -> is_nan x = false.
Proof.
  unfold is_finite. rewrite negb_true_iff, orb_false_iff. now intros [H _].
Qed.

(** [Math.max(0, x)] is [+0] for a number [x <= 0]. *)
Lemma Binary64_max_0_nonpositive (x : float) :
  is_nan x = false -> (x <=? 0)%float = true -> Binary64.max 0 x = 0%float.
Proof.
  intros Hx Hle. unfold Binary64.max. rewrite Hx.
  change (is_nan 0) with false. cbn [orb].
  rewrite (Binary64_leb0_ltb0 x Hle).
  change (get_sign 0) with false.
  now destruct (x <? 0)%float.
Qed.

(** X16.  On doubles, [fmtSeconds] shows every finite time that is 0 or
    negative as it shows 0: no minutes, and a rest of 0.  So the negative
    time left over that rounding can produce is displayed as zero. *)
Theorem fmtSeconds_nonpositive
    (fmtNum : float -> float -> string) (numberToString : float -> string)
    (seconds : float) :
  is_finite seconds = true -> (seconds <=? 0)%float = true ->
  secondsParts seconds = (0%float, 0%float) /\
  fmtSeconds fmtNum numberToString seconds = (fmtNum 0%float 1%float ++ "s")%string /\
  fmtSeconds fmtNum numberToString seconds = fmtSeconds fmtNum numberToString 0%float.
Proof.
  intros Hfin Hle.
  assert (Hparts : secondsParts seconds = (0%float, 0%float)).
  { unfold secondsParts. float_ops. change (Binary64.of_Q 0) with 0%float.
    rewrite (Binary64_max_0_nonpositive seconds (is_finite_not_nan _ Hfin) Hle).
    vm_compute. reflexivity. }
  assert (Hshow : fmtSeconds fmtNum numberToString seconds
                  = (fmtNum 0%float 1%float ++ "s")%string).
  { unfold fmtSeconds. float_ops. rewrite Hfin, Hparts. reflexivity. }
  split; [exact Hparts|]. split; [exact Hshow|].
  rewrite Hshow. reflexivity.
Qed.

(** The time left over of 8.1 minutes of 2.7 s cycles is negative on
    doubles, and is shown as 0. *)
Lemma fmtSeconds_nonpositive_witness :
  (leftoverSeconds (calcCycles 8.1 2.7) <? 0)%float = true /\
  secondsParts (leftoverSeconds (calcCycles 8.1 2.7))%float = (0%float, 0%float).
Proof.
  split; [vm_compute; reflexivity|].
  apply (fmtSeconds_nonpositive (fun _ _ => EmptyString) (fun _ => EmptyString));
    vm_compute; reflexivity.
Defined.

Section DisplayFacts.

Variable fmtNum : Q -> Q -> string.
Variable numberToString : Q -> string.

(** X17.  In exact arithmetic, [fmtSeconds] splits a time into whole
    minutes and a rest: minutes * 60 + rest is the time (0 for a negative
    time), the minutes are a whole number, the rest is at least 0 and
    below 60, and the minutes are shown exactly when the time is at least
    60 seconds. *)
Theorem fmtSeconds_exact (seconds : Q) :
  let m := fst (secondsParts seconds) in
  let rem := snd (secondsParts seconds) in
  m = inject_Z (Qfloor m) /\ (0 <= m)%Q /\
  (m * 60 + rem == Exact.max 0 seconds)%Q /\
  (0 <= rem)%Q /\ (rem < 60)%Q /\
  ((seconds < 60)%Q ->
   fmtSeconds fmtNum numberToString seconds = (fmtNum rem 1%Q ++ "s")%string) /\
  ((60 <= seconds)%Q ->
   fmtSeconds fmtNum numberToString seconds
   = (numberToString m ++ "m " ++ fmtNum rem 1%Q ++ "s")%string).
Proof.
  intros m rem. subst m rem. unfold fmtSeconds, secondsParts. exact_ops.
  cbn [fst snd negb].
  pose proof (Exact_max_spec 0 seconds) as (Hs0 & Hs1 & Hs).
  set (s := Exact.max 0 seconds) in *.
  set (q := (s / 60)%Q).
  assert (Hq : (q * 60 == s)%Q) by (unfold q; field).
  assert (Hq0 : (0 <= q)%Q).
  { unfold q, Qdiv. apply Qmult_le_0_compat; [exact Hs0 | discriminate]. }
  pose proof (Exact_floor_le q) as Hlo.
  pose proof (Exact_floor_lt q) as Hhi.
  pose proof (Exact_floor_nonneg q Hq0) as Hn.
  assert (Hf0 : (0 <= Exact.floor q)%Q)
    by (unfold Exact.floor; now rewrite <- (Zle_Qle 0)).
  split; [unfold Exact.floor; now rewrite Qfloor_Z|].
  split; [exact Hf0|]. split; [ring|].
  split; [lra|]. split; [lra|].
  split; intros Hsec.
  - assert (Hz : Qle_bool (Exact.floor q) 0 = true).
    { apply Qle_bool_iff.
      assert (Hs60 : (s < 60)%Q) by (destruct Hs as [-> | ->]; lra).
      assert (Hlt : (Exact.floor q < 1)%Q) by lra.
      unfold Exact.floor in *. rewrite <- (Zle_Qle _ 0).
      rewrite <- (Zlt_Qlt _ 1) in Hlt. lia. }
    now rewrite Hz.
  - assert (Hz : Qle_bool (Exact.floor q) 0 = false).
    { apply Qle_bool_false.
      assert (Hq1 : (1 <= q)%Q) by lra.
      apply (Exact_floor_mono 1 q) in Hq1.
      change (Exact.floor 1) with 1%Q in Hq1. lra. }
    now rewrite Hz.
Qed.

End DisplayFacts.

(** X18.  The figures per hour in the summary are those of the comparison
    table: for the row that is selected, the reprocessed ISK per hour of the
    summary is the row's (0 when no time was used), and so is the raw ISK
    per hour whenever the raw price is known. *)
Theorem onCalculate_summary_per_hour {num : Type} {N : JSNumber num}
    (nameOf : option num -> string) (priceMap : PriceMap num)
    (yieldFrac taxPct : num) (c : CycleResult num) (m : Mined num) :
  let row := candidateRow nameOf priceMap yieldFrac taxPct (usedSeconds c) m in
  let s := onCalculate_summary c row in
  s_hrRe s = default (lit 0) (reprocessPerHour row) /\
  (forall t, rawTotal row = Some t ->
     s_hrRaw s = default (lit 0) (rawPerHour row)) /\
  s_unitsPerHour s = mul (unitsMined row) (s_perHourFactor s) /\
  (lt (lit 0) (usedSeconds c) = false ->
   s_hrRe s = lit 0 /\ s_hrRaw s = lit 0 /\ s_hrM3 s = lit 0 /\
   reprocessPerHour row = None /\ rawPerHour row = None).
Proof.
  intros row s. subst row s.
  unfold onCalculate_summary, renderSummary, candidateRow.
  cbn [s_hrRe s_hrRaw s_hrM3 s_unitsPerHour s_perHourFactor reprocessPerHour rawPerHour
       rawTotal reprocessNet unitsMined typeData].
  destruct (lt (lit 0) (usedSeconds c)) eqn:Hu.
  - split; [reflexivity|]. split; [|split; [reflexivity | discriminate]].
    intros t Ht. destruct (getPriceSellMin priceMap (m_typeId m)); [|discriminate].
    injection Ht as <-. reflexivity.
  - split; [reflexivity|]. split; [|split; [reflexivity|]].
    + intros t Ht. destruct (getPriceSellMin priceMap (m_typeId m)); [|discriminate].
      reflexivity.
    + intros _. repeat split; try reflexivity.
      now destruct (getPriceSellMin priceMap (m_typeId m)).
Qed.

Lemma Exact_mul_comm (x y : Q) : Qmult x y = Qmult y x.
Proof. unfold Qmult. now rewrite Z.mul_comm, Pos.mul_comm. Qed.

Lemma Binary64_positive_truthy (p : float) :
  (0 <? p)%float = true -> Binary64.to_boolean p = true.
Proof.
  intros Hp. unfold Binary64.to_boolean, is_zero.
  change PrimFloat.zero with 0%float.
  destruct (is_nan p) eqn:En.
  { rewrite Binary64_ltb_nan in Hp by (now rewrite En, orb_true_r). discriminate. }
  cbn [orb]. apply negb_true_iff.
  destruct (p =? 0)%float eqn:E; [|reflexivity].
  apply Binary64_eqb0_ltb0 in E. congruence.
Qed.

(** X19.  The raw table and the comparison table agree on the raw total
    whenever the price of the ore is unknown or is a number other than 0,
    so always with prices from Fuzzwork (null or positive), on doubles and
    in exact arithmetic; for a price of 0 the raw table shows dashes for
    the price and the total, while the row's raw total is the number
    price * units. *)
Theorem renderRawSelected_total :
  (forall (nameOf : option float -> string) (priceMap : PriceMap float)
          (yieldFrac taxPct usedSeconds : float) (m : Mined float),
      let row := candidateRow nameOf priceMap yieldFrac taxPct usedSeconds m in
      (oreSell row = None -> renderRawSelected row = (None, None) /\ rawTotal row = None) /\
      (forall p, oreSell row = Some p -> truthy p = true ->
                 renderRawSelected row = (Some p, rawTotal row)) /\
      (forall p, oreSell row = Some p -> truthy p = false ->
                 renderRawSelected row = (None, None)
                 /\ rawTotal row = Some (mul p (unitsMined row))) /\
      (nullOrPositive (oreSell row) -> snd (renderRawSelected row) = rawTotal row)) /\
  (forall (nameOf : option Q -> string) (priceMap : PriceMap Q)
          (yieldFrac taxPct usedSeconds : Q) (m : Mined Q),
      let row := candidateRow nameOf priceMap yieldFrac taxPct usedSeconds m in
      (oreSell row = None -> renderRawSelected row = (None, None) /\ rawTotal row = None) /\
      (forall p, oreSell row = Some p -> truthy p = true ->
                 renderRawSelected row = (Some p, rawTotal row)) /\
      (forall p, oreSell row = Some p -> truthy p = false ->
                 renderRawSelected row = (None, None)
                 /\ rawTotal row = Some (mul p (unitsMined row))) /\
      (nullOrPositive (oreSell row) -> snd (renderRawSelected row) = rawTotal row)).
Proof.
  split.
  - intros nameOf priceMap yieldFrac taxPct usedSeconds m row. subst row.
    unfold renderRawSelected, renderRawRow, candidateRow.
    cbn [oreSell rawTotal unitsMined].
    destruct (getPriceSellMin priceMap (m_typeId m)) as [p|] eqn:Ep.
    + split; [discriminate|]. split; [|split].
      * intros p' [= <-] Ht. rewrite Ht. float_ops. now rewrite Binary64_mul_comm.
      * intros p' [= <-] Ht. now rewrite Ht.
      * intros Hpos. specialize (Hpos p eq_refl). float_ops.
        change (Binary64.of_Q 0) with 0%float in Hpos.
        rewrite (Binary64_positive_truthy p Hpos). cbn [snd].
        now rewrite Binary64_mul_comm.
    + split; [now split|]. split; [discriminate|]. split; [discriminate|]. reflexivity.
  - intros nameOf priceMap yieldFrac taxPct usedSeconds m row. subst row.
    unfold renderRawSelected, renderRawRow, candidateRow.
    cbn [oreSell rawTotal unitsMined].
    destruct (getPriceSellMin priceMap (m_typeId m)) as [p|] eqn:Ep.
    + split; [discriminate|]. split; [|split].
      * intros p' [= <-] Ht. rewrite Ht. exact_ops. now rewrite Exact_mul_comm.
      * intros p' [= <-] Ht. now rewrite Ht.
      * intros Hpos. specialize (Hpos p eq_refl). exact_ops.
        apply Exact_ltb_true in Hpos.
        assert (Hne : Qeq_bool p 0 = false).
        { destruct (Qeq_bool p 0) eqn:E; [|reflexivity]. apply Qeq_bool_iff in E. lra. }
        rewrite Hne. cbn [negb snd]. now rewrite Exact_mul_comm.
    + split; [now split|]. split; [discriminate|]. split; [discriminate|]. reflexivity.
Qed.

(** X20.  When [renderCompare] shows the difference between the reprocessed
    and the raw total, it marks it as positive exactly when the reprocessed
    total is at least the raw total, an unknown total counting as 0: on
    doubles the rounding of the subtraction never changes the mark.  The box
    is left empty exactly when neither total is a finite number. *)
Theorem renderCompare_mark :
  (forall (rawTotal reprocessTotal : option float) (usedSeconds taxPct : float),
      match renderCompare rawTotal reprocessTotal usedSeconds taxPct with
      | Some box =>
          isFiniteOrNull rawTotal || isFiniteOrNull reprocessTotal = true /\
          c_positive box = (default 0 rawTotal <=? default 0 reprocessTotal)%float
      | None =>
          isFiniteOrNull rawTotal = false /\ isFiniteOrNull reprocessTotal = false
      end) /\
  (forall (rawTotal reprocessTotal : option Q) (usedSeconds taxPct : Q),
      match renderCompare rawTotal reprocessTotal usedSeconds taxPct with
      | Some box =>
          c_positive box = Qle_bool (default 0%Q rawTotal) (default 0%Q reprocessTotal)
      | None => rawTotal = None /\ reprocessTotal = None
      end).
Proof.
  split.
  - intros rawTotal reprocessTotal usedSeconds taxPct. unfold renderCompare.
    destruct (isFiniteOrNull rawTotal) eqn:Hraw, (isFiniteOrNull reprocessTotal) eqn:Hre;
      cbn [negb andb orb c_positive]; try (now split).
    all: split; [reflexivity|]; float_ops; change (Binary64.of_Q 0) with 0%float.
    all: set (a := default 0%float reprocessTotal); set (b := default 0%float rawTotal).
    all: destruct (is_nan a || is_nan b) eqn:Hn;
      [ rewrite (Binary64_leb_nan 0 (a - b))
          by (rewrite (Binary64_sub_nan a b Hn); apply orb_true_r);
        rewrite (Binary64_leb_nan b a) by (now rewrite orb_comm); reflexivity |].
    all: apply orb_false_iff in Hn as [Ha Hb]; apply Binary64_sub_sign_le; try assumption.
    all: subst a b; unfold isFiniteOrNull in *; float_ops.
    + destruct rawTotal; [|discriminate]. cbn. now rewrite Hraw, orb_true_r.
    + destruct rawTotal; [|discriminate]. cbn. now rewrite Hraw, orb_true_r.
    + destruct reprocessTotal; [|discriminate]. cbn. now rewrite Hre.
  - intros rawTotal reprocessTotal usedSeconds taxPct. unfold renderCompare.
    destruct rawTotal as [r|], reprocessTotal as [p|];
      cbn [isFiniteOrNull negb andb c_positive default from_option id]; exact_ops;
      cbn [negb andb c_positive]; try (now split).
    all: match goal with
         | |- Qle_bool 0 ?d = Qle_bool ?b ?a =>
             destruct (Qle_bool 0 d) eqn:E1; destruct (Qle_bool b a) eqn:E2
         end; try reflexivity.
    all: try apply Qle_bool_iff in E1; try apply Qle_bool_iff in E2.
    all: try apply Qle_bool_false in E1; try apply Qle_bool_false in E2.
    all: exfalso; lra.
Qed.

(** ** Type IDs *)

(** X21.  In exact arithmetic, a positive number typed as the Type ID makes
    one target, with the whole part of the number as its id and without any
    lookup of the name; [getTypeData] then refuses it with "Invalid type
    ID." exactly when the number is below 1 (the whole part is 0), and
    otherwise passes the id on to the request, whose answer it completes:
    a missing portion size is 1, missing materials are none and a missing
    name is "Type" followed by the id. *)
Theorem onCalculate_targets_typeId
    (resolveTypeIdFromName : string -> Completion (option Q))
    (numberToString : Q -> string)
    (fetchJson : Q -> Completion (TypeJson Q))
    (materialName : string) (materialTypeIdInput : Q) (page : Page) :
  (0 < materialTypeIdInput)%Q ->
  exists t,
    onCalculate_targets resolveTypeIdFromName numberToString
      materialName materialTypeIdInput page = (Normal [t], page) /\
    t_typeId t = inject_Z (Qfloor materialTypeIdInput) /\
    ((materialTypeIdInput < 1)%Q ->
     getTypeData fetchJson numberToString (t_typeId t) = Throw "Invalid type ID.") /\
    ((1 <= materialTypeIdInput)%Q ->
     match fetchJson (t_typeId t) with
     | Throw message =>
         getTypeData fetchJson numberToString (t_typeId t) = Throw message
     | Normal data =>
         exists td,
           getTypeData fetchJson numberToString (t_typeId t) = Normal td /\
           portionSize td = default 1%Q (j_portion_size data) /\
           typeMaterials td = default [] (j_type_materials data) /\
           volume td = j_volume data /\
           td_name td = default ("Type " ++ numberToString (t_typeId t))%string
                          (j_name_en data)
     end).
Proof.
  intros Hpos. unfold onCalculate_targets. exact_ops.
  rewrite (proj2 (Exact_ltb_true 0 materialTypeIdInput) Hpos). cbn [andb].
  eexists. split; [reflexivity|]. cbn [t_typeId].
  split; [reflexivity|].
  pose proof (Exact_floor_le materialTypeIdInput) as Hlo.
  pose proof (Exact_floor_lt materialTypeIdInput) as Hhi.
  pose proof (Exact_floor_nonneg materialTypeIdInput ltac:(lra)) as Hn.
  unfold getTypeData. exact_ops. cbn [negb orb].
  split; intros Hx.
  - assert (Hz : Qle_bool (Exact.floor materialTypeIdInput) 0 = true).
    { apply Qle_bool_iff.
      assert (Hlt : (Exact.floor materialTypeIdInput < 1)%Q) by lra.
      unfold Exact.floor in *. rewrite <- (Zle_Qle _ 0).
      rewrite <- (Zlt_Qlt _ 1) in Hlt. lia. }
    now rewrite Hz.
  - assert (Hz : Qle_bool (Exact.floor materialTypeIdInput) 0 = false).
    { apply Qle_bool_false.
      apply (Exact_floor_mono 1 materialTypeIdInput) in Hx.
      change (Exact.floor 1) with 1%Q in Hx. lra. }
    rewrite Hz.
    destruct (fetchJson (Exact.floor materialTypeIdInput)) as [data|message];
      [|reflexivity].
    eexists. split; [reflexivity|]. repeat split.
Qed.

(** A Type ID of one half passes the check of the input and is refused
    by [getTypeData]. *)
Lemma onCalculate_targets_typeId_witness :
  exists t,
    onCalculate_targets (fun _ => Normal None) (fun _ => "0"%string)
      "Veldspar" (1 # 2)%Q Scenario.blank = (Normal [t], Scenario.blank) /\
    getTypeData (fun _ => Normal oreJson) (fun _ => "0"%string) (t_typeId t)
    = Throw "Invalid type ID.".
Proof.
  destruct (onCalculate_targets_typeId (fun _ => Normal None) (fun _ => "0"%string)
              (fun _ => Normal oreJson) "Veldspar" (1 # 2)%Q Scenario.blank)
    as (t & Hrun & _ & Hlow & _); [reflexivity|].
  exists t. split; [exact Hrun|]. apply Hlow. reflexivity.
Defined.

(** ** The request cache *)

Section FetchJsonFacts.

Context {num : Type} {N : JSNumber num} {Json : Type}.
Variable fetch : string -> Completion (Response num Json).
Variable JSON_parse : string -> option (CacheRecord num Json).
Variable JSON_stringify : CacheRecord num Json -> string.
Variable getItem_ok : string -> bool.
Variable setItem_ok : string -> string -> bool.
Variable numberToString : num -> string.

Local Abbreviation fetchJson' :=
  (fetchJson fetch JSON_parse JSON_stringify getItem_ok setItem_ok numberToString).

Lemma memHit_Some (url : string) (ttlMs now : num) (b : Browser num Json)
    (rec : CacheRecord num Json) :
  memHit url ttlMs now b = Some rec <->
  memCache b !! url = Some rec /\ (le ttlMs (lit 0) || fresh ttlMs now rec = true).
Proof.
  unfold memHit. destruct (memCache b !! url) as [mem|]; [|split; [discriminate | intros [[=] _]]].
  destruct (le ttlMs (lit 0) || fresh ttlMs now mem) eqn:E; split.
  - intros [= <-]. now split.
  - now intros [[= <-] _].
  - discriminate.
  - intros [[= <-] H]. congruence.
Qed.

(** A successful call leaves the value it returns in the memory cache. *)
Lemma fetchJson_leaves_record (url : string) (ttlMs now : num)
    (b b' : Browser num Json) (d : Json) :
  fetchJson' url ttlMs now b = (Normal d, b') ->
  exists rec, memCache b' !! url = Some rec /\ rec_data rec = d.
Proof.
  unfold fetchJson.
  destruct (memHit url ttlMs now b) as [mem|] eqn:Hmem.
  { intros [= <- <-]. apply memHit_Some in Hmem as [Hmem _]. eauto. }
  destruct (if lt (lit 0) ttlMs then _ else None) as [parsed|].
  { intros [= <- <-]. cbn [memCache]. exists parsed.
    split; [apply lookup_insert_eq | reflexivity]. }
  unfold fetchFresh.
  destruct (fetch url) as [res|message]; [|discriminate].
  destruct (negb (res_ok res)); [discriminate|].
  destruct (res_json res) as [data|message]; [|discriminate].
  intros [= <- <-]. cbn [memCache]. eexists.
  split; [apply lookup_insert_eq | reflexivity].
Qed.

(** X22.  A value that [fetchJson] returned for a URL stays in the memory
    cache under that URL, and a later call for the URL returns the same
    value without a request and without changing anything, for as long as
    the record is fresh by its own time stamp, and for ever when the later
    call gives no time to live ([ttlMs <= 0]). *)
Theorem fetchJson_cached (url : string) (ttlMs now : num)
    (b b' : Browser num Json) (d : Json) :
  fetchJson' url ttlMs now b = (Normal d, b') ->
  exists rec,
    memCache b' !! url = Some rec /\ rec_data rec = d /\
    forall ttlMs' now',
      le ttlMs' (lit 0) || fresh ttlMs' now' rec = true ->
      fetchJson' url ttlMs' now' b' = (Normal d, b').
Proof.
  intros Hrun. destruct (fetchJson_leaves_record _ _ _ _ _ _ Hrun) as (rec & Hrec & Hd).
  exists rec. split; [exact Hrec|]. split; [exact Hd|].
  intros ttlMs' now' Hfresh. unfold fetchJson.
  assert (Hhit : memHit url ttlMs' now' b' = Some rec)
    by (apply memHit_Some; now split).
  now rewrite Hhit, Hd.
Qed.

(** X23.  [fetchJson] never serves a stale record: when a call with a time
    to live ([ttlMs <= 0] false) returns a value without making a request,
    the value is that of a record, in memory or in [localStorage], whose
    age [now - time] is below [ttlMs]; and a value that comes from a request
    is recorded in memory with the time of the call.  A call that reads the
    memory cache changes nothing at all. *)
Theorem fetchJson_fresh (url : string) (ttlMs now : num)
    (b b' : Browser num Json) (d : Json) :
  fetchJson' url ttlMs now b = (Normal d, b') ->
  (requests b' = requests b /\
   exists rec, rec_data rec = d /\ memCache b' !! url = Some rec /\
               (le ttlMs (lit 0) = false -> fresh ttlMs now rec = true) /\
               (memCache b !! url = Some rec /\ b' = b \/
                (exists raw, localStorage b !! cacheKey url = Some raw
                             /\ JSON_parse raw = Some rec)
                /\ lt (lit 0) ttlMs = true /\ localStorage b' = localStorage b)) \/
  (requests b' = requests b ++ [url] /\
   memCache b' !! url = Some {| rec_time := now; rec_data := d |} /\
   exists res, fetch url = Normal res /\ res_ok res = true /\ res_json res = Normal d).
Proof.
  unfold fetchJson.
  destruct (memHit url ttlMs now b) as [mem|] eqn:Hmem.
  { intros [= <- <-]. apply memHit_Some in Hmem as [Hmem Hfresh].
    left. split; [reflexivity|]. exists mem. repeat split; auto.
    intros Hle. rewrite Hle in Hfresh. exact Hfresh. }
  destruct (lt (lit 0) ttlMs) eqn:Httl.
  - destruct (storageHit JSON_parse getItem_ok url ttlMs now b) as [parsed|] eqn:Hst.
    + intros [= <- <-]. left. cbn [requests memCache localStorage].
      split; [reflexivity|]. exists parsed.
      unfold storageHit in Hst.
      destruct (getItem_ok (cacheKey url)); [|discriminate].
      destruct (localStorage b !! cacheKey url) as [raw|] eqn:Hraw; [|discriminate].
      destruct (nonEmpty raw); [|discriminate].
      destruct (JSON_parse raw) as [p|] eqn:Hp; [|discriminate].
      destruct (fresh ttlMs now p) eqn:Hf; [|discriminate].
      injection Hst as <-.
      split; [reflexivity|]. split; [apply lookup_insert_eq|].
      split; [now intros _|]. right. eauto.
    + unfold fetchFresh.
      destruct (fetch url) as [res|message] eqn:Hres; [|discriminate].
      destruct (res_ok res) eqn:Hok; cbn [negb]; [|discriminate].
      destruct (res_json res) as [data|message] eqn:Hjson; [|discriminate].
      intros [= <- <-]. right. cbn [requests memCache].
      split; [reflexivity|]. split; [apply lookup_insert_eq|]. eauto.
  - unfold fetchFresh.
    destruct (fetch url) as [res|message] eqn:Hres; [|discriminate].
    destruct (res_ok res) eqn:Hok; cbn [negb]; [|discriminate].
    destruct (res_json res) as [data|message] eqn:Hjson; [|discriminate].
    intros [= <- <-]. right. cbn [requests memCache].
    split; [reflexivity|]. split; [apply lookup_insert_eq|]. eauto.
Qed.

(** X24.  A call of [fetchJson] that fails made exactly one request and
    left both caches as they were: the request was refused, or answered
    with a status that is not ok (the message is then "HTTP", the status,
    "for" and the URL), or its body did not parse.  Nothing that
    [localStorage] does makes a call fail. *)
Theorem fetchJson_failure (url : string) (ttlMs now : num)
    (b b' : Browser num Json) (message : string) :
  fetchJson' url ttlMs now b = (Throw message, b') ->
  memCache b' = memCache b /\ localStorage b' = localStorage b /\
  requests b' = requests b ++ [url] /\
  memHit url ttlMs now b = None /\
  (fetch url = Throw message \/
   exists res, fetch url = Normal res /\
     (res_ok res = false /\
      message = ("HTTP " ++ numberToString (res_status res) ++ " for " ++ url)%string
      \/ res_ok res = true /\ res_json res = Throw message)).
Proof.
  unfold fetchJson.
  destruct (memHit url ttlMs now b) as [mem|] eqn:Hmem; [discriminate|].
  destruct (if lt (lit 0) ttlMs then _ else None) as [parsed|]; [discriminate|].
  unfold fetchFresh.
  destruct (fetch url) as [res|message'] eqn:Hres.
  - destruct (res_ok res) eqn:Hok; cbn [negb].
    + destruct (res_json res) as [data|message'] eqn:Hjson; [discriminate|].
      intros [= <- <-]. cbn. repeat split; auto. right. exists res. auto.
    + intros [= <- <-]. cbn. repeat split; auto. right. exists res. auto.
  - intros [= <- <-]. cbn. repeat split; auto.
Qed.

End FetchJsonFacts.

(** A first call at time 1000 fetches the value 7; a second call an hour
    later that gives no time to live gets it from memory. *)
Lemma fetchJson_cached_witness :
  exists b',
    fetchJson sevenAnswer (fun _ => None) (fun _ => "r"%string)
      (fun _ => true) (fun _ _ => true) (fun _ => "200"%string)
      "u" 300000%float 1000%float emptyBrowser = (Normal 7%nat, b') /\
    requests b' = ["u"%string] /\
    fetchJson sevenAnswer (fun _ => None) (fun _ => "r"%string)
      (fun _ => true) (fun _ _ => true) (fun _ => "200"%string)
      "u" 0%float 3601000%float b' = (Normal 7%nat, b').
Proof.
  destruct (fetchJson sevenAnswer (fun _ => None) (fun _ => "r"%string)
              (fun _ => true) (fun _ _ => true) (fun _ => "200"%string)
              "u" 300000%float 1000%float emptyBrowser) as [c b'] eqn:E.
  assert (Hc : c = Normal 7%nat) by (apply (f_equal fst) in E; cbn in E; now subst c).
  assert (Hr : requests b' = ["u"%string])
    by (apply (f_equal snd) in E; cbn in E; now subst b').
  subst c. exists b'. split; [reflexivity|]. split; [exact Hr|].
  destruct (fetchJson_cached sevenAnswer (fun _ => None) (fun _ => "r"%string)
              (fun _ => true) (fun _ _ => true) (fun _ => "200"%string)
              "u" 300000%float 1000%float emptyBrowser b' 7%nat E)
    as (rec & _ & _ & Hagain).
  apply Hagain. reflexivity.
Defined.


(** A first call on an empty cache makes a request; the record it leaves
    in memory holds the value 7. *)
Lemma fetchJson_fresh_witness :
  let run := fetchJson sevenAnswer (fun _ => None) (fun _ => "r"%string)
               (fun _ => true) (fun _ _ => true) (fun _ => "200"%string)
               "u" 300000%float 1000%float emptyBrowser in
  fst run = Normal 7%nat /\
  exists rec, memCache (snd run) !! "u"%string = Some rec /\ rec_data rec = 7%nat.
Proof.
  intros run. split; [reflexivity|].
  assert (E : run = (Normal 7%nat, snd run)) by (vm_compute; reflexivity).
  destruct (fetchJson_fresh sevenAnswer (fun _ => None) (fun _ => "r"%string)
              (fun _ => true) (fun _ _ => true) (fun _ => "200"%string)
              "u" 300000%float 1000%float emptyBrowser (snd run) 7%nat E)
    as [(_ & rec & Hd & Hrec & _) | (_ & Hrec & _)].
  - exists rec. now split.
  - eexists. split; [exact Hrec | reflexivity].
Defined.

(** On a network that answers 404 the call fails after one request and
    the caches stay empty. *)
Lemma fetchJson_failure_witness :
  let run := fetchJson notFound (fun _ => None) (fun _ => "r"%string)
               (fun _ => true) (fun _ _ => true) (fun _ => "404"%string)
               "u" 300000%float 1000%float emptyBrowser in
  fst run = Throw "HTTP 404 for u"%string /\
  memCache (snd run) = memCache emptyBrowser /\
  localStorage (snd run) = localStorage emptyBrowser /\
  requests (snd run) = ["u"%string].
Proof.
  intros run. split; [reflexivity|].
  assert (E : run = (Throw "HTTP 404 for u"%string, snd run)) by (vm_compute; reflexivity).
  destruct (fetchJson_failure notFound (fun _ => None) (fun _ => "r"%string)
              (fun _ => true) (fun _ _ => true) (fun _ => "404"%string)
              "u" 300000%float 1000%float emptyBrowser (snd run)
              "HTTP 404 for u"%string E)
    as (Hmem & Hst & Hreq & _).
  repeat split; assumption.
Defined.
(** ** Prices from the order book *)

Lemma is_finite_rank (x : float) :
  is_finite x = true ->
  is_nan x = false /\ (Binary64.rank x < Binary64.rank infinity)%Z.
Proof.
  intros Hfin. split; [now apply is_finite_not_nan|].
  pose proof (Prim2SF_valid x) as Hv.
  apply is_finite_Prim2SF in Hfin as [[s H]|(s & m & e & H)];
    unfold Binary64.rank; rewrite H; change (Prim2SF infinity) with (S754_infinity false);
    cbn [Binary64.SFrank cond_Zopp].
  - reflexivity.
  - rewrite H in Hv. unfold valid_binary in Hv. cbn [SpecFloat.valid_binary] in Hv.
    pose proof (finite_rank_bounds _ _ Hv) as Hb.
    destruct s; cbn [cond_Zopp]; lia.
Qed.

(** What the scan keeps: [best] is still the infinity it started from and
    no order counted, or it is the lowest price that counted. *)
Lemma scanOrder_lowest (best : float) (seen : list float) (o : ESI.Order) :
  (best = infinity /\ seen = []) \/ ESI.lowest (Some best) seen ->
  let seen' := seen ++ map ESI.price (List.filter ESI.counts [o]) in
  (ESI.scanOrder best o = infinity /\ seen' = [])
  \/ ESI.lowest (Some (ESI.scanOrder best o)) seen'.
Proof.
  intros Hinv seen'. subst seen'. unfold ESI.scanOrder, ESI.counts.
  cbn [List.filter].
  destruct (ESI.location_id o) as [loc|]; cbn [map]; [|now rewrite app_nil_r].
  destruct ((loc =? ESI.JITA_STATION_ID)%float
            && (0 <? default 0%float (ESI.volume_remain o))%float);
    cbn [andb map]; [|now rewrite app_nil_r].
  destruct (is_finite (ESI.price o)) eqn:Hfin; cbn [andb map]; [|now rewrite app_nil_r].
  destruct (is_finite_rank _ Hfin) as [Hnan Hinf].
  right. destruct Hinv as [[-> ->] | (Hb & Hin & Hall)].
  - rewrite Binary64_ltb_rank by (assumption || reflexivity).
    rewrite (proj2 (Z.ltb_lt _ _) Hinf).
    split; [exact Hfin|]. split; [now left|].
    repeat constructor. rewrite Binary64_leb_rank by assumption. apply Z.leb_refl.
  - destruct (is_finite_rank _ Hb) as [Hbn _].
    rewrite Binary64_ltb_rank by assumption.
    destruct (Z.ltb_spec (Binary64.rank (ESI.price o)) (Binary64.rank best)) as [Hlt | Hge].
    + split; [exact Hfin|]. split; [apply in_or_app; right; now left|].
      apply Forall_app. split.
      * rewrite Forall_forall in *. intros q Hq. specialize (Hall q Hq).
        assert (Hqn : is_nan q = false).
        { destruct (is_nan q) eqn:E; [|reflexivity].
          rewrite Binary64_leb_nan in Hall by (now rewrite E, orb_true_r). discriminate. }
        rewrite Binary64_leb_rank in Hall |- * by assumption.
        apply Z.leb_le in Hall. apply Z.leb_le. lia.
      * repeat constructor. rewrite Binary64_leb_rank by assumption. apply Z.leb_refl.
    + split; [exact Hb|]. split; [apply in_or_app; now left|].
      apply Forall_app. split; [exact Hall|].
      repeat constructor. rewrite Binary64_leb_rank by assumption. now apply Z.leb_le.
Qed.

Lemma scanOrders_lowest (orders : list ESI.Order) :
  forall (best : float) (seen : list float),
    (best = infinity /\ seen = []) \/ ESI.lowest (Some best) seen ->
    let best' := fold_left ESI.scanOrder orders best in
    let seen' := seen ++ map ESI.price (List.filter ESI.counts orders) in
    (best' = infinity /\ seen' = []) \/ ESI.lowest (Some best') seen'.
Proof.
  induction orders as [|o orders IH]; intros best seen Hinv; cbn [fold_left].
  - cbn. now rewrite app_nil_r.
  - pose proof (scanOrder_lowest best seen o Hinv) as Hstep. cbv zeta in Hstep.
    specialize (IH _ _ Hstep). cbv zeta in IH |- *.
    rewrite <- app_assoc, <- map_app in IH.
    replace (List.filter ESI.counts [o] ++ List.filter ESI.counts orders)
      with (List.filter ESI.counts (o :: orders)) in IH; [exact IH|].
    cbn [List.filter]. now destruct (ESI.counts o).
Qed.

Lemma countingPrices_snoc (read : list ESI.OrdersPage) (r : ESI.OrdersPage) :
  ESI.countingPrices (read ++ [r])
  = ESI.countingPrices read ++ map ESI.price (List.filter ESI.counts (ESI.ordersOf r)).
Proof.
  unfold ESI.countingPrices.
  rewrite bind_app. cbn [mbind list_bind]. rewrite app_nil_r.
  now rewrite List.filter_app, map_app.
Qed.

Section ESIFacts.

Variable fetchPage : nat -> Completion ESI.OrdersPage.
Variable failed : float -> string.

Lemma readPages_lowest (left : nat) :
  forall (page : nat) (pages best : float) (read : list ESI.OrdersPage)
         (best' : float) (read' : list ESI.OrdersPage),
    ESI.readPages fetchPage failed left page pages best read = Normal (best', read') ->
    (best = infinity /\ ESI.countingPrices read = [])
    \/ ESI.lowest (Some best) (ESI.countingPrices read) ->
    ((best' = infinity /\ ESI.countingPrices read' = [])
     \/ ESI.lowest (Some best') (ESI.countingPrices read')) /\
    (length read' <= length read + left)%nat /\
    (exists more, read' = read ++ more /\
                  Forall (fun r => ESI.page_ok r = true
                                   /\ exists orders, ESI.page_json r = Normal orders) more).
Proof.
  induction left as [|left IH]; intros page pages best read best' read' Hrun Hinv;
    cbn [ESI.readPages] in Hrun.
  - injection Hrun as <- <-. split; [exact Hinv|]. split; [lia|].
    exists []. split; [now rewrite app_nil_r | constructor].
  - destruct (Binary64.of_Z (Z.of_nat page) <=? pages)%float.
    2: { injection Hrun as <- <-. split; [exact Hinv|]. split; [lia|].
         exists []. split; [now rewrite app_nil_r | constructor]. }
    destruct (fetchPage page) as [r|message]; [|discriminate].
    destruct (ESI.page_ok r) eqn:Hok; cbn [negb] in Hrun; [|discriminate].
    destruct (ESI.page_json r) as [orders|message] eqn:Hjson; [|discriminate].
    apply IH in Hrun.
    + destruct Hrun as (Hlow & Hlen & more & -> & Hmore).
      split; [exact Hlow|]. split; [rewrite !length_app in *; cbn [length] in *; lia|].
      exists (r :: more). split; [now rewrite <- app_assoc|].
      constructor; [|exact Hmore]. split; [exact Hok | eauto].
    + rewrite countingPrices_snoc.
      assert (Ho : default [] orders = ESI.ordersOf r).
      { unfold ESI.ordersOf. rewrite Hjson. now destruct orders. }
      rewrite Ho. now apply scanOrders_lowest.
Qed.

(** The price returned is the lowest that counts on the pages read. *)
Lemma getBestJitaSell_ESI_counting (typeId : float) (maxPages : nat)
    (best : option float) (read : list ESI.OrdersPage) :
  ESI.getBestJitaSell_ESI fetchPage failed typeId maxPages = Normal (best, read) ->
  ESI.lowest best (ESI.countingPrices read).
Proof.
  unfold ESI.getBestJitaSell_ESI.
  destruct (negb (is_finite typeId) || (typeId <=? 0)%float).
  { intros [= <- <-]. reflexivity. }
  destruct (ESI.readPages fetchPage failed maxPages 1 1 infinity []) as [[best0 read0]|message]
    eqn:Hrun; [|discriminate].
  apply readPages_lowest in Hrun; [|left; now split].
  destruct Hrun as (Hlow & _ & more & -> & _).
  intros [= <- <-]. cbn [app].
  destruct Hlow as [[-> Hnone] | Hlow].
  - change (is_finite infinity) with false. cbn [negb]. exact Hnone.
  - pose proof Hlow as (Hb & _). rewrite Hb. cbn [negb]. exact Hlow.
Qed.

(** X25.  [getBestJitaSell_ESI] returns the lowest price among the orders
    that count (at Jita, with volume left and a finite price) on the pages
    it read, and [null] exactly when no order on them counts; it reads at
    most [maxPages] pages, each with a status that is ok and a body that
    parsed; and an id that is not a finite number above 0 gives [null]
    without any request. *)
Theorem getBestJitaSell_ESI_lowest (typeId : float) (maxPages : nat) :
  match ESI.getBestJitaSell_ESI fetchPage failed typeId maxPages with
  | Normal (best, read) =>
      ESI.lowest best (ESI.countingPrices read) /\
      (length read <= maxPages)%nat /\
      Forall (fun r => ESI.page_ok r = true
                       /\ exists orders, ESI.page_json r = Normal orders) read /\
      (is_finite typeId && (0 <? typeId)%float = false -> best = None /\ read = [])
  | Throw message => is_finite typeId = true /\ (typeId <=? 0)%float = false
  end.
Proof.
  unfold ESI.getBestJitaSell_ESI.
  destruct (is_finite typeId) eqn:Hfin; cbn [negb orb andb].
  2: { split; [reflexivity|]. split; [cbn; lia|]. split; [constructor | now intros _]. }
  destruct (typeId <=? 0)%float eqn:Hle.
  { split; [reflexivity|]. split; [cbn; lia|]. split; [constructor | now intros _]. }
  destruct (ESI.readPages fetchPage failed maxPages 1 1 infinity []) as [[best read]|message]
    eqn:Hrun; [|now split].
  apply readPages_lowest in Hrun; [|left; now split].
  destruct Hrun as (Hlow & Hlen & more & -> & Hmore).
  cbn [app length] in *.
  split; [|split; [lia | split; [exact Hmore|]]].
  - destruct Hlow as [[-> Hnone] | Hlow].
    + change (is_finite infinity) with false. cbn [negb]. exact Hnone.
    + pose proof Hlow as (Hb & _). rewrite Hb. cbn [negb]. exact Hlow.
  - intros Hpos. exfalso.
    destruct (is_finite_rank _ Hfin) as [Hnan _].
    rewrite Binary64_ltb_rank in Hpos by (assumption || reflexivity).
    rewrite Binary64_leb_rank in Hle by (assumption || reflexivity).
    apply Z.ltb_ge in Hpos. apply Z.leb_gt in Hle. lia.
Qed.

End ESIFacts.

(** Of the orders of the example, 4.25 is the lowest price that counts;
    both pages are read. *)
Lemma getBestJitaSell_ESI_lowest_witness :
  exists read,
    ESI.getBestJitaSell_ESI twoPages (fun _ => EmptyString) 34%float 25
    = Normal (Some 4.25%float, read) /\
    length read = 2%nat /\
    ESI.lowest (Some 4.25%float) (ESI.countingPrices read).
Proof.
  pose proof (getBestJitaSell_ESI_lowest twoPages (fun _ => EmptyString) 34%float 25) as H.
  destruct (ESI.getBestJitaSell_ESI twoPages (fun _ => EmptyString) 34%float 25)
    as [[best read]|message] eqn:E; [|vm_compute in E; discriminate E].
  vm_compute in E. injection E as <- <-.
  eexists. split; [reflexivity|]. split; [reflexivity | apply H].
Defined.

(** X26.  The price map that [getPricesESI] builds has entries only for ids
    that were asked for and are finite numbers above 0; each holds no buy
    price and, as its sell price, what [getBestJitaSell_ESI] returned for an
    id equal to its key: [null] or the lowest price that counts, which is a
    finite number but, unlike a price from Fuzzwork, may be 0 or negative.
    The only errors are those of the requests. *)
Theorem getPricesESI_prices
    (fetchPage : float -> nat -> Completion ESI.OrdersPage)
    (failed : float -> float -> string)
    (typeIds : list (option float)) :
  match ESI.getPricesESI fetchPage failed typeIds with
  | Normal prices =>
      Forall (fun kv =>
                (validTypeId (fst kv) /\ In (Some (fst kv)) typeIds) /\
                buyMax (snd kv) = None /\
                (forall p, sellMin (snd kv) = Some p -> is_finite p = true) /\
                exists id read,
                  sameValueZero (fst kv) id = true /\
                  ESI.getBestJitaSell_ESI (fetchPage id) (failed id) id 25
                  = Normal (sellMin (snd kv), read) /\
                  ESI.lowest (sellMin (snd kv)) (ESI.countingPrices read)) prices
  | Throw message =>
      exists id, In id (validTypeIds typeIds) /\
                 ESI.getBestJitaSell_ESI (fetchPage id) (failed id) id 25 = Throw message
  end.
Proof.
  unfold ESI.getPricesESI.
  set (P := fun (k : float) (q : PriceQuote float) =>
    (validTypeId k /\ In (Some k) typeIds) /\
    buyMax q = None /\
    (forall p, sellMin q = Some p -> is_finite p = true) /\
    exists id read,
      sameValueZero k id = true /\
      ESI.getBestJitaSell_ESI (fetchPage id) (failed id) id 25 = Normal (sellMin q, read) /\
      ESI.lowest (sellMin q) (ESI.countingPrices read)).
  set (step := fun (out : Completion (list (float * PriceQuote float))) (id : float) =>
    match out with
    | Throw message => Throw message
    | Normal out =>
        match ESI.getBestJitaSell_ESI (fetchPage id) (failed id) id 25 with
        | Throw message => Throw message
        | Normal (price, _) => Normal (Map_set out id {| sellMin := price; buyMax := None |})
        end
    end).
  assert (Hall : forall (ids : list float) (out : Completion (list (float * PriceQuote float))),
    (forall x, In x ids -> In x (validTypeIds typeIds)) ->
    match out with
    | Normal prices => Forall (fun kv => P (fst kv) (snd kv)) prices
    | Throw message =>
        exists id, In id (validTypeIds typeIds) /\
          ESI.getBestJitaSell_ESI (fetchPage id) (failed id) id 25 = Throw message
    end ->
    match fold_left step ids out with
    | Normal prices => Forall (fun kv => P (fst kv) (snd kv)) prices
    | Throw message =>
        exists id, In id (validTypeIds typeIds) /\
          ESI.getBestJitaSell_ESI (fetchPage id) (failed id) id 25 = Throw message
    end).
  { induction ids as [|x ids IH]; intros out Hids Hout; cbn [fold_left]; [exact Hout|].
    apply IH; [intros y Hy; apply Hids; now right|].
    assert (Hx : In x (validTypeIds typeIds)) by (apply Hids; now left).
    destruct out as [prices|message]; cbn [step]; [|exact Hout].
    destruct (ESI.getBestJitaSell_ESI (fetchPage x) (failed x) x 25)
      as [[price read]|message] eqn:E; [|eauto].
    pose proof (getBestJitaSell_ESI_counting _ _ _ _ _ _ E) as Hlow.
    assert (Hfin : forall p, price = Some p -> is_finite p = true).
    { intros p ->. apply Hlow. }
    destruct (validTypeIds_valid typeIds x Hx) as [Hvalid Hasked].
    assert (Hself : sameValueZero x x = true).
    { destruct Hvalid as [Hf _]. cbn in Hf. apply is_finite_not_nan in Hf.
      unfold sameValueZero, Binary64_key. unfold is_nan in Hf.
      apply negb_false_iff in Hf. now rewrite Hf. }
    apply (Map_set_Forall P); [exact Hout | |].
    - unfold P. cbn [sellMin buyMax]. repeat split; auto; try apply Hvalid. eauto.
    - intros k' Hk' Hsame. rewrite Forall_forall in Hout.
      apply List.in_map_iff in Hk' as ([k0 q0] & <- & Hin).
      destruct (Hout _ (proj2 (list_elem_of_In _ _) Hin)) as (Hk0 & _).
      unfold P. cbn [sellMin buyMax fst]. repeat split; auto; try apply Hk0. eauto. }
  apply (Hall (validTypeIds typeIds) (Normal [])); [auto | constructor].
Qed.

(** ** The helpers clamp and computeReprocessOutputs *)

(** [Math.max(lo, Math.min(hi, e))] and [Math.min(hi, Math.max(lo, e))] on
    doubles, for bounds that are numbers with [lo <= hi]. *)
Lemma Binary64_between (lo hi e : float) :
  is_nan lo = false -> is_nan hi = false -> (lo <=? hi)%float = true ->
  (is_nan e = true ->
   is_nan (Binary64.max lo (Binary64.min hi e)) = true /\
   is_nan (Binary64.min hi (Binary64.max lo e)) = true) /\
  (is_nan e = false ->
   (is_nan (Binary64.max lo (Binary64.min hi e)) = false /\
    (lo <=? Binary64.max lo (Binary64.min hi e))%float = true /\
    (Binary64.max lo (Binary64.min hi e) <=? hi)%float = true) /\
   (is_nan (Binary64.min hi (Binary64.max lo e)) = false /\
    (lo <=? Binary64.min hi (Binary64.max lo e))%float = true /\
    (Binary64.min hi (Binary64.max lo e) <=? hi)%float = true /\
    ((lo <=? e)%float = true -> (e <=? hi)%float = true ->
     (Binary64.min hi (Binary64.max lo e) =? e)%float = true))).
Proof.
  intros Hlo Hhi Hle. rewrite Binary64_leb_rank in Hle by assumption.
  apply Z.leb_le in Hle. split; intros He.
  - split.
    + apply Binary64_max_nan. rewrite (Binary64_min_nan hi e); [apply orb_true_r|].
      now rewrite He, orb_true_r.
    + apply Binary64_min_nan. rewrite (Binary64_max_nan lo e); [apply orb_true_r|].
      now rewrite He, orb_true_r.
  - destruct (Binary64_min_rank hi e Hhi He) as [Hm Em].
    destruct (Binary64_max_rank lo _ Hlo Hm) as [HM EM].
    destruct (Binary64_max_rank lo e Hlo He) as [Hm' Em'].
    destruct (Binary64_min_rank hi _ Hhi Hm') as [HM' EM'].
    split.
    + split; [exact HM|].
      rewrite !Binary64_leb_rank by assumption. rewrite EM, Em.
      split; apply Z.leb_le; lia.
    + split; [exact HM'|].
      rewrite !Binary64_leb_rank by assumption. rewrite EM', Em'.
      split; [apply Z.leb_le; lia|]. split; [apply Z.leb_le; lia|].
      rewrite !Z.leb_le. intros H1 H2.
      rewrite FloatAxioms.eqb_spec. unfold SFeqb.
      apply Prim2SF_not_nan in HM', He.
      rewrite SFcompare_rank by (auto using Prim2SF_valid).
      fold (Binary64.rank (Binary64.min hi (Binary64.max lo e))).
      fold (Binary64.rank e). rewrite EM', Em'.
      replace (Z.min (Binary64.rank hi) (Z.max (Binary64.rank lo) (Binary64.rank e)))
        with (Binary64.rank e) by lia.
      now rewrite Z.compare_refl.
Qed.

(** X27.  On doubles, for bounds that are numbers with [lo <= hi],
    [clamp(n, lo, hi)] is NaN when [n] is NaN and otherwise a number between
    [lo] and [hi], equal to [n] when [n] is already between them. *)
Theorem clamp_binary64 (n lo hi : float) :
  is_nan lo = false -> is_nan hi = false -> (lo <=? hi)%float = true ->
  is_nan (clamp n lo hi) = is_nan n /\
  (is_nan n = false ->
   (lo <=? clamp n lo hi)%float = true /\ (clamp n lo hi <=? hi)%float = true /\
   ((lo <=? n)%float = true -> (n <=? hi)%float = true ->
    (clamp n lo hi =? n)%float = true)).
Proof.
  intros Hlo Hhi Hle. unfold clamp. float_ops.
  destruct (Binary64_between lo hi n Hlo Hhi Hle) as [Hnan Hnum].
  destruct (is_nan n) eqn:Hn.
  - split; [now apply Hnan | discriminate].
  - destruct (Hnum eq_refl) as (_ & H1 & H2 & H3 & H4).
    split; [exact H1|]. intros _. now repeat split.
Qed.

(** A yield of 250 % is clamped to 100. *)
Lemma clamp_binary64_witness :
  (0 <=? clamp 250 0 100)%float = true /\ (clamp 250 0 100 <=? 100)%float = true.
Proof.
  destruct (clamp_binary64 250 0 100 eq_refl eq_refl eq_refl) as (_ & H).
  destruct (H eq_refl) as (H1 & H2 & _). now split.
Defined.

(** X28.  On doubles, each skill level that the advanced form uses is NaN or
    a number between 0 and 5, whatever is typed; and the implant bonus and
    the tax that it uses are NaN or not negative. *)
Theorem applyAdvanced_binary64_inputs (f : AdvancedForm float) :
  Forall (fun v => is_nan (skillLevel v) = true
                   \/ ((0 <=? skillLevel v)%float = true
                       /\ (skillLevel v <=? 5)%float = true))
         [skillR f; skillRE f; skillOP f] /\
  (is_nan (applyAdvancedTax f) = true \/ (0 <=? applyAdvancedTax f)%float = true) /\
  (is_nan (applyAdvancedTax f) = is_nan (formTaxPct f)).
Proof.
  assert (Hskill : forall v, is_nan (skillLevel v) = true
                             \/ ((0 <=? skillLevel v)%float = true
                                 /\ (skillLevel v <=? 5)%float = true)).
  { intros v. unfold skillLevel. float_ops.
    change (Binary64.of_Q 0) with 0%float. change (Binary64.of_Q 5) with 5%float.
    destruct (Binary64_between 0 5 (Binary64.floor v) eq_refl eq_refl eq_refl)
      as [Hnan Hnum].
    destruct (is_nan (Binary64.floor v)) eqn:E.
    - left. now apply Hnan.
    - right. now apply Hnum. }
  split; [repeat (constructor; [apply Hskill|]); constructor|].
  unfold applyAdvancedTax. float_ops. change (Binary64.of_Q 0) with 0%float.
  destruct (is_nan (formTaxPct f)) eqn:E.
  - assert (Hn : is_nan (Binary64.max 0 (formTaxPct f)) = true)
      by (apply Binary64_max_nan; now rewrite E, orb_true_r).
    split; [now left | exact Hn].
  - destruct (Binary64_max_rank 0 (formTaxPct f) eq_refl E) as [Hn Er].
    split; [|exact Hn]. right.
    rewrite Binary64_leb_rank by (assumption || reflexivity).
    rewrite Er. apply Z.leb_le. lia.
Qed.

Section ReprocessOutputs.

Context {num : Type} {N : JSNumber num}.

(** X29.  The helper [computeReprocessOutputs] lists an output only for a
    material whose id and quantity per portion are finite numbers above 0
    (the id read from the record, or from the key when the record has
    none), so never more outputs than materials; the rows that
    [onCalculate] builds are one per material, whatever its id and
    quantity. *)
Theorem computeReprocessOutputs_outputs
    (units portionSize : num) (materials : list (num * TypeMaterial num))
    (yieldPct : num) :
  let outputs := computeReprocessOutputs units portionSize materials yieldPct in
  Forall (fun o =>
            isFinite (o_typeId o) = true /\ le (o_typeId o) (lit 0) = false /\
            isFinite (o_qtyPerPortion o) = true /\ le (o_qtyPerPortion o) (lit 0) = false /\
            exists entry, In entry materials /\
                          o_typeId o = default (fst entry) (material_type_id (snd entry)) /\
                          o_qtyPerPortion o = default (lit 0) (quantity (snd entry)))
         outputs /\
  (length outputs <= length materials)%nat /\
  (forall (nameOf : option num -> string) (priceMap : PriceMap num)
          (yieldFrac : num) (m : Mined num),
      length (producedRows nameOf priceMap yieldFrac m)
      = length (typeMaterials (m_typeData m))).
Proof.
  intros outputs. subst outputs. unfold computeReprocessOutputs.
  set (eff := div (clamp _ _ _) _). set (batches := div units _).
  pose proof (Array_sort_perm byQtyThenTypeId
                (omap (reprocessOutput batches eff) materials)) as Hperm.
  split; [|split].
  - apply Forall_forall. intros o Ho. rewrite Hperm in Ho.
    apply list_elem_of_omap in Ho as ([key rec] & Hin & Ho).
    apply list_elem_of_In in Hin.
    unfold reprocessOutput in Ho.
    destruct (isFinite (default key (material_type_id rec))) eqn:H1; cbn [negb orb] in Ho;
      [|discriminate].
    destruct (le (default key (material_type_id rec)) (lit 0)) eqn:H2; [discriminate|].
    destruct (isFinite (default (lit 0) (quantity rec))) eqn:H3; cbn [negb orb] in Ho;
      [|discriminate].
    destruct (le (default (lit 0) (quantity rec)) (lit 0)) eqn:H4; [discriminate|].
    injection Ho as <-. cbn [o_typeId o_qtyPerPortion].
    repeat split; auto. exists (key, rec). auto.
  - rewrite (Permutation_length Hperm).
    clear Hperm. induction materials as [|e l IH]; cbn [omap list_omap length]; [lia|].
    fold (omap (reprocessOutput batches eff) l).
    destruct (reprocessOutput batches eff e); cbn [length]; lia.
  - intros nameOf priceMap yieldFrac m. unfold producedRows. apply length_map.
Qed.

End ReprocessOutputs.

